(** * ES five-year data analysis: the OHLCV pipeline, embedded and checked

    The repository expresses one pipeline three times: a pandas notebook
    (ES_analysis_notebook_final.ipynb), an SQL script and an R script.
    Each stage is a call into a data-analysis library, so the embedding
    gives every library call the meaning its library documents, and
    composes the calls the way the three sources do.

    Prices are IEEE-754 binary64 numbers (pandas float64, R double, SQL
    FLOAT evaluated in double precision): Rocq's primitive [float].  A
    missing value (pandas NaN, R NA, SQL NULL) is the NaN of that type.
    Volumes are machine integers, modelled in [Z] with the overflow
    behaviour of each host written out. *)

From Stdlib Require Import ZArith List Bool Lia Floats Sorted.
Import ListNotations.

Set Warnings "-inexact-float".

(** ** Data model

    A timestamp is naive (no time zone), at the minute precision of the
    CSV format [%m/%d/%Y %H:%M]: the number of minutes since an epoch
    midnight.  A calendar date is a day number. *)

Abbreviation Timestamp := Z.
Abbreviation CalendarDate := Z.

(** [DATE(Time)] in SQL, [as.Date(Time)] in R, the ['D'] bin of pandas:
    the day the timestamp falls in, with no time-zone conversion (for R
    this takes the session to run in UTC). *)
Definition DATE (t : Timestamp) : CalendarDate := (t / 1440)%Z.

Module Raw.
Record bar : Type := mk
  { Time : Timestamp;
    Open : float; High : float; Low : float; Close : float;
    Volume : Z }.
Definition Date (b : bar) : CalendarDate := DATE (Time b).
End Raw.

Module Daily.
Record bar : Type := mk
  { Date : CalendarDate;
    Open : float; High : float; Low : float; Close : float;
    Volume : Z }.
End Daily.

Record ReturnRecord : Type := mkReturn
  { rDate : CalendarDate; rClose : float; Daily_Return : float }.

(** Errors of the specification's taxonomy, and the outcome of a stage
    that may raise one. *)
Inductive Error : Type :=
| SourceUnavailable | ParseError | InsufficientData | InsufficientHistory.

Inductive outcome (A : Type) : Type :=
| Returned (a : A)
| Raised (e : Error).
Arguments Returned {A} a.
Arguments Raised {A} e.

(** ** Numbers *)

Module F64.

Local Open Scope float_scope.

(** A value is defined when it is not NaN. *)
Definition defined (x : float) : bool := negb (is_nan x).

(** Nearest binary64 to an integer (numpy's int64 to float64 cast). *)
Definition of_Z (z : Z) : float := SF2Prim (binary_normalize prec emax z 0 false).
Definition of_nat (n : nat) : float := of_Z (Z.of_nat n).

Definition sum (xs : list float) : float := fold_left add xs 0.

(** The formula (x1 + ... + xn) / n evaluated left to right in
    binary64.  No library computes its mean this way; the formula is
    what a claim about "the arithmetic mean" is measured against. *)
Definition mean (xs : list float) : float := sum xs / of_nat (length xs).

(** The real number that a finite binary64 value stands for, counted
    in units of 2^-1074 (the smallest positive value), so that sums and
    products of such numbers can be compared exactly. *)
Definition units (x : float) : option Z :=
  match Prim2SF x with
  | S754_zero _ => Some 0%Z
  | S754_finite s m e => Some (cond_Zopp s (Z.pos m * 2 ^ (e + 1074)))%Z
  | _ => None
  end.

Definition fmax (m v : float) : float := if m <? v then v else m.
Definition fmin (m v : float) : float := if v <? m then v else m.

End F64.

Module Int.

Local Open Scope Z_scope.

(** numpy int64: sums wrap around modulo 2^64. *)
Definition wrap64 (z : Z) : Z := (z + 2 ^ 63) mod 2 ^ 64 - 2 ^ 63.

(** R integers are 32-bit; [NA_integer_] is the smallest of them. *)
Definition INT_MAX : Z := 2147483647.
Definition NA_integer_ : Z := -2147483648.

Definition total (xs : list Z) : Z := fold_left Z.add xs 0.

(** The double nearest to an integer, as an integer: the integer itself
    up to 53 bits, rounded to 53 significant bits (ties to even)
    beyond. *)
Definition round53 (z : Z) : Z :=
  let a := Z.abs z in
  let k := Z.log2 a + 1 - 53 in
  if k <=? 0 then z
  else
    let q := a / 2 ^ k in
    let r := a mod 2 ^ k in
    let half := 2 ^ (k - 1) in
    let q' := if r <? half then q
              else if half <? r then q + 1
              else if Z.even q then q else q + 1 in
    Z.sgn z * (q' * 2 ^ k).

End Int.

(** Sorted list of the distinct dates of a column: the group keys of
    dplyr's [group_by(Date)], which come out in ascending order, and of
    [GROUP BY DATE(Time)], whose order SQL leaves open and which is taken
    ascending as well. *)
Fixpoint insert_date (d : CalendarDate) (l : list CalendarDate) : list CalendarDate :=
  match l with
  | [] => [d]
  | x :: t =>
      if (d <? x)%Z then d :: l
      else if (d =? x)%Z then l
      else x :: insert_date d t
  end.

Definition distinct_dates (ds : list CalendarDate) : list CalendarDate :=
  fold_right insert_date [] ds.

(** The rows of one calendar date, in input order. *)
Definition on_date (d : CalendarDate) (rows : list Raw.bar) : list Raw.bar :=
  filter (fun b => (Raw.Date b =? d)%Z) rows.

(** Zero-based positions [lo], [lo+1], ..., [hi], both ends included. *)
Definition inclusive_range (lo hi : Z) : list Z :=
  map (fun k => (lo + Z.of_nat k)%Z) (seq 0 (Z.to_nat (hi - lo + 1))).

(** A daily aggregation is a choice of group keys and of one reducer per
    column: the dictionary given to pandas' [agg], the select list of the
    SQL query, the arguments of dplyr's [summarise]. *)
Record reducers : Type := mkReducers
  { agg_Open : list float -> float;
    agg_High : list float -> float;
    agg_Low : list float -> float;
    agg_Close : list float -> float;
    agg_Volume : list Z -> Z }.

Definition reduce_group (f : reducers) (d : CalendarDate) (g : list Raw.bar) : Daily.bar :=
  Daily.mk d
    (agg_Open f (map Raw.Open g)) (agg_High f (map Raw.High g))
    (agg_Low f (map Raw.Low g)) (agg_Close f (map Raw.Close g))
    (agg_Volume f (map Raw.Volume g)).

Definition aggregate (f : reducers) (keys : list CalendarDate) (rows : list Raw.bar)
  : list Daily.bar :=
  map (fun d => reduce_group f d (on_date d rows)) keys.

(** [xs[start:stop]] *)
Definition slice (xs : list float) (start stop : nat) : list float :=
  firstn (stop - start) (skipn start xs).

(** A column moved down by one row, the first row left missing:
    pandas' [shift(1)], SQL's [LAG(col, 1)]. *)
Definition lag (xs : list float) : list float :=
  match xs with
  | [] => []
  | _ :: _ => nan :: removelast xs
  end.

(** ** pandas *)

Module Pandas.

Import F64.
Local Open Scope float_scope.

Definition dropna (xs : list float) : list float := filter defined xs.

(** Group reducers skip missing values and give NaN for a group that
    has none left; an integer sum over nothing is 0. *)
Definition first (xs : list float) : float := hd nan (dropna xs).
Definition last (xs : list float) : float := List.last (dropna xs) nan.

Definition max (xs : list float) : float :=
  match dropna xs with
  | [] => nan
  | v :: vs => fold_left fmax (v :: vs) neg_infinity
  end.

Definition min (xs : list float) : float :=
  match dropna xs with
  | [] => nan
  | v :: vs => fold_left fmin (v :: vs) infinity
  end.

Definition sum (xs : list Z) : Z :=
  fold_left (fun s v => Int.wrap64 (s + v)) xs 0%Z.

(** [resample('D')]: one bin per calendar day from the earliest to the
    latest timestamp of the index, whether or not a row falls in it. *)
Definition resample_D (rows : list Raw.bar) : list CalendarDate :=
  match map Raw.Date rows with
  | [] => []
  | d :: ds => inclusive_range (fold_left Z.min ds d) (fold_left Z.max ds d)
  end.

(** The rows in index order.  [resample] sorts an index that is not
    ascending before it forms the bins, with a stable sort: rows of
    equal timestamp keep the order of the file. *)
Fixpoint insert_by_time (r : Raw.bar) (l : list Raw.bar) : list Raw.bar :=
  match l with
  | [] => [r]
  | x :: t =>
      if (Raw.Time r <=? Raw.Time x)%Z then r :: l else x :: insert_by_time r t
  end.

Definition sort_index (rows : list Raw.bar) : list Raw.bar :=
  fold_right insert_by_time [] rows.

Definition resample_D_agg (f : reducers) (rows : list Raw.bar) : list Daily.bar :=
  aggregate f (resample_D rows) (sort_index rows).

(** [pct_change(fill_method=...)]: the quotient to the previous row,
    minus one, after the optional forward fill of missing values.  The
    default of [fill_method] differs between pandas releases. *)
Inductive fill_method : Type := pad | no_fill.

Fixpoint ffill_from (prev : float) (xs : list float) : list float :=
  match xs with
  | [] => []
  | x :: t => let v := if is_nan x then prev else x in v :: ffill_from v t
  end.

Definition ffill (xs : list float) : list float := ffill_from nan xs.

Definition apply_fill (fill : fill_method) (xs : list float) : list float :=
  match fill with pad => ffill xs | no_fill => xs end.

Definition pct_change (fill : fill_method) (xs : list float) : list float :=
  let data := apply_fill fill xs in
  map (fun p => fst p / snd p - 1) (combine data (lag data)).

(** [rolling(window, min_periods).mean()] is pandas' [roll_mean]: one
    pass over the column that keeps a running sum with Kahan's
    compensation, takes out of it the values that leave the window and
    into it the values that enter, and counts the values present. *)
Module RollMean.

Record state : Type := mk
  { nobs : nat; sum_x : float; neg_ct : nat;
    compensation_add : float; compensation_remove : float;
    num_consecutive_same_value : nat; prev_value : float }.

Definition signbit (val : float) : bool := get_sign val.

Definition add_mean (val : float) (st : state) : state :=
  if val =? val then
    let y := val - compensation_add st in
    let t := sum_x st + y in
    mk (S (nobs st)) t
       (if signbit val then S (neg_ct st) else neg_ct st)
       (t - sum_x st - y) (compensation_remove st)
       (if val =? prev_value st then S (num_consecutive_same_value st) else 1%nat)
       val
  else st.

Definition remove_mean (val : float) (st : state) : state :=
  if val =? val then
    let y := - val - compensation_remove st in
    let t := sum_x st + y in
    mk (pred (nobs st)) t
       (if signbit val then pred (neg_ct st) else neg_ct st)
       (compensation_add st) (t - sum_x st - y)
       (num_consecutive_same_value st) (prev_value st)
  else st.

(** A run of equal values is returned as it is; a mean of the wrong
    sign is cut to 0; fewer than [minp] values present give NaN. *)
Definition calc_mean (minp : nat) (st : state) : float :=
  if ((minp <=? nobs st) && (0 <? nobs st))%nat then
    let result := sum_x st / of_nat (nobs st) in
    if (nobs st <=? num_consecutive_same_value st)%nat then prev_value st
    else if (neg_ct st =? 0)%nat && (result <? 0) then 0
    else if (neg_ct st =? nobs st)%nat && (0 <? result) then 0
    else result
  else nan.

(** The bounds of the fixed window that ends at row [i]: the rows
    [start, end). *)
Definition window_start (window i : nat) : nat := (i + 1 - window)%nat.
Definition window_end (i : nat) : nat := (i + 1)%nat.

Definition values_in (values : list float) (s e : nat) : list float :=
  map (fun j => nth j values nan) (seq s (e - s)).

Definition setup (values : list float) (s e : nat) : state :=
  fold_left (fun st val => add_mean val st) (values_in values s e)
    (mk 0 0 0 0 0 0 (nth s values nan)).

(** The accumulators after round [i] of the loop over the rows. *)
Fixpoint state_after (values : list float) (window i : nat) : state :=
  match i with
  | O => setup values (window_start window 0) (window_end 0)
  | S k =>
      let s := window_start window i in
      let e := window_end i in
      if (window_end k <=? s)%nat then setup values s e
      else
        let deleted :=
          fold_left (fun st val => remove_mean val st)
            (values_in values (window_start window k) s)
            (state_after values window k) in
        fold_left (fun st val => add_mean val st)
          (values_in values (window_end k) e) deleted
  end.

Definition roll_mean (values : list float) (window minp : nat) : list float :=
  map (fun i => calc_mean minp (state_after values window i))
      (seq 0 (length values)).

End RollMean.

(** The window functions receive the column as float64 with its
    infinite values turned into NaN. *)
Definition prep_values (xs : list float) : list float :=
  map (fun v => if is_infinity v then nan else v) xs.

Definition rolling_mean (window min_periods : nat) (xs : list float) : list float :=
  RollMean.roll_mean (prep_values xs) window min_periods.

(** [min_periods] defaults to the size of the window. *)
Definition rolling (window : nat) (xs : list float) : list float :=
  rolling_mean window window xs.

(** [DataFrame.corr()], Pearson with [min_periods = 1]: for each pair of
    columns a single pass (Welford's update) over the rows where both
    values are finite. *)
Record welford : Type := mkWelford
  { nobs : nat; meanx : float; meany : float;
    ssqdm_x : float; ssqdm_y : float; covxy : float }.

Definition welford_init : welford := mkWelford 0 0 0 0 0 0.

Definition welford_step (st : welford) (v : float * float) : welford :=
  let (vx, vy) := v in
  if is_finite vx && is_finite vy then
    let n := S (nobs st) in
    let dx := vx - meanx st in
    let dy := vy - meany st in
    let mx := meanx st + 1 / of_nat n * dx in
    let my := meany st + 1 / of_nat n * dy in
    mkWelford n mx my
      (ssqdm_x st + (vx - mx) * dx)
      (ssqdm_y st + (vy - my) * dy)
      (covxy st + (vx - mx) * dy)
  else st.

Definition clip (val : float) : float :=
  if 1 <? val then 1 else if val <? -1 then -1 else val.

Definition nancorr_pair (minp : nat) (xs ys : list float) : float :=
  let st := fold_left welford_step (combine xs ys) welford_init in
  if (nobs st <? minp)%nat then nan
  else
    let divisor := sqrt (ssqdm_x st * ssqdm_y st) in
    if divisor =? 0 then nan else clip (covxy st / divisor).

(** The lower triangle is computed and mirrored. *)
Definition corr (columns : list (list float)) : list (list float) :=
  map (fun i =>
         map (fun j =>
                let hi := Nat.max i j in
                let lo := Nat.min i j in
                nancorr_pair 1 (nth hi columns []) (nth lo columns []))
             (seq 0 (length columns)))
      (seq 0 (length columns)).

End Pandas.

(** ** R (base, dplyr, zoo) *)

Module R.

Import F64.
Local Open Scope float_scope.

Definition NA : float := nan.

(** dplyr's [first] and [last] take the value at the end of the vector
    as it is. *)
Definition first (xs : list float) : float := hd NA xs.
Definition last (xs : list float) : float := List.last xs NA.

(** [max] and [min] without [na.rm]: missing as soon as one value is. *)
Definition max (xs : list float) : float :=
  if existsb is_nan xs then NA
  else match xs with
       | [] => neg_infinity
       | v :: vs => fold_left fmax vs v
       end.

Definition min (xs : list float) : float :=
  if existsb is_nan xs then NA
  else match xs with
       | [] => infinity
       | v :: vs => fold_left fmin vs v
       end.

(** How [read.csv] types a column of whole numbers: integer when
    every value of the column fits a 32-bit integer, double otherwise. *)
Inductive vector_type : Type := integer | double.

Definition fits_integer (v : Z) : bool :=
  ((- Int.INT_MAX <=? v) && (v <=? Int.INT_MAX))%Z.

Definition type_convert (xs : list Z) : vector_type :=
  if forallb fits_integer xs then integer else double.

(** [sum] of an integer vector: accumulated exactly, [NA] with a
    warning when the total leaves the 32-bit range.  [sum] of a double
    vector: every value is the double nearest to the number read, the
    accumulator is a long double (taken with the 64-bit significand of
    x86-64, exact for whole numbers below 2^64) and the result is
    rounded to double; below 2^53 all of this is exact. *)
Definition sum (type : vector_type) (xs : list Z) : Z :=
  match type with
  | integer =>
      if existsb (Z.eqb Int.NA_integer_) xs then Int.NA_integer_
      else
        let s := Int.total xs in
        if ((Int.INT_MAX <? s) || (s <? - Int.INT_MAX))%Z then Int.NA_integer_
        else s
  | double => Int.round53 (Int.total (map Int.round53 xs))
  end.

(** [zoo::rollapply(data, width, FUN, fill, align = 'right')], on its
    general path: [FUN] applied to every full window. *)
Definition rollapply (data : list float) (width : nat)
  (FUN : list float -> float) (fill : float) : list float :=
  map (fun i =>
         if (i + 1 <? width)%nat then fill
         else FUN (slice data (i + 1 - width) (i + 1)))
      (seq 0 (length data)).

Section Library.

(** [mean] of a double vector that holds no NA.  R accumulates in long
    double and adds a correction pass, so the value is the platform's:
    it is taken as given. *)
Variable mean_of_numbers : list float -> float.

(** zoo's [rollmean(data, width, fill = NA, align = 'right')], the fast
    path that [rollapply] takes for [FUN = mean] on data without NA:
    taken as given. *)
Variable rollmean : list float -> nat -> list float.

(** [mean] without [na.rm]: missing as soon as one value is. *)
Definition mean (xs : list float) : float :=
  if existsb is_nan xs then NA else mean_of_numbers xs.

(** [zoo::rollapply(data, width, mean, fill = NA, align = 'right')] *)
Definition rollapply_mean (data : list float) (width : nat) : list float :=
  if existsb is_nan data then rollapply data width mean NA
  else rollmean data width.

End Library.

End R.

(** ** SQL *)

Module SQL.

Import F64.
Local Open Scope float_scope.

Definition NULL : float := nan.

Definition not_null (xs : list float) : list float := filter defined xs.

(** Aggregates ignore NULL and are NULL over no value. *)
Definition MAX (xs : list float) : float :=
  match not_null xs with
  | [] => NULL
  | v :: vs => fold_left fmax vs v
  end.

Definition MIN (xs : list float) : float :=
  match not_null xs with
  | [] => NULL
  | v :: vs => fold_left fmin vs v
  end.

Definition SUM (xs : list Z) : Z := Int.total xs.

Definition ABS (x : float) : float := abs x.

(** Division by zero yields NULL. *)
Definition div (x y : float) : float := if y =? 0 then NULL else x / y.

(** [ORDER BY Date] (ascending, stable). *)
Fixpoint insert_by_date (r : CalendarDate * float) (l : list (CalendarDate * float))
  : list (CalendarDate * float) :=
  match l with
  | [] => [r]
  | x :: t => if (fst r <? fst x)%Z then r :: l else x :: insert_by_date r t
  end.

Definition ORDER_BY_Date (rows : list (CalendarDate * float)) : list (CalendarDate * float) :=
  fold_right insert_by_date [] rows.

End SQL.

(** ** The notebook *)

Module Notebook.

Import F64.
Local Open Scope float_scope.

Definition agg_spec : reducers :=
  mkReducers Pandas.first Pandas.max Pandas.min Pandas.last Pandas.sum.

(** [es_daily = es_data.resample('D').agg({...})].  The conversions of
    the index to periods and back to timestamps relabel the same days. *)
Definition es_daily (es_data : list Raw.bar) : list Daily.bar :=
  Pandas.resample_D_agg agg_spec es_data.

Section Defaults.

(** The [fill_method] that [pct_change()] takes when none is given. *)
Variable fill_default : Pandas.fill_method.

(** [es_daily['Daily Return'] = es_daily['Close'].pct_change()] *)
Definition Daily_Return_column (daily : list Daily.bar) : list float :=
  Pandas.pct_change fill_default (map Daily.Close daily).

Definition with_returns (daily : list Daily.bar) : list ReturnRecord :=
  map (fun p => mkReturn (Daily.Date (fst p)) (Daily.Close (fst p)) (snd p))
      (combine daily (Daily_Return_column daily)).

End Defaults.

(** [es_daily['Close'].rolling(window=20).mean()] and its 50-day twin *)
Definition MA_20_Day (daily : list Daily.bar) : list float :=
  Pandas.rolling 20 (map Daily.Close daily).

Definition MA_50_Day (daily : list Daily.bar) : list float :=
  Pandas.rolling 50 (map Daily.Close daily).

(** [es_daily[['Open', 'High', 'Low', 'Close', 'Volume']].corr()].  The
    cell has no guard and no [raise]: whatever the frame, it returns. *)
Definition correlation_matrix (daily : list Daily.bar) : outcome (list (list float)) :=
  Returned
    (Pandas.corr
       [map Daily.Open daily; map Daily.High daily; map Daily.Low daily;
        map Daily.Close daily; map (fun b => of_Z (Daily.Volume b)) daily]).

(** [es_daily[es_daily['Daily Return'].abs() > 0.02]] *)
Definition significant_changes (records : list ReturnRecord) : list ReturnRecord :=
  filter (fun r => 0.02 <? abs (Daily_Return r)) records.

(** [es_close = es_daily['Close'].dropna()] *)
Definition es_close (daily : list Daily.bar) : list float :=
  Pandas.dropna (map Daily.Close daily).

Section Forecaster.

(** statsmodels' ARIMA is a collaborator outside the repository: the
    fitted model is an abstract value, fitting may raise, and a fitted
    model gives a point forecast at every zero-based position. *)
Variable ARIMAResults : Type.
Variable ARIMA_fit : list float -> nat * nat * nat -> outcome ARIMAResults.
Variable point_forecast : ARIMAResults -> Z -> float.

(** [predict(start, end, dynamic=True)]: the positions from [start] to
    [end], the last one included, each with its forecast. *)
Definition predict (res : ARIMAResults) (start end_ : Z) : list (Z * float) :=
  map (fun t => (t, point_forecast res t)) (inclusive_range start end_).

(** [ARIMA(es_close, order=(5, 1, 0)).fit()] followed by
    [predict(start=len(es_close), end=len(es_close) + 30, dynamic=True)].
    The result is the series that [predict] returns; its assignment to a
    column of the frame, for plotting, is not modelled. *)
Definition Forecast (daily : list Daily.bar) : outcome (list (Z * float)) :=
  let closes := es_close daily in
  match ARIMA_fit closes (5, 1, 0)%nat with
  | Returned arima_result =>
      let n := Z.of_nat (length closes) in
      Returned (predict arima_result n (n + 30))
  | Raised e => Raised e
  end.

End Forecaster.

End Notebook.

(** ** The SQL script *)

Module SqlScript.

Import F64.
Local Open Scope float_scope.

(** [SELECT DATE(Time), MIN(Open), MAX(High), MIN(Low), MAX(Close),
    SUM(Volume) FROM es_data GROUP BY DATE(Time)] *)
Definition select_list : reducers :=
  mkReducers SQL.MIN SQL.MAX SQL.MIN SQL.MAX SQL.SUM.

Definition daily_aggregation (es_data : list Raw.bar) : list Daily.bar :=
  aggregate select_list (distinct_dates (map Raw.Date es_data)) es_data.

(** The subquery [daily_close]: [DATE(Time) as Date, MAX(Close) as Close]. *)
Definition date_and_close (daily : list Daily.bar) : list (CalendarDate * float) :=
  map (fun b => (Daily.Date b, Daily.Close b)) daily.

Definition daily_close (es_data : list Raw.bar) : list (CalendarDate * float) :=
  date_and_close (daily_aggregation es_data).

(** [LAG(Close, 1) OVER (ORDER BY Date) AS Prev_Close] *)
Definition Prev_Close (daily_close : list (CalendarDate * float)) : list float :=
  lag (map snd (SQL.ORDER_BY_Date daily_close)).

(** [(Close - LAG(Close, 1) OVER (ORDER BY Date)) / LAG(Close, 1) OVER
    (ORDER BY Date) AS Daily_Return], over the rows in window order. *)
Definition returns (daily_close : list (CalendarDate * float)) : list ReturnRecord :=
  map (fun p =>
         let row := fst p in
         let prev := snd p in
         mkReturn (fst row) (snd row) (SQL.div (snd row - prev) prev))
      (combine (SQL.ORDER_BY_Date daily_close) (Prev_Close daily_close)).

(** [WHERE ABS(Daily_Return) > 0.02] *)
Definition significant_changes (returns : list ReturnRecord) : list ReturnRecord :=
  filter (fun r => 0.02 <? SQL.ABS (Daily_Return r)) returns.

(** The third query whole: the significant days of [es_data]. *)
Definition significant_days (es_data : list Raw.bar) : list ReturnRecord :=
  significant_changes (returns (daily_close es_data)).

End SqlScript.

(** ** The R script *)

Module RScript.

(** The arguments of [summarise]; the sum is that of the type that
    [read.csv] gave the Volume column. *)
Definition summarise_spec (Volume_type : R.vector_type) : reducers :=
  mkReducers R.first R.max R.min R.last (R.sum Volume_type).

(** [es_data %>% mutate(Date = as.Date(Time)) %>% group_by(Date) %>%
    summarise(...)] *)
Definition es_daily (es_data : list Raw.bar) : list Daily.bar :=
  aggregate (summarise_spec (R.type_convert (map Raw.Volume es_data)))
    (distinct_dates (map Raw.Date es_data)) es_data.

Section Library.

Variable mean_of_numbers : list float -> float.
Variable rollmean : list float -> nat -> list float.

(** [zoo::rollapply(Close, 20, mean, fill = NA, align = 'right')] *)
Definition MA_20_Day (daily : list Daily.bar) : list float :=
  R.rollapply_mean mean_of_numbers rollmean (map Daily.Close daily) 20.

Definition MA_50_Day (daily : list Daily.bar) : list float :=
  R.rollapply_mean mean_of_numbers rollmean (map Daily.Close daily) 50.

End Library.

End RScript.

(** ** Vocabulary of the claims *)

Module Spec.

Import F64.
Local Open Scope float_scope.

Definition all_defined (xs : list float) : Prop :=
  Forall (fun x => defined x = true) xs.

(** A value is the maximum (minimum) of a column when it occurs in it
    and bounds it. *)
Definition is_maximum (h : float) (xs : list float) : Prop :=
  In h xs /\ forall x, In x xs -> (x <=? h) = true.

Definition is_minimum (l : float) (xs : list float) : Prop :=
  In l xs /\ forall x, In x xs -> (l <=? x) = true.

(** The invariant of market data: the high bounds open and close from
    above, the low from below. *)
Definition well_formed (b : Raw.bar) : bool :=
  (Raw.Open b <=? Raw.High b) && (Raw.Close b <=? Raw.High b) &&
  (Raw.Low b <=? Raw.Open b) && (Raw.Low b <=? Raw.Close b).

(** The daily bar that the data model assigns to the bars [g] of one
    date: open of the first, highest high, lowest low, close of the
    last, total volume. *)
Definition daily_bar_of (g : list Raw.bar) (bar : Daily.bar) : Prop :=
  hd_error (map Raw.Open g) = Some (Daily.Open bar) /\
  is_maximum (Daily.High bar) (map Raw.High g) /\
  is_minimum (Daily.Low bar) (map Raw.Low g) /\
  hd_error (rev (map Raw.Close g)) = Some (Daily.Close bar) /\
  Daily.Volume bar = Int.total (map Raw.Volume g).

(** Reducers that bound the column of a group whose values are all
    present: the high from above, the low from below. *)
Definition bounds_above (f : list float -> float) : Prop :=
  forall xs x, all_defined xs -> In x xs -> (x <=? f xs) = true.

Definition bounds_below (f : list float -> float) : Prop :=
  forall xs x, all_defined xs -> In x xs -> (f xs <=? x) = true.

Definition prices_defined (b : Raw.bar) : bool :=
  defined (Raw.Open b) && defined (Raw.High b) &&
  defined (Raw.Low b) && defined (Raw.Close b).

(** The [w] daily bars that end at the record of index [i]. *)
Definition trailing (w i : nat) (daily : list Daily.bar) : list Daily.bar :=
  firstn w (skipn (i + 1 - w) daily).

(** A value that a window function counts: one that is not NaN. *)
Definition present (v : float) : bool := v =? v.

(** The number of values present among the rows [s, e) of a column. *)
Definition count (values : list float) (s e : nat) : nat :=
  length (filter present (Pandas.RollMean.values_in values s e)).

(** [v] is exactly the arithmetic mean of [xs]: all are finite numbers
    and, as real numbers, [v] times the length of [xs] is the sum of
    [xs]. *)
Definition total_units (xs : list float) : option Z :=
  fold_right
    (fun x acc =>
       match units x, acc with
       | Some u, Some a => Some (u + a)%Z
       | _, _ => None
       end)
    (Some 0%Z) xs.

Definition is_exact_mean (v : float) (xs : list float) : bool :=
  match units v, total_units xs with
  | Some u, Some t => (Z.of_nat (length xs) * u =? t)%Z
  | _, _ => false
  end.

(** A price on the grid of quarter points: a positive multiple of 0.25
    below 2^44.  Up to 64 such prices add up without rounding in
    binary64, in any order. *)
Definition on_quarter_grid (x : float) : bool :=
  match units x with
  | Some u => ((0 <? u) && (u mod 2 ^ 1072 =? 0) && (u <? 2 ^ 1118))%Z
  | None => false
  end.

(** The sum, in units of 2^-1074, of the values of [xs] that are
    numbers. *)
Definition present_total (xs : list float) : Z :=
  Int.total (map (fun v => match units v with Some u => u | None => 0%Z end) xs).

(** [v] is the arithmetic mean of [xs] rounded to binary64: the sum of
    [xs] as real numbers is a binary64 number, and [v] is its quotient
    by the number of values in binary64 division (which rounds the real
    quotient to the nearest binary64, ties to even). *)
Definition is_rounded_mean (v : float) (xs : list float) : Prop :=
  exists s u, total_units xs = Some u /\ units s = Some u /\
              v = s / of_nat (length xs).

(** The volume traded on one date. *)
Definition volume_on (d : CalendarDate) (rows : list Raw.bar) : Z :=
  Int.total (map Raw.Volume (on_date d rows)).

End Spec.

(** ** Sample inputs *)

Module Sample.

Local Open Scope float_scope.

Definition bar_at (t : Timestamp) (v : Z) : Raw.bar :=
  Raw.mk t 100 101 99 100 v.

(** One date, two bars: the second opens lower and closes lower. *)
Definition one_day_two_bars : list Raw.bar :=
  [Raw.mk 570 100 101 99 100.5 10; Raw.mk 571 99.5 102 99 100 20].

Definition day_closing (d : CalendarDate) (c : float) : Daily.bar :=
  Daily.mk d c c c c 1.

(** Two bars two days apart: 09:30 on day 0 and 09:30 on day 2. *)
Definition two_days_apart : list Raw.bar :=
  [bar_at 570 10; bar_at 3450 20].

Definition up_three_percent : list Daily.bar :=
  [day_closing 0 100; day_closing 1 103].

Definition up_one_percent : list Daily.bar :=
  [day_closing 0 100; day_closing 1 101].

(** Twenty-one consecutive days closing at 1, 2, ..., 21. *)
Definition three_weeks : list Daily.bar :=
  map (fun k => day_closing (Z.of_nat k) (F64.of_nat (S k))) (seq 0 21).

(** Twenty consecutive days closing at 0.1, 0.2, ..., 2.0. *)
Definition tenths : list Daily.bar :=
  map (fun p => day_closing (Z.of_nat (fst p)) (snd p))
      (combine (seq 0 20)
         [0.1; 0.2; 0.3; 0.4; 0.5; 0.6; 0.7; 0.8; 0.9; 1.0;
          1.1; 1.2; 1.3; 1.4; 1.5; 1.6; 1.7; 1.8; 1.9; 2.0]).

(** Twenty-one consecutive days closing at 100. *)
Definition flat_weeks : list Daily.bar :=
  map (fun k => day_closing (Z.of_nat k) 100) (seq 0 21).

End Sample.

(** ** Further vocabulary *)

From Stdlib Require Import Permutation.

Module More.

Import F64 Spec.
Local Open Scope float_scope.

(** The invariant of market data, read on a daily bar. *)
Definition well_formed_daily (b : Daily.bar) : bool :=
  (Daily.Open b <=? Daily.High b) && (Daily.Close b <=? Daily.High b) &&
  (Daily.Low b <=? Daily.Open b) && (Daily.Low b <=? Daily.Close b).

(** A reducer picks its value among the values of the group. *)
Definition picks (f : list float -> float) : Prop :=
  forall xs, xs <> [] -> all_defined xs -> In (f xs) xs.

(** Whether some bar of the input falls on the date. *)
Definition has_bars (es_data : list Raw.bar) (d : CalendarDate) : bool :=
  existsb (fun r => (Raw.Date r =? d)%Z) es_data.

(** A bar seen as the daily bar of its own date. *)
Definition as_daily (b : Raw.bar) : Daily.bar :=
  Daily.mk (Raw.Date b) (Raw.Open b) (Raw.High b) (Raw.Low b) (Raw.Close b)
    (Raw.Volume b).

(** The columns of the daily frame that enter the correlation, by
    position: Open, High, Low, Close, Volume. *)
Definition column (k : nat) (b : Daily.bar) : float :=
  match k with
  | 0%nat => Daily.Open b
  | 1%nat => Daily.High b
  | 2%nat => Daily.Low b
  | 3%nat => Daily.Close b
  | _ => of_Z (Daily.Volume b)
  end.

End More.

(** ** Further concrete inputs *)

Module Examples.

(** One bar at 09:30 on each of the days 0 to 25, except day 5. *)
Definition month_with_a_gap : list Raw.bar :=
  map (fun k => Sample.bar_at (Z.of_nat k * 1440 + 570) 10)
      (seq 0 5 ++ seq 6 20).

(** Bars on the days 0, 2 and 3, none on day 1. *)
Definition rising_with_a_gap : list Raw.bar :=
  [Raw.mk 570 100 101 99 100 10; Raw.mk 3450 100 104 100 103 30;
   Raw.mk 4890 103 103 100 101 20]%float.

End Examples.

(** The index of the notebook's daily frame.  [resample('D')] labels a
    bin with its left edge, the midnight that opens the day;
    [to_period('D')] turns a timestamp into the day it falls in, and
    [to_timestamp()] turns a day back into the midnight that opens it. *)
Module Index.

Local Open Scope Z_scope.

Definition bin_label (d : CalendarDate) : Timestamp := d * 1440.

Definition to_period_D (t : Timestamp) : CalendarDate := DATE t.

Definition to_timestamp (p : CalendarDate) : Timestamp := p * 1440.

(** The index after [resample('D')]. *)
Definition resampled (es_data : list Raw.bar) : list Timestamp :=
  map bin_label (Pandas.resample_D es_data).

End Index.

Module Plots.

Import F64.
Local Open Scope float_scope.

(** [es_daily['Daily Return'].dropna()], the data handed to the
    histogram of the daily returns. *)
Definition histogram_data (records : list ReturnRecord) : list float :=
  Pandas.dropna (map Daily_Return records).

End Plots.

(** ** Facts about binary64 comparison and NaN *)

Section FloatFacts.

Import F64 Spec.
Local Open Scope float_scope.

Lemma Prim2SF_nan : Prim2SF nan = S754_nan.
Proof. reflexivity. Qed.

Lemma is_nan_SF (x : float) : is_nan x = true <-> Prim2SF x = S754_nan.
Proof.
  unfold is_nan. rewrite eqb_spec. unfold SFeqb.
  destruct (Prim2SF x) as [s|s| |s m e]; simpl.
  - split; discriminate.
  - destruct s; simpl; split; discriminate.
  - split; reflexivity.
  - destruct s; rewrite Z.compare_refl, Pos.compare_cont_refl; simpl;
      split; discriminate.
Qed.

Lemma is_nan_eq (x : float) : is_nan x = true -> x = nan.
Proof.
  intro H. apply Prim2SF_inj. rewrite Prim2SF_nan. now apply is_nan_SF.
Qed.

Lemma defined_SF (x : float) : defined x = true <-> Prim2SF x <> S754_nan.
Proof.
  unfold defined. rewrite negb_true_iff.
  split.
  - intros H E. apply is_nan_SF in E. congruence.
  - intro H. destruct (is_nan x) eqn:E; [|reflexivity].
    apply is_nan_SF in E. contradiction.
Qed.

Lemma defined_nan : defined nan = false.
Proof. reflexivity. Qed.

(** Comparisons on specification floats form a total preorder away
    from NaN. *)

Ltac cmp_cases :=
  change (Pos.compare_cont Eq) with Pos.compare in *;
  repeat match goal with
    | |- context [(?a ?= ?b)%Z] => destruct (Z.compare_spec a b)
    | |- context [(?a ?= ?b)%positive] => destruct (Pos.compare_spec a b)
    end.

Lemma SFleb_trans (x y z : spec_float) :
  SFleb x y = true -> SFleb y z = true -> SFleb x z = true.
Proof.
  unfold SFleb.
  destruct x as [sx|sx| |sx mx ex]; destruct y as [sy|sy| |sy my ey];
  destruct z as [sz|sz| |sz mz ez]; simpl; try discriminate;
  try (destruct sx); try (destruct sy); try (destruct sz); simpl;
  try discriminate; try reflexivity;
  cmp_cases; simpl; subst; try discriminate; try reflexivity; try lia.
Qed.

Lemma SFleb_total (x y : spec_float) :
  x <> S754_nan -> y <> S754_nan -> SFltb x y = false -> SFleb y x = true.
Proof.
  unfold SFleb, SFltb.
  destruct x as [sx|sx| |sx mx ex]; destruct y as [sy|sy| |sy my ey];
  simpl; try (intros; contradiction); intros _ _; 
  try (destruct sx); try (destruct sy); simpl;
  try discriminate; try reflexivity;
  cmp_cases; simpl; subst; try discriminate; try reflexivity; try lia.
Qed.

Lemma SFltb_leb (x y : spec_float) : SFltb x y = true -> SFleb x y = true.
Proof. unfold SFltb, SFleb. destruct (SFcompare x y) as [[| |]|]; easy. Qed.

Lemma SFleb_refl (x : spec_float) : x <> S754_nan -> SFleb x x = true.
Proof.
  unfold SFleb.
  destruct x as [sx|sx| |sx mx ex]; intro H; try contradiction; simpl;
  try destruct sx; try reflexivity; change (Pos.compare_cont Eq) with Pos.compare;
   now rewrite Z.compare_refl, Pos.compare_refl.
Qed.
Lemma SFleb_defined (x y : spec_float) : SFleb x y = true -> x <> S754_nan /\ y <> S754_nan.
Proof.
  unfold SFleb. destruct x, y; simpl; try discriminate; intros; split; discriminate.
Qed.
Lemma SFltb_defined (x y : spec_float) : SFltb x y = true -> x <> S754_nan /\ y <> S754_nan.
Proof.
  unfold SFltb. destruct x, y; simpl; try discriminate; intros; split; discriminate.
Qed.

Lemma leb_defined (x y : float) : (x <=? y) = true -> defined x = true /\ defined y = true.
Proof.
  rewrite leb_spec. intro H. apply SFleb_defined in H.
  split; apply defined_SF; tauto.
Qed.

Lemma ltb_defined (x y : float) : (x <? y) = true -> defined x = true /\ defined y = true.
Proof.
  rewrite ltb_spec. intro H. apply SFltb_defined in H.
  split; apply defined_SF; tauto.
Qed.

Lemma leb_refl (x : float) : defined x = true -> (x <=? x) = true.
Proof. rewrite leb_spec, defined_SF. apply SFleb_refl. Qed.

Lemma leb_trans (x y z : float) :
  (x <=? y) = true -> (y <=? z) = true -> (x <=? z) = true.
Proof. rewrite !leb_spec. apply SFleb_trans. Qed.

Lemma ltb_leb (x y : float) : (x <? y) = true -> (x <=? y) = true.
Proof. rewrite ltb_spec, leb_spec. apply SFltb_leb. Qed.

Lemma not_ltb_leb (x y : float) :
  defined x = true -> defined y = true -> (x <? y) = false -> (y <=? x) = true.
Proof. rewrite ltb_spec, leb_spec, !defined_SF. apply SFleb_total. Qed.

Lemma neg_infinity_least (x : float) : defined x = true -> (neg_infinity <=? x) = true.
Proof.
  rewrite leb_spec, defined_SF. change (Prim2SF neg_infinity) with (S754_infinity true).
  destruct (Prim2SF x) as [s|s| |s m e]; try easy. now destruct s.
Qed.

Lemma infinity_greatest (x : float) : defined x = true -> (x <=? infinity) = true.
Proof.
  rewrite leb_spec, defined_SF. change (Prim2SF infinity) with (S754_infinity false).
  destruct (Prim2SF x) as [s|s| |s m e]; try easy; now destruct s.
Qed.

Lemma abs_defined (x : float) : defined (abs x) = defined x.
Proof.
  apply eq_true_iff_eq. rewrite !defined_SF, abs_spec.
  destruct (Prim2SF x); simpl; split; congruence.
Qed.

(** NaN propagates through the arithmetic. *)
Lemma add_nan_l (x : float) : nan + x = nan.
Proof. apply Prim2SF_inj. rewrite add_spec. reflexivity. Qed.

Lemma add_nan_r (x : float) : x + nan = nan.
Proof.
  apply Prim2SF_inj. rewrite add_spec. change (Prim2SF nan) with S754_nan.
  unfold SF64add, SFadd. now destruct (Prim2SF x).
Qed.
Lemma sub_nan_l (x : float) : nan - x = nan.
Proof. apply Prim2SF_inj. rewrite sub_spec. reflexivity. Qed.
Lemma sub_nan_r (x : float) : x - nan = nan.
Proof.
  apply Prim2SF_inj. rewrite sub_spec. change (Prim2SF nan) with S754_nan.
  unfold SF64sub, SFsub. now destruct (Prim2SF x).
Qed.
Lemma div_nan_l (x : float) : nan / x = nan.
Proof. apply Prim2SF_inj. rewrite div_spec. reflexivity. Qed.
Lemma div_nan_r (x : float) : x / nan = nan.
Proof.
  apply Prim2SF_inj. rewrite div_spec. change (Prim2SF nan) with S754_nan.
  unfold SF64div, SFdiv. now destruct (Prim2SF x).
Qed.

Lemma le_neg_infinity (x : float) : (x <=? neg_infinity) = true -> x = neg_infinity.
Proof.
  rewrite leb_spec. change (Prim2SF neg_infinity) with (S754_infinity true).
  intro H. rewrite <- (SF2Prim_Prim2SF x).
  destruct (Prim2SF x) as [s|s| |s m e]; try discriminate; destruct s; try discriminate.
  reflexivity.
Qed.

Lemma ge_infinity (x : float) : (infinity <=? x) = true -> x = infinity.
Proof.
  rewrite leb_spec. change (Prim2SF infinity) with (S754_infinity false).
  intro H. rewrite <- (SF2Prim_Prim2SF x).
  destruct (Prim2SF x) as [s|s| |s m e]; try discriminate; destruct s; try discriminate.
  reflexivity.
Qed.

Lemma fmax_cases (m v : float) : fmax m v = m \/ fmax m v = v.
Proof. unfold fmax. destruct (m <? v); auto. Qed.

Lemma fmin_cases (m v : float) : fmin m v = m \/ fmin m v = v.
Proof. unfold fmin. destruct (v <? m); auto. Qed.

Lemma fmax_upper (m v : float) :
  defined m = true -> defined v = true ->
  (m <=? fmax m v) = true /\ (v <=? fmax m v) = true.
Proof.
  intros Hm Hv. unfold fmax. destruct (m <? v) eqn:E.
  - split; [now apply ltb_leb | now apply leb_refl].
  - split; [now apply leb_refl | now apply not_ltb_leb].
Qed.

Lemma fmin_lower (m v : float) :
  defined m = true -> defined v = true ->
  (fmin m v <=? m) = true /\ (fmin m v <=? v) = true.
Proof.
  intros Hm Hv. unfold fmin. destruct (v <? m) eqn:E.
  - split; [now apply ltb_leb | now apply leb_refl].
  - split; [now apply leb_refl | now apply not_ltb_leb].
Qed.

Lemma fmax_defined (m v : float) :
  defined m = true -> defined v = true -> defined (fmax m v) = true.
Proof. intros. destruct (fmax_cases m v) as [-> | ->]; assumption. Qed.

Lemma fmin_defined (m v : float) :
  defined m = true -> defined v = true -> defined (fmin m v) = true.
Proof. intros. destruct (fmin_cases m v) as [-> | ->]; assumption. Qed.

Lemma fold_fmax_spec (vals : list float) : forall acc,
  all_defined vals -> defined acc = true ->
  let r := fold_left fmax vals acc in
  defined r = true /\ (acc <=? r) = true /\
  (forall x, In x vals -> (x <=? r) = true) /\ (r = acc \/ In r vals).
Proof.
  induction vals as [|v vs IH]; intros acc Hd Ha; simpl.
  - repeat split; auto using leb_refl; intros x [].
  - inversion Hd as [|? ? Hv Hvs]; subst.
    destruct (IH (fmax acc v) Hvs (fmax_defined _ _ Ha Hv)) as (Hr & Hle & Hall & Hin).
    destruct (fmax_upper acc v Ha Hv) as [H1 H2].
    repeat split.
    + exact Hr.
    + eapply leb_trans; eassumption.
    + intros x [<- | Hx]; [eapply leb_trans; eassumption | now apply Hall].
    + destruct Hin as [-> | Hin]; [|now auto].
      destruct (fmax_cases acc v) as [E | E]; rewrite E; auto.
Qed.

Lemma fold_fmin_spec (vals : list float) : forall acc,
  all_defined vals -> defined acc = true ->
  let r := fold_left fmin vals acc in
  defined r = true /\ (r <=? acc) = true /\
  (forall x, In x vals -> (r <=? x) = true) /\ (r = acc \/ In r vals).
Proof.
  induction vals as [|v vs IH]; intros acc Hd Ha; simpl.
  - repeat split; auto using leb_refl; intros x [].
  - inversion Hd as [|? ? Hv Hvs]; subst.
    destruct (IH (fmin acc v) Hvs (fmin_defined _ _ Ha Hv)) as (Hr & Hle & Hall & Hin).
    destruct (fmin_lower acc v Ha Hv) as [H1 H2].
    repeat split.
    + exact Hr.
    + eapply leb_trans; eassumption.
    + intros x [<- | Hx]; [eapply leb_trans; eassumption | now apply Hall].
    + destruct Hin as [-> | Hin]; [|now auto].
      destruct (fmin_cases acc v) as [E | E]; rewrite E; auto.
Qed.

Lemma filter_id {A} (f : A -> bool) (l : list A) :
  Forall (fun x => f x = true) l -> filter f l = l.
Proof.
  induction 1 as [|x l Hx _ IH]; simpl; [reflexivity|]. now rewrite Hx, IH.
Qed.

Lemma dropna_defined (xs : list float) : all_defined xs -> Pandas.dropna xs = xs.
Proof. apply filter_id. Qed.

Lemma existsb_nan_defined (xs : list float) : all_defined xs -> existsb is_nan xs = false.
Proof.
  induction 1 as [|x l Hx _ IH]; simpl; [reflexivity|].
  unfold defined in Hx. apply negb_true_iff in Hx. now rewrite Hx, IH.
Qed.

Lemma pandas_max_is_maximum (xs : list float) :
  xs <> [] -> all_defined xs -> is_maximum (Pandas.max xs) xs.
Proof.
  intros Hne Hd. unfold Pandas.max. rewrite (dropna_defined _ Hd).
  destruct xs as [|v vs]; [contradiction|].
  destruct (fold_fmax_spec _ neg_infinity Hd eq_refl) as (_ & _ & Hall & Hin).
  split; [|exact Hall].
  destruct Hin as [E | Hin]; [|exact Hin].
  left. specialize (Hall v (or_introl eq_refl)). rewrite E in Hall |- *.
  now apply le_neg_infinity in Hall.
Qed.

Lemma pandas_min_is_minimum (xs : list float) :
  xs <> [] -> all_defined xs -> is_minimum (Pandas.min xs) xs.
Proof.
  intros Hne Hd. unfold Pandas.min. rewrite (dropna_defined _ Hd).
  destruct xs as [|v vs]; [contradiction|].
  destruct (fold_fmin_spec _ infinity Hd eq_refl) as (_ & _ & Hall & Hin).
  split; [|exact Hall].
  destruct Hin as [E | Hin]; [|exact Hin].
  left. specialize (Hall v (or_introl eq_refl)). rewrite E in Hall |- *.
  now apply ge_infinity in Hall.
Qed.

Lemma from_head_max_is_maximum (v : float) (vs : list float) :
  all_defined (v :: vs) -> is_maximum (fold_left fmax vs v) (v :: vs).
Proof.
  intro Hd. inversion Hd as [|? ? Hv Hvs]; subst.
  destruct (fold_fmax_spec _ v Hvs Hv) as (_ & Hle & Hall & Hin).
  split.
  - destruct Hin as [-> | Hin]; [now left | now right].
  - intros x [<- | Hx]; auto.
Qed.

Lemma from_head_min_is_minimum (v : float) (vs : list float) :
  all_defined (v :: vs) -> is_minimum (fold_left fmin vs v) (v :: vs).
Proof.
  intro Hd. inversion Hd as [|? ? Hv Hvs]; subst.
  destruct (fold_fmin_spec _ v Hvs Hv) as (_ & Hle & Hall & Hin).
  split.
  - destruct Hin as [-> | Hin]; [now left | now right].
  - intros x [<- | Hx]; auto.
Qed.

Lemma sql_MAX_is_maximum (xs : list float) :
  xs <> [] -> all_defined xs -> is_maximum (SQL.MAX xs) xs.
Proof.
  intros Hne Hd. unfold SQL.MAX, SQL.not_null. rewrite (filter_id _ _ Hd).
  destruct xs as [|v vs]; [contradiction|]. now apply from_head_max_is_maximum.
Qed.

Lemma sql_MIN_is_minimum (xs : list float) :
  xs <> [] -> all_defined xs -> is_minimum (SQL.MIN xs) xs.
Proof.
  intros Hne Hd. unfold SQL.MIN, SQL.not_null. rewrite (filter_id _ _ Hd).
  destruct xs as [|v vs]; [contradiction|]. now apply from_head_min_is_minimum.
Qed.

Lemma r_max_is_maximum (xs : list float) :
  xs <> [] -> all_defined xs -> is_maximum (R.max xs) xs.
Proof.
  intros Hne Hd. unfold R.max. rewrite (existsb_nan_defined _ Hd).
  destruct xs as [|v vs]; [contradiction|]. now apply from_head_max_is_maximum.
Qed.

Lemma r_min_is_minimum (xs : list float) :
  xs <> [] -> all_defined xs -> is_minimum (R.min xs) xs.
Proof.
  intros Hne Hd. unfold R.min. rewrite (existsb_nan_defined _ Hd).
  destruct xs as [|v vs]; [contradiction|]. now apply from_head_min_is_minimum.
Qed.

End FloatFacts.

(** ** Facts about exact binary64 sums

    A sum or difference of two binary64 numbers is computed without
    rounding when the result fits in 53 bits above a common grid. *)

Section ExactFacts.

Import F64 Spec.
Local Open Scope Z_scope.

Lemma digits2_pos_bounds (m : positive) :
  2 ^ (Z.pos (digits2_pos m) - 1) <= Z.pos m < 2 ^ Z.pos (digits2_pos m).
Proof.
  induction m as [p IH|p IH|]; simpl digits2_pos.
  - rewrite Pos2Z.inj_succ, Z.pow_succ_r by lia.
    replace (Z.succ (Z.pos (digits2_pos p)) - 1) with (Z.succ (Z.pos (digits2_pos p) - 1)) by lia.
    rewrite Z.pow_succ_r by lia. lia.
  - rewrite Pos2Z.inj_succ, Z.pow_succ_r by lia.
    replace (Z.succ (Z.pos (digits2_pos p)) - 1) with (Z.succ (Z.pos (digits2_pos p) - 1)) by lia.
    rewrite Z.pow_succ_r by lia. lia.
  - simpl. lia.
Qed.

Lemma iter_pos_iter {A} (f : A -> A) (p : positive) : forall x,
  iter_pos f p x = Pos.iter f x p.
Proof.
  induction p as [p IH|p IH|]; intro x; simpl.
  - rewrite !IH. rewrite <- !Pos.iter_swap. reflexivity.
  - rewrite !IH. reflexivity.
  - reflexivity.
Qed.

Lemma iter_xO_value (m p : positive) :
  Z.pos (Pos.iter xO m p) = Z.pos m * 2 ^ Z.pos p.
Proof.
  induction p as [|p IH] using Pos.peano_ind.
  - simpl. lia.
  - rewrite Pos.iter_succ, Pos2Z.inj_succ, Z.pow_succ_r by lia.
    rewrite Pos2Z.inj_xO, IH. lia.
Qed.

Lemma digits2_iter_xO (m p : positive) :
  Z.pos (digits2_pos (Pos.iter xO m p)) = Z.pos (digits2_pos m) + Z.pos p.
Proof.
  induction p as [|p IH] using Pos.peano_ind.
  - simpl. lia.
  - rewrite Pos.iter_succ. simpl digits2_pos. lia.
Qed.

Lemma shr_zero_bits (p m : positive) :
  iter_pos shr_1 p (Build_shr_record (Z.pos (Pos.iter xO m p)) false false)
  = Build_shr_record (Z.pos m) false false.
Proof.
  rewrite iter_pos_iter.
  induction p as [|p IH] using Pos.peano_ind.
  - reflexivity.
  - rewrite Pos.iter_succ_r. rewrite Pos.iter_succ. simpl shr_1. exact IH.
Qed.

Lemma fexp_binary64 (e : Z) : fexp prec emax e = Z.max (e - 53) (-1074).
Proof. reflexivity. Qed.

Lemma binary_round_aux_canonical (s : bool) (m : positive) (e : Z) :
  fexp prec emax (Z.pos (digits2_pos m) + e) = e -> e <= 971 ->
  binary_round_aux prec emax s (Z.pos m) e loc_Exact = S754_finite s m e.
Proof.
  intros Hc He. unfold binary_round_aux, shr_fexp.
  cbn [Zdigits2]. rewrite Hc, Z.sub_diag.
  cbn [shr shr_record_of_loc shr_m loc_of_shr_record round_nearest_even Zdigits2].
  rewrite Hc, Z.sub_diag.
  cbn [shr shr_record_of_loc shr_m].
  replace (e <=? emax - prec) with true; [reflexivity|].
  symmetry. apply Z.leb_le. exact He.
Qed.

Lemma binary_round_exact (s : bool) (m : positive) (e g : Z) :
  -1074 <= e -> 0 <= g <= 2045 ->
  (2 ^ g | Z.pos m * 2 ^ (e + 1074)) ->
  Z.pos m * 2 ^ (e + 1074) < 2 ^ (g + 53) ->
  exists m' e', binary_round prec emax s m e = S754_finite s m' e' /\
    Z.pos m' * 2 ^ (e' + 1074) = Z.pos m * 2 ^ (e + 1074).
Proof.
  intros He Hg Hdiv Hlt.
  pose proof (digits2_pos_bounds m) as Hd.
  set (d := Z.pos (digits2_pos m)) in *.
  assert (Hde : d + e + 1073 < g + 53).
  { apply (Z.pow_lt_mono_r_iff 2); [lia|lia|].
    replace (d + e + 1073) with ((d - 1) + (e + 1074)) by lia.
    rewrite Z.pow_add_r by lia.
    eapply Z.le_lt_trans; [|exact Hlt].
    apply Z.mul_le_mono_nonneg_r; [apply Z.pow_nonneg; lia | lia]. }
  unfold binary_round. fold d. rewrite fexp_binary64.
  destruct (Z_le_gt_dec (Z.max (d + e - 53) (-1074)) e) as [Hfe|Hfe].
  - (* shift left: the mantissa has at most 53 bits *)
    set (fe := Z.max (d + e - 53) (-1074)) in *.
    unfold shl_align.
    destruct (fe - e) as [|k|k] eqn:Hk; try lia.
    + assert (fe = e) by lia.
      exists m, e. split; [|reflexivity].
      apply binary_round_aux_canonical; [rewrite fexp_binary64; fold d; lia | lia].
    + exists (Pos.iter xO m k), fe. split.
      * apply binary_round_aux_canonical; [|unfold fe; lia].
        rewrite fexp_binary64, digits2_iter_xO. fold d.
        replace (d + Z.pos k + fe - 53) with (d + e - 53) by lia. reflexivity.
      * rewrite iter_xO_value. rewrite <- Z.mul_assoc, <- Z.pow_add_r by (unfold fe; lia).
        f_equal. f_equal. lia.
  - (* shift right: the bits shifted out are zero *)
    assert (Hfe' : Z.max (d + e - 53) (-1074) = d + e - 53) by lia.
    rewrite Hfe' in *.
    assert (Hn : 0 < d - 53) by lia.
    assert (Hm : (2 ^ (d - 53) | Z.pos m)).
    { destruct Hdiv as [q Hq].
      exists (q * 2 ^ (g - (e + 1074) - (d - 53))).
      assert (Hq' : Z.pos m * 2 ^ (e + 1074) = q * 2 ^ (g - (e + 1074)) * 2 ^ (e + 1074)).
      { rewrite <- Z.mul_assoc, <- Z.pow_add_r by lia.
        replace (g - (e + 1074) + (e + 1074)) with g by lia. exact Hq. }
      apply Z.mul_cancel_r in Hq'; [|apply Z.pow_nonzero; lia].
      rewrite Hq', <- Z.mul_assoc, <- Z.pow_add_r by lia.
      f_equal. f_equal. lia. }
    destruct Hm as [q Hq].
    assert (Hqp : 0 < q).
    { assert (0 < 2 ^ (d - 53)) by (apply Z.pow_pos_nonneg; lia). nia. }
    destruct q as [|m'|m']; try lia.
    destruct (d - 53) as [|n|n] eqn:En; try lia.
    assert (Em : m = Pos.iter xO m' n).
    { apply Pos2Z.inj. rewrite iter_xO_value. exact Hq. }
    exists m', (d + e - 53). split.
    + assert (Hs : iter_pos shr_1 n (Build_shr_record (Z.pos m) false false)
                   = Build_shr_record (Z.pos m') false false).
      { rewrite Em at 1. apply shr_zero_bits. }
      assert (Hd' : Z.pos (digits2_pos m') = 53).
      { pose proof (digits2_iter_xO m' n) as H. rewrite <- Em in H. fold d in H. lia. }
      unfold shl_align.
      replace (d + e - 53 - e) with (Z.pos n) by lia.
      unfold binary_round_aux, shr_fexp.
      change (Zdigits2 (Z.pos m)) with d. rewrite fexp_binary64, Hfe'.
      replace (d + e - 53 - e) with (Z.pos n) by lia.
      clearbody d.
      cbn [shr_record_of_loc]. unfold shr at 1.
      rewrite !Hs.
      cbn [loc_of_shr_record round_nearest_even shr_m Zdigits2].
      rewrite Hd', fexp_binary64.
      replace (Z.max (53 + (e + Z.pos n) - 53) (-1074) - (e + Z.pos n)) with 0 by lia.
      unfold shr. cbv beta iota delta [shr_m].
      match goal with |- (if ?c then _ else _) = _ => replace c with true end.
      * f_equal. lia.
      * symmetry. apply Z.leb_le. change (emax - prec) with 971. lia.
    + rewrite Hq. rewrite <- Z.mul_assoc, <- Z.pow_add_r by lia.
      f_equal. f_equal. lia.
Qed.

Lemma valid_exponent (x : float) (s : bool) (m : positive) (e : Z) :
  Prim2SF x = S754_finite s m e -> -1074 <= e.
Proof.
  intro E. pose proof (Prim2SF_valid x) as Hv. rewrite E in Hv.
  unfold valid_binary, bounded, canonical_mantissa in Hv.
  apply andb_prop in Hv. destruct Hv as [Hc _].
  apply Z.eqb_eq in Hc. rewrite fexp_binary64 in Hc. lia.
Qed.

Lemma shl_align_value (mx : positive) (ex ez : Z) :
  ez <= ex -> -1074 <= ez ->
  Z.pos (fst (shl_align mx ex ez)) * 2 ^ (ez + 1074) = Z.pos mx * 2 ^ (ex + 1074).
Proof.
  intros H1 H2. unfold shl_align.
  destruct (ez - ex) as [|k|k] eqn:Hk; try lia; cbn [fst].
  - replace ez with ex by lia. reflexivity.
  - rewrite iter_xO_value, <- Z.mul_assoc, <- Z.pow_add_r by lia.
    f_equal. f_equal. lia.
Qed.

Lemma binary_normalize_exact (M e g : Z) :
  -1074 <= e -> 0 <= g <= 2045 ->
  (2 ^ g | M * 2 ^ (e + 1074)) ->
  Z.abs (M * 2 ^ (e + 1074)) < 2 ^ (g + 53) ->
  match binary_normalize prec emax M e false with
  | S754_zero _ => M * 2 ^ (e + 1074) = 0
  | S754_finite s m' e' => cond_Zopp s (Z.pos m' * 2 ^ (e' + 1074)) = M * 2 ^ (e + 1074)
  | _ => False
  end.
Proof.
  intros He Hg Hdiv Hlt.
  assert (Hp : 0 < 2 ^ (e + 1074)) by (apply Z.pow_pos_nonneg; lia).
  destruct M as [|m|m]; unfold binary_normalize.
  - reflexivity.
  - destruct (binary_round_exact false m e g He Hg Hdiv) as (m' & e' & E & V).
    { rewrite Z.abs_eq in Hlt by lia. exact Hlt. }
    rewrite E. exact V.
  - destruct (binary_round_exact true m e g He Hg) as (m' & e' & E & V).
    { replace (Z.pos m * 2 ^ (e + 1074)) with (- (Z.neg m * 2 ^ (e + 1074))) by lia.
      apply Z.divide_opp_r. exact Hdiv. }
    { rewrite Z.abs_neq in Hlt by lia. lia. }
    rewrite E. cbn [cond_Zopp]. rewrite V. lia.
Qed.

Lemma cond_Zopp_mul (s : bool) (a b : Z) : cond_Zopp s a * b = cond_Zopp s (a * b).
Proof. destruct s; simpl; lia. Qed.

Lemma aligned_sum (sx sy : bool) (mx my : positive) (ex ey : Z) (op : Z -> Z -> Z) :
  (forall a b c, op a b * c = op (a * c) (b * c)) ->
  -1074 <= ex -> -1074 <= ey ->
  op (cond_Zopp sx (Z.pos (fst (shl_align mx ex (Z.min ex ey)))))
     (cond_Zopp sy (Z.pos (fst (shl_align my ey (Z.min ex ey))))) * 2 ^ (Z.min ex ey + 1074)
  = op (cond_Zopp sx (Z.pos mx * 2 ^ (ex + 1074))) (cond_Zopp sy (Z.pos my * 2 ^ (ey + 1074))).
Proof.
  intros Hop Hx Hy. rewrite Hop, !cond_Zopp_mul, !shl_align_value by lia. reflexivity.
Qed.

Lemma Some_eq {A} (a b : A) : Some a = Some b -> a = b.
Proof. congruence. Qed.

Lemma add_exact (g : Z) (x y : float) (ux uy : Z) :
  units x = Some ux -> units y = Some uy ->
  0 <= g <= 2045 -> (2 ^ g | ux) -> (2 ^ g | uy) ->
  Z.abs (ux + uy) < 2 ^ (g + 53) ->
  units (x + y) = Some (ux + uy).
Proof.
  unfold units. rewrite add_spec. unfold SF64add. intros Ux Uy Hg Dx Dy Hlt.
  destruct (Prim2SF x) as [sx| |  |sx mx ex] eqn:Ex; try discriminate;
  destruct (Prim2SF y) as [sy| |  |sy my ey] eqn:Ey; try discriminate;
  apply Some_eq in Ux; apply Some_eq in Uy; subst ux uy.
  - destruct sx, sy; reflexivity.
  - cbn [SFadd]. f_equal; lia.
  - cbn [SFadd]. f_equal; lia.
  - pose proof (valid_exponent _ _ _ _ Ex) as Vx.
    pose proof (valid_exponent _ _ _ _ Ey) as Vy.
    cbn [SFadd].
    pose proof (aligned_sum sx sy mx my ex ey Z.add Z.mul_add_distr_r Vx Vy) as Hs.
    pose proof (binary_normalize_exact
      (cond_Zopp sx (Z.pos (fst (shl_align mx ex (Z.min ex ey)))) +
       cond_Zopp sy (Z.pos (fst (shl_align my ey (Z.min ex ey)))))
      (Z.min ex ey) g ltac:(lia) Hg) as Hn.
    rewrite Hs in Hn. specialize (Hn (Z.divide_add_r _ _ _ Dx Dy) Hlt).
    destruct (binary_normalize _ _ _ _ _); try contradiction; f_equal; lia.
Qed.

Lemma sub_exact (g : Z) (x y : float) (ux uy : Z) :
  units x = Some ux -> units y = Some uy ->
  0 <= g <= 2045 -> (2 ^ g | ux) -> (2 ^ g | uy) ->
  Z.abs (ux - uy) < 2 ^ (g + 53) ->
  units (x - y) = Some (ux - uy).
Proof.
  unfold units. rewrite sub_spec. unfold SF64sub. intros Ux Uy Hg Dx Dy Hlt.
  destruct (Prim2SF x) as [sx| |  |sx mx ex] eqn:Ex; try discriminate;
  destruct (Prim2SF y) as [sy| |  |sy my ey] eqn:Ey; try discriminate;
  apply Some_eq in Ux; apply Some_eq in Uy; subst ux uy.
  - destruct sx, sy; reflexivity.
  - cbn [SFsub]. f_equal; destruct sy; simpl; lia.
  - cbn [SFsub]. f_equal; lia.
  - pose proof (valid_exponent _ _ _ _ Ex) as Vx.
    pose proof (valid_exponent _ _ _ _ Ey) as Vy.
    cbn [SFsub].
    pose proof (aligned_sum sx sy mx my ex ey Z.sub Z.mul_sub_distr_r Vx Vy) as Hs.
    pose proof (binary_normalize_exact
      (cond_Zopp sx (Z.pos (fst (shl_align mx ex (Z.min ex ey)))) -
       cond_Zopp sy (Z.pos (fst (shl_align my ey (Z.min ex ey)))))
      (Z.min ex ey) g ltac:(lia) Hg) as Hn.
    rewrite Hs in Hn. specialize (Hn (Z.divide_sub_r _ _ _ Dx Dy) Hlt).
    destruct (binary_normalize _ _ _ _ _); try contradiction; f_equal; lia.
Qed.

End ExactFacts.

(** ** Facts about grouping, date grids and integer sums *)

Section GroupingFacts.

Import Spec.
Local Open Scope Z_scope.

Lemma In_insert_date (x d : CalendarDate) (l : list CalendarDate) :
  In x (insert_date d l) <-> x = d \/ In x l.
Proof.
  induction l as [|y t IH]; simpl.
  - intuition.
  - destruct (d <? y) eqn:E1; [simpl; intuition|].
    destruct (d =? y) eqn:E2.
    + apply Z.eqb_eq in E2. subst. simpl. intuition.
    + simpl. rewrite IH. intuition.
Qed.

Lemma In_distinct_dates (x : CalendarDate) (ds : list CalendarDate) :
  In x (distinct_dates ds) <-> In x ds.
Proof.
  induction ds as [|d t IH]; simpl; [tauto|].
  rewrite In_insert_date, IH. intuition.
Qed.

Lemma insert_date_sorted (d : CalendarDate) (l : list CalendarDate) :
  StronglySorted Z.lt l -> StronglySorted Z.lt (insert_date d l).
Proof.
  induction 1 as [|y t Hs IH Hy]; simpl.
  - repeat constructor.
  - destruct (d <? y) eqn:E1.
    + apply Z.ltb_lt in E1. constructor; [now constructor|].
      constructor; [exact E1|].
      rewrite Forall_forall in Hy |- *. intros z Hz. specialize (Hy z Hz). lia.
    + destruct (d =? y) eqn:E2; [now constructor|].
      apply Z.ltb_ge in E1. apply Z.eqb_neq in E2.
      constructor; [exact IH|].
      rewrite Forall_forall in Hy |- *. intros z Hz.
      apply In_insert_date in Hz. destruct Hz as [-> | Hz]; [lia | now apply Hy].
Qed.

Lemma distinct_dates_sorted (ds : list CalendarDate) :
  StronglySorted Z.lt (distinct_dates ds).
Proof.
  induction ds as [|d t IH]; simpl; [constructor | now apply insert_date_sorted].
Qed.

Lemma In_inclusive_range (x lo hi : Z) :
  In x (inclusive_range lo hi) <-> lo <= x <= hi.
Proof.
  unfold inclusive_range. rewrite in_map_iff. split.
  - intros (k & <- & Hk). apply in_seq in Hk. lia.
  - intros H. exists (Z.to_nat (x - lo)). split; [lia|]. apply in_seq. lia.
Qed.

Lemma shifted_seq_sorted (lo : Z) (n start : nat) :
  StronglySorted Z.lt (map (fun k => lo + Z.of_nat k) (seq start n)).
Proof.
  revert start. induction n as [|n IH]; intro start; simpl; constructor.
  - apply IH.
  - rewrite Forall_forall. intros z Hz. apply in_map_iff in Hz.
    destruct Hz as (k & <- & Hk). apply in_seq in Hk. lia.
Qed.

Lemma inclusive_range_sorted (lo hi : Z) : StronglySorted Z.lt (inclusive_range lo hi).
Proof. apply shifted_seq_sorted. Qed.

Lemma length_inclusive_range (lo hi : Z) :
  length (inclusive_range lo hi) = Z.to_nat (hi - lo + 1).
Proof. unfold inclusive_range. now rewrite length_map, length_seq. Qed.

Lemma fold_min_spec (ds : list Z) : forall d,
  let m := fold_left Z.min ds d in
  In m (d :: ds) /\ forall x, In x (d :: ds) -> m <= x.
Proof.
  induction ds as [|y t IH]; intro d; simpl.
  - split; [now left | intros x [<- | []]; lia].
  - destruct (IH (Z.min d y)) as [Hin Hle]. simpl in Hin. split.
    + destruct Hin as [E | Hin]; [|now auto].
      rewrite <- E. destruct (Z.min_spec d y) as [[_ ->] | [_ ->]]; auto.
    + intros x Hx.
      assert (H1 := Hle (Z.min d y) (or_introl eq_refl)).
      destruct Hx as [<- | [<- | Hx]]; [lia | lia | apply Hle; now right].
Qed.

Lemma fold_max_spec (ds : list Z) : forall d,
  let m := fold_left Z.max ds d in
  In m (d :: ds) /\ forall x, In x (d :: ds) -> x <= m.
Proof.
  induction ds as [|y t IH]; intro d; simpl.
  - split; [now left | intros x [<- | []]; lia].
  - destruct (IH (Z.max d y)) as [Hin Hle]. simpl in Hin. split.
    + destruct Hin as [E | Hin]; [|now auto].
      rewrite <- E. destruct (Z.max_spec d y) as [[_ ->] | [_ ->]]; auto.
    + intros x Hx.
      assert (H1 := Hle (Z.max d y) (or_introl eq_refl)).
      destruct Hx as [<- | [<- | Hx]]; [lia | lia | apply Hle; now right].
Qed.

(** The bins of [resample('D')] are the days between two input dates. *)
Lemma In_resample_D (rows : list Raw.bar) (d : CalendarDate) :
  In d (Pandas.resample_D rows) <->
  exists a b, In a rows /\ In b rows /\ Raw.Date a <= d <= Raw.Date b.
Proof.
  unfold Pandas.resample_D.
  destruct (map Raw.Date rows) as [|d0 ds] eqn:E.
  - destruct rows; [|discriminate]. simpl. split; [tauto | intros (a & _ & [] & _)].
  - rewrite In_inclusive_range.
    destruct (fold_min_spec ds d0) as [Hmin Hlo].
    destruct (fold_max_spec ds d0) as [Hmax Hhi].
    rewrite <- E in Hmin, Hlo, Hmax, Hhi. split.
    + intros H. apply in_map_iff in Hmin, Hmax.
      destruct Hmin as (a & Ea & Ha). destruct Hmax as (b & Eb & Hb).
      exists a, b. repeat split; auto; lia.
    + intros (a & b & Ha & Hb & H).
      assert (H1 := Hlo _ (in_map Raw.Date _ _ Ha)).
      assert (H2 := Hhi _ (in_map Raw.Date _ _ Hb)). lia.
Qed.

Lemma resample_D_sorted (rows : list Raw.bar) :
  StronglySorted Z.lt (Pandas.resample_D rows).
Proof.
  unfold Pandas.resample_D. destruct (map Raw.Date rows);
    [constructor | apply inclusive_range_sorted].
Qed.

Lemma aggregate_dates (f : reducers) (keys : list CalendarDate) (rows : list Raw.bar) :
  map Daily.Date (aggregate f keys rows) = keys.
Proof.
  unfold aggregate. rewrite map_map. simpl. apply map_id.
Qed.

Lemma In_aggregate (f : reducers) (keys : list CalendarDate) (rows : list Raw.bar)
  (bar : Daily.bar) :
  In bar (aggregate f keys rows) <->
  In (Daily.Date bar) keys /\ bar = reduce_group f (Daily.Date bar) (on_date (Daily.Date bar) rows).
Proof.
  unfold aggregate. rewrite in_map_iff. split.
  - intros (d & <- & Hd). simpl. auto.
  - intros [Hd E]. exists (Daily.Date bar). auto.
Qed.

Lemma In_on_date (d : CalendarDate) (rows : list Raw.bar) (r : Raw.bar) :
  In r (on_date d rows) <-> In r rows /\ Raw.Date r = d.
Proof. unfold on_date. rewrite filter_In, Z.eqb_eq. tauto. Qed.

Lemma on_date_nil (d : CalendarDate) (rows : list Raw.bar) :
  (forall r, In r rows -> Raw.Date r <> d) -> on_date d rows = [].
Proof.
  intro H. unfold on_date. induction rows as [|r t IH]; simpl; [reflexivity|].
  destruct (Raw.Date r =? d) eqn:E.
  - apply Z.eqb_eq in E. exfalso. apply (H r); simpl; auto.
  - apply IH. intros x Hx. apply H. now right.
Qed.

(** *** Integer sums *)

Lemma fold_add_acc (xs : list Z) : forall a, fold_left Z.add xs a = a + Int.total xs.
Proof.
  unfold Int.total. induction xs as [|x t IH]; intro a; simpl; [lia|].
  rewrite (IH (a + x)), (IH x). lia.
Qed.

Lemma total_cons (x : Z) (t : list Z) : Int.total (x :: t) = x + Int.total t.
Proof. unfold Int.total. simpl. now rewrite fold_add_acc. Qed.

Lemma total_nil : Int.total [] = 0.
Proof. reflexivity. Qed.

Lemma total_map_add {A} (f g : A -> Z) (l : list A) :
  Int.total (map (fun x => f x + g x) l) = Int.total (map f l) + Int.total (map g l).
Proof.
  induction l as [|x t IH]; simpl; [reflexivity|].
  rewrite !total_cons, IH. lia.
Qed.

Lemma total_map_zero {A} (l : list A) : Int.total (map (fun _ => 0) l) = 0.
Proof. induction l as [|x t IH]; simpl; [reflexivity|]. now rewrite total_cons, IH. Qed.

Lemma total_indicator (k v : Z) (keys : list Z) :
  NoDup keys -> In k keys ->
  Int.total (map (fun d => if k =? d then v else 0) keys) = v.
Proof.
  induction 1 as [|d t Hd Hnd IH]; intros Hk; [destruct Hk|].
  simpl. rewrite total_cons. destruct Hk as [-> | Hk].
  - rewrite Z.eqb_refl.
    assert (E : map (fun d => if k =? d then v else 0) t = map (fun _ => 0) t).
    { apply map_ext_in. intros a Ha. destruct (k =? a) eqn:E; [|reflexivity].
      apply Z.eqb_eq in E. subst. contradiction. }
    rewrite E, total_map_zero. lia.
  - destruct (k =? d) eqn:E.
    + apply Z.eqb_eq in E. subst. contradiction.
    + rewrite (IH Hk). lia.
Qed.

Lemma total_nonneg (xs : list Z) : (forall x, In x xs -> 0 <= x) -> 0 <= Int.total xs.
Proof.
  induction xs as [|x t IH]; intro H; [now rewrite total_nil|].
  rewrite total_cons. assert (0 <= x) by (apply H; now left).
  assert (0 <= Int.total t) by (apply IH; intros; apply H; now right). lia.
Qed.

Lemma total_bounds_member (xs : list Z) (x : Z) :
  (forall y, In y xs -> 0 <= y) -> In x xs -> x <= Int.total xs.
Proof.
  induction xs as [|y t IH]; intros H Hx; [destruct Hx|].
  rewrite total_cons.
  assert (0 <= y) by (apply H; now left).
  assert (0 <= Int.total t) by (apply total_nonneg; intros; apply H; now right).
  destruct Hx as [<- | Hx]; [lia|].
  assert (x <= Int.total t) by (apply IH; auto; intros; apply H; now right). lia.
Qed.

Lemma volume_on_cons (d : CalendarDate) (r : Raw.bar) (t : list Raw.bar) :
  volume_on d (r :: t) = (if Raw.Date r =? d then Raw.Volume r else 0) + volume_on d t.
Proof.
  unfold volume_on, on_date. simpl. destruct (Raw.Date r =? d); simpl.
  - now rewrite total_cons.
  - lia.
Qed.

(** Grouping splits the total volume: every row falls under one key. *)
Lemma volume_partition (keys : list CalendarDate) (rows : list Raw.bar) :
  NoDup keys -> (forall r, In r rows -> In (Raw.Date r) keys) ->
  Int.total (map (fun d => volume_on d rows) keys) = Int.total (map Raw.Volume rows).
Proof.
  intros Hnd. induction rows as [|r t IH]; intro Hin.
  - simpl. unfold volume_on. simpl. apply total_map_zero.
  - simpl. rewrite total_cons, <- IH by (intros; apply Hin; now right).
    rewrite <- (total_indicator (Raw.Date r) (Raw.Volume r) keys Hnd) at 1
      by (apply Hin; now left).
    rewrite <- total_map_add. f_equal. apply map_ext. intro d. apply volume_on_cons.
Qed.

Lemma volume_on_nonneg (d : CalendarDate) (rows : list Raw.bar) :
  (forall r, In r rows -> 0 <= Raw.Volume r) -> 0 <= volume_on d rows.
Proof.
  intro H. apply total_nonneg. intros x Hx. apply in_map_iff in Hx.
  destruct Hx as (r & <- & Hr). apply H. apply In_on_date in Hr. tauto.
Qed.

(** *** Wrap-around of int64 *)

Lemma wrap64_small (z : Z) : - 2 ^ 63 <= z < 2 ^ 63 -> Int.wrap64 z = z.
Proof. intro H. unfold Int.wrap64. rewrite Z.mod_small; lia. Qed.

Lemma wrap64_add_l (a b : Z) : Int.wrap64 (Int.wrap64 a + b) = Int.wrap64 (a + b).
Proof.
  unfold Int.wrap64. f_equal.
  replace ((a + 2 ^ 63) mod 2 ^ 64 - 2 ^ 63 + b + 2 ^ 63)
    with ((a + 2 ^ 63) mod 2 ^ 64 + b) by lia.
  rewrite Zplus_mod_idemp_l. f_equal. lia.
Qed.

Lemma wrap64_add_r (a b : Z) : Int.wrap64 (a + Int.wrap64 b) = Int.wrap64 (a + b).
Proof. rewrite (Z.add_comm a), wrap64_add_l. f_equal. lia. Qed.

Lemma pandas_sum_acc (xs : list Z) : forall a,
  fold_left (fun s v => Int.wrap64 (s + v)) xs (Int.wrap64 a) = Int.wrap64 (a + Int.total xs).
Proof.
  induction xs as [|x t IH]; intro a; simpl.
  - rewrite total_nil. f_equal. lia.
  - rewrite wrap64_add_l, IH, total_cons. f_equal. lia.
Qed.

Lemma pandas_sum_total (xs : list Z) : Pandas.sum xs = Int.wrap64 (Int.total xs).
Proof.
  unfold Pandas.sum. change 0 with (Int.wrap64 0) at 1. now rewrite pandas_sum_acc.
Qed.

Lemma wrap64_total_map {A} (f : A -> Z) (l : list A) :
  Int.wrap64 (Int.total (map (fun x => Int.wrap64 (f x)) l)) = Int.wrap64 (Int.total (map f l)).
Proof.
  induction l as [|x t IH]; simpl; [reflexivity|].
  rewrite !total_cons, wrap64_add_l, <- wrap64_add_r, IH, wrap64_add_r. reflexivity.
Qed.

Lemma sorted_lt_NoDup (l : list Z) : StronglySorted Z.lt l -> NoDup l.
Proof.
  induction 1 as [|x t Hs IH Hx]; constructor; [|exact IH].
  intro Hin. rewrite Forall_forall in Hx. specialize (Hx x Hin). lia.
Qed.

Lemma sorted_lt_ext (l l' : list Z) :
  StronglySorted Z.lt l -> StronglySorted Z.lt l' ->
  (forall x, In x l <-> In x l') -> l = l'.
Proof.
  intros Hl. revert l'. induction Hl as [|x t Hs IH Hx]; intros l' Hl' Hiff.
  - destruct l' as [|y t']; [reflexivity|]. exfalso. apply (Hiff y). now left.
  - destruct Hl' as [|y t' Hs' Hy].
    + exfalso. apply (Hiff x). now left.
    + rewrite Forall_forall in Hx, Hy.
      assert (x = y).
      { destruct (proj1 (Hiff x) (or_introl eq_refl)) as [E | Hin]; [now symmetry|].
        destruct (proj2 (Hiff y) (or_introl eq_refl)) as [E | Hin']; [exact E|].
        specialize (Hx _ Hin'). specialize (Hy _ Hin). lia. }
      subst y. f_equal. apply IH; [exact Hs'|].
      intro z. split; intro Hz.
      * destruct (proj1 (Hiff z) (or_intror Hz)) as [E | H]; [|exact H].
        subst z. specialize (Hx _ Hz). lia.
      * destruct (proj2 (Hiff z) (or_intror Hz)) as [E | H]; [|exact H].
        subst z. specialize (Hy _ Hz). lia.
Qed.

(** The index order of [resample]: a stable sort by timestamp. *)
Lemma insert_by_time_perm (r : Raw.bar) (l : list Raw.bar) :
  Permutation (Pandas.insert_by_time r l) (r :: l).
Proof.
  induction l as [|x l IH]; simpl; [apply Permutation_refl|].
  destruct (Raw.Time r <=? Raw.Time x); [apply Permutation_refl|].
  eapply Permutation_trans; [apply perm_skip, IH | apply perm_swap].
Qed.

Lemma sort_index_perm (rows : list Raw.bar) :
  Permutation (Pandas.sort_index rows) rows.
Proof.
  unfold Pandas.sort_index. induction rows as [|r t IH]; simpl; [constructor|].
  eapply Permutation_trans; [apply insert_by_time_perm | now apply perm_skip].
Qed.

Lemma In_sort_index (rows : list Raw.bar) (r : Raw.bar) :
  In r (Pandas.sort_index rows) <-> In r rows.
Proof.
  split; apply Permutation_in;
    [apply sort_index_perm | apply Permutation_sym, sort_index_perm].
Qed.

Lemma sort_index_forall (P : Raw.bar -> Prop) (rows : list Raw.bar) :
  (forall b, In b rows -> P b) -> forall b, In b (Pandas.sort_index rows) -> P b.
Proof. intros H b Hb. apply H. exact (proj1 (In_sort_index rows b) Hb). Qed.

Lemma sort_index_has_row (rows : list Raw.bar) (d : CalendarDate) :
  (exists r, In r rows /\ Raw.Date r = d) ->
  exists r, In r (Pandas.sort_index rows) /\ Raw.Date r = d.
Proof.
  intros (r & Hr & E). exists r. split; [|exact E].
  exact (proj2 (In_sort_index rows r) Hr).
Qed.

Lemma insert_by_time_sorted (r : Raw.bar) (l : list Raw.bar) :
  StronglySorted (fun a b => Raw.Time a <= Raw.Time b) l ->
  StronglySorted (fun a b => Raw.Time a <= Raw.Time b) (Pandas.insert_by_time r l).
Proof.
  induction 1 as [|x l Hs IH Hx]; simpl; [repeat constructor|].
  destruct (Z.leb_spec (Raw.Time r) (Raw.Time x)) as [E|E].
  - constructor; [now constructor|].
    constructor; [exact E|]. rewrite Forall_forall in *. intros y Hy.
    specialize (Hx y Hy). lia.
  - constructor; [exact IH|].
    rewrite Forall_forall in *. intros y Hy.
    apply (Permutation_in _ (insert_by_time_perm r l)) in Hy.
    destruct Hy as [<-|Hy]; [lia | now apply Hx].
Qed.

Lemma sort_index_sorted (rows : list Raw.bar) :
  StronglySorted (fun a b => Raw.Time a <= Raw.Time b) (Pandas.sort_index rows).
Proof.
  unfold Pandas.sort_index. induction rows as [|r t IH]; simpl; [constructor|].
  now apply insert_by_time_sorted.
Qed.

Lemma insert_by_time_first (r : Raw.bar) (l : list Raw.bar) :
  (forall x, In x l -> Raw.Time r <= Raw.Time x) ->
  Pandas.insert_by_time r l = r :: l.
Proof.
  destruct l as [|x t]; [reflexivity|]. intro H. simpl.
  destruct (Z.leb_spec (Raw.Time r) (Raw.Time x)) as [E|E]; [reflexivity|].
  specialize (H x (or_introl eq_refl)). lia.
Qed.

(** Rows that are in time order already stay as they are. *)
Lemma sort_index_sorted_id (rows : list Raw.bar) :
  Sorted Z.le (map Raw.Time rows) -> Pandas.sort_index rows = rows.
Proof.
  intro Hs. apply Sorted_StronglySorted in Hs; [|intros x y z; lia].
  unfold Pandas.sort_index. induction rows as [|r t IH]; [reflexivity|].
  simpl in *. inversion Hs as [|? ? Ht Hr]; subst. rewrite (IH Ht).
  apply insert_by_time_first. intros x Hx. rewrite Forall_forall in Hr.
  apply Hr. now apply in_map.
Qed.

(** Sorting and taking the rows of one date commute. *)
Lemma filter_insert_by_time (p : Raw.bar -> bool) (r : Raw.bar) (l : list Raw.bar) :
  StronglySorted (fun a b => Raw.Time a <= Raw.Time b) l ->
  filter p (Pandas.insert_by_time r l)
  = if p r then Pandas.insert_by_time r (filter p l) else filter p l.
Proof.
  induction 1 as [|x l Hs IH Hx]; simpl.
  - now destruct (p r).
  - destruct (Z.leb_spec (Raw.Time r) (Raw.Time x)) as [E|E]; simpl.
    + destruct (p r) eqn:Er; [|reflexivity].
      destruct (p x) eqn:Ex; simpl.
      * destruct (Z.leb_spec (Raw.Time r) (Raw.Time x)); [reflexivity | lia].
      * symmetry. apply insert_by_time_first. intros y Hy.
        apply filter_In in Hy. destruct Hy as [Hy _].
        rewrite Forall_forall in Hx. specialize (Hx y Hy). lia.
    + rewrite IH. destruct (p r) eqn:Er; destruct (p x) eqn:Ex; simpl; try reflexivity.
      destruct (Z.leb_spec (Raw.Time r) (Raw.Time x)); [lia | reflexivity].
Qed.

Lemma filter_sort_index (p : Raw.bar -> bool) (rows : list Raw.bar) :
  filter p (Pandas.sort_index rows) = Pandas.sort_index (filter p rows).
Proof.
  induction rows as [|r t IH]; [reflexivity|].
  change (Pandas.sort_index (r :: t))
    with (Pandas.insert_by_time r (Pandas.sort_index t)).
  rewrite filter_insert_by_time by apply sort_index_sorted.
  simpl. destruct (p r); [|exact IH].
  change (Pandas.sort_index (r :: filter p t))
    with (Pandas.insert_by_time r (Pandas.sort_index (filter p t))).
  now rewrite IH.
Qed.

Lemma on_date_sort_index (d : CalendarDate) (rows : list Raw.bar) :
  on_date d (Pandas.sort_index rows) = Pandas.sort_index (on_date d rows).
Proof. apply filter_sort_index. Qed.

Lemma total_perm (xs ys : list Z) : Permutation xs ys -> Int.total xs = Int.total ys.
Proof.
  induction 1 as [|x l l' _ IH|x y l|l l' l'' _ IH1 _ IH2].
  - reflexivity.
  - rewrite !total_cons. lia.
  - rewrite !total_cons. lia.
  - congruence.
Qed.

Lemma volume_on_sort_index (d : CalendarDate) (rows : list Raw.bar) :
  volume_on d (Pandas.sort_index rows) = volume_on d rows.
Proof.
  unfold volume_on. rewrite on_date_sort_index. apply total_perm.
  apply Permutation_map, sort_index_perm.
Qed.

(** The notebook's daily frame: the calendar grid of the input, each
    day reduced over its rows in time order. *)
Lemma notebook_frame (es_data : list Raw.bar) :
  Notebook.es_daily es_data
  = map (fun d => reduce_group Notebook.agg_spec d
                    (Pandas.sort_index (on_date d es_data)))
        (Pandas.resample_D es_data).
Proof.
  unfold Notebook.es_daily, Pandas.resample_D_agg, aggregate.
  apply map_ext. intro d. now rewrite on_date_sort_index.
Qed.

Lemma In_notebook_frame (es_data : list Raw.bar) (bar : Daily.bar) :
  In bar (Notebook.es_daily es_data) <->
  In (Daily.Date bar) (Pandas.resample_D es_data) /\
  bar = reduce_group Notebook.agg_spec (Daily.Date bar)
          (on_date (Daily.Date bar) (Pandas.sort_index es_data)).
Proof. apply In_aggregate. Qed.

Lemma notebook_dates (es_data : list Raw.bar) :
  map Daily.Date (Notebook.es_daily es_data) = Pandas.resample_D es_data.
Proof. apply aggregate_dates. Qed.

Lemma notebook_volumes (es_data : list Raw.bar) :
  map Daily.Volume (Notebook.es_daily es_data) =
  map (fun d => Int.wrap64 (volume_on d es_data)) (Pandas.resample_D es_data).
Proof.
  unfold Notebook.es_daily, Pandas.resample_D_agg, aggregate. rewrite map_map.
  apply map_ext. intro d. simpl. rewrite <- (volume_on_sort_index d es_data).
  apply pandas_sum_total.
Qed.

Lemma resample_D_covers (es_data : list Raw.bar) (r : Raw.bar) :
  In r es_data -> In (Raw.Date r) (Pandas.resample_D es_data).
Proof. intro H. apply In_resample_D. exists r, r. repeat split; auto; lia. Qed.

End GroupingFacts.

(** ** Facts about the calendar grid of the notebook *)

Section GridFacts.

Import F64 Spec.
Local Open Scope Z_scope.

Lemma DATE_monotone (s t : Timestamp) : s <= t -> DATE s <= DATE t.
Proof. intro H. unfold DATE. apply Z.div_le_mono; lia. Qed.

Lemma sorted_hd_least (x : Z) (l : list Z) :
  Sorted Z.le (x :: l) -> forall y, In y (x :: l) -> x <= y.
Proof.
  intros Hs y Hy. apply Sorted_StronglySorted in Hs; [|intros a b c; lia].
  inversion Hs as [|? ? _ Hall]; subst. rewrite Forall_forall in Hall.
  destruct Hy as [<- | Hy]; [lia | now apply Hall].
Qed.

Lemma last_cons {A} (t : list A) : forall z x, last (z :: t) x = last t z.
Proof.
  induction t as [|a t IH]; intros z x; [reflexivity|].
  change (last (z :: a :: t) x) with (last (a :: t) x).
  now rewrite (IH a x), (IH a z).
Qed.

Lemma sorted_last_greatest (l : list Z) : forall x,
  Sorted Z.le (x :: l) -> forall y, In y (x :: l) -> y <= last l x.
Proof.
  induction l as [|z t IH]; intros x Hs y Hy.
  - destruct Hy as [<- | []]. simpl. lia.
  - assert (Hxz : x <= z) by (apply (sorted_hd_least _ _ Hs); simpl; auto).
    assert (Hs' : Sorted Z.le (z :: t)) by (now inversion Hs).
    rewrite last_cons.
    destruct Hy as [<- | Hy].
    + specialize (IH z Hs' z (or_introl eq_refl)). lia.
    + now apply IH.
Qed.

Lemma timestamps_bound_dates (first : Raw.bar) (rest : list Raw.bar) :
  Sorted Z.le (map Raw.Time (first :: rest)) ->
  forall r, In r (first :: rest) ->
  Raw.Date first <= Raw.Date r <= Raw.Date (last rest first).
Proof.
  intros Hs r Hr. simpl in Hs. unfold Raw.Date.
  assert (Hin : In (Raw.Time r) (Raw.Time first :: map Raw.Time rest)).
  { destruct Hr as [<- | Hr]; [now left | right; now apply in_map]. }
  split; apply DATE_monotone.
  - now apply (sorted_hd_least _ _ Hs).
  - replace (Raw.Time (last rest first)) with (last (map Raw.Time rest) (Raw.Time first)).
    + now apply (sorted_last_greatest _ _ Hs).
    + clear. revert first. induction rest as [|a t IH]; intro first; [reflexivity|].
      change (map Raw.Time (a :: t)) with (Raw.Time a :: map Raw.Time t).
      rewrite !last_cons. apply IH.
Qed.

Lemma last_In {A} (l : list A) (d : A) : In (last l d) (d :: l).
Proof.
  revert d. induction l as [|a t IH]; intro d; [now left|].
  rewrite last_cons. right. apply IH.
Qed.

Lemma gap_row (d : CalendarDate) (rows : list Raw.bar) :
  (forall r, In r rows -> Raw.Date r <> d) ->
  reduce_group Notebook.agg_spec d (on_date d rows) = Daily.mk d nan nan nan nan 0.
Proof. intro H. now rewrite (on_date_nil _ _ H). Qed.

(** The row that the notebook gives a day on which the input has no
    bar. *)
Lemma notebook_gap_row (d : CalendarDate) (es_data : list Raw.bar) :
  (forall r, In r es_data -> Raw.Date r <> d) ->
  reduce_group Notebook.agg_spec d (on_date d (Pandas.sort_index es_data))
  = Daily.mk d nan nan nan nan 0.
Proof.
  intro H. apply gap_row. intros r Hr. apply H.
  exact (proj1 (In_sort_index _ _) Hr).
Qed.

End GridFacts.

(** ** Facts about grouping by the dates that occur *)

Section GroupByFacts.

Import F64 Spec.
Local Open Scope Z_scope.

(** The SQL script and the R script group by the dates that occur: one
    daily bar per distinct input date, in ascending date order. *)
Lemma grouped_by_input_dates (f : reducers) (es_data : list Raw.bar) :
  let out := aggregate f (distinct_dates (map Raw.Date es_data)) es_data in
  (forall d, In d (map Daily.Date out) <-> In d (map Raw.Date es_data)) /\
  StronglySorted Z.lt (map Daily.Date out).
Proof.
  intro out. unfold out. rewrite aggregate_dates. split.
  - intro d. apply In_distinct_dates.
  - apply distinct_dates_sorted.
Qed.

Lemma sql_total_volume (es_data : list Raw.bar) :
  Int.total (map Daily.Volume (SqlScript.daily_aggregation es_data)) =
  Int.total (map Raw.Volume es_data).
Proof.
  unfold SqlScript.daily_aggregation, aggregate. rewrite map_map. simpl.
  apply (volume_partition (distinct_dates (map Raw.Date es_data)) es_data).
  - apply sorted_lt_NoDup, distinct_dates_sorted.
  - intros r Hr. apply In_distinct_dates. now apply in_map.
Qed.

Lemma on_date_all (d : CalendarDate) (rows : list Raw.bar) :
  (forall b, In b rows -> Raw.Date b = d) -> on_date d rows = rows.
Proof.
  intro H. apply filter_id. apply Forall_forall. intros b Hb.
  apply Z.eqb_eq. now apply H.
Qed.

Lemma distinct_dates_single (d : CalendarDate) (rows : list Raw.bar) :
  rows <> [] -> (forall b, In b rows -> Raw.Date b = d) ->
  distinct_dates (map Raw.Date rows) = [d].
Proof.
  intros Hne H. apply sorted_lt_ext.
  - apply distinct_dates_sorted.
  - repeat constructor.
  - intro x. rewrite In_distinct_dates, in_map_iff. split.
    + intros (b & <- & Hb). left. symmetry. now apply H.
    + intros [<- | []]. destruct rows as [|b t]; [contradiction|].
      exists b. split; [apply H|]; now left.
Qed.

Lemma resample_D_single (d : CalendarDate) (rows : list Raw.bar) :
  rows <> [] -> (forall b, In b rows -> Raw.Date b = d) ->
  Pandas.resample_D rows = [d].
Proof.
  intros Hne H. apply sorted_lt_ext.
  - apply resample_D_sorted.
  - repeat constructor.
  - intro x. rewrite In_resample_D. split.
    + intros (a & b & Ha & Hb & Hx). left.
      rewrite (H a Ha), (H b Hb) in Hx. lia.
    + intros [<- | []]. destruct rows as [|b t]; [contradiction|].
      exists b, b. assert (E : Raw.Date b = d) by (apply H; now left).
      repeat split; try (now left); lia.
Qed.

(** On the bars of a single date each variant produces one daily bar,
    the reduction of all the bars. *)
Lemma one_date_one_bar (d : CalendarDate) (rows : list Raw.bar) :
  rows <> [] -> (forall b, In b rows -> Raw.Date b = d) ->
  Notebook.es_daily rows
    = [reduce_group Notebook.agg_spec d (Pandas.sort_index rows)] /\
  RScript.es_daily rows
    = [reduce_group
         (RScript.summarise_spec (R.type_convert (map Raw.Volume rows))) d rows] /\
  SqlScript.daily_aggregation rows = [reduce_group SqlScript.select_list d rows].
Proof.
  intros Hne H. rewrite notebook_frame.
  unfold RScript.es_daily, SqlScript.daily_aggregation, aggregate.
  rewrite (resample_D_single d rows Hne H), (distinct_dates_single d rows Hne H).
  simpl. now rewrite (on_date_all d rows H).
Qed.

End GroupByFacts.

(** ** Facts about the high and the low of a daily bar *)

Section BoundFacts.

Import F64 Spec.
Local Open Scope float_scope.

Lemma well_formed_low_high (b : Raw.bar) :
  well_formed b = true ->
  (Raw.Low b <=? Raw.High b) = true /\
  defined (Raw.Open b) = true /\ defined (Raw.High b) = true /\
  defined (Raw.Low b) = true /\ defined (Raw.Close b) = true.
Proof.
  unfold well_formed. rewrite !andb_true_iff. intros [[[H1 H2] H3] H4].
  split; [eapply leb_trans; eassumption|].
  apply leb_defined in H1, H2, H3. tauto.
Qed.

Lemma column_defined (g : list Raw.bar) (col : Raw.bar -> float) :
  (forall b, In b g -> defined (col b) = true) -> all_defined (map col g).
Proof.
  intro H. apply Forall_forall. intros x Hx. apply in_map_iff in Hx.
  destruct Hx as (b & <- & Hb). now apply H.
Qed.

Lemma pandas_max_bounds : bounds_above Pandas.max.
Proof.
  intros xs x Hd Hx. apply pandas_max_is_maximum; auto. intro E. now subst.
Qed.

Lemma pandas_min_bounds : bounds_below Pandas.min.
Proof.
  intros xs x Hd Hx. apply pandas_min_is_minimum; auto. intro E. now subst.
Qed.

Lemma sql_MAX_bounds : bounds_above SQL.MAX.
Proof.
  intros xs x Hd Hx. apply sql_MAX_is_maximum; auto. intro E. now subst.
Qed.

Lemma sql_MIN_bounds : bounds_below SQL.MIN.
Proof.
  intros xs x Hd Hx. apply sql_MIN_is_minimum; auto. intro E. now subst.
Qed.

Lemma r_max_bounds : bounds_above R.max.
Proof.
  intros xs x Hd Hx. apply r_max_is_maximum; auto. intro E. now subst.
Qed.

Lemma r_min_bounds : bounds_below R.min.
Proof.
  intros xs x Hd Hx. apply r_min_is_minimum; auto. intro E. now subst.
Qed.

(** The daily bar of a date that has a bar keeps low below high. *)
Lemma aggregate_low_high (f : reducers) (keys : list CalendarDate) (rows : list Raw.bar) :
  bounds_above (agg_High f) -> bounds_below (agg_Low f) ->
  (forall b, In b rows -> well_formed b = true) ->
  forall bar, In bar (aggregate f keys rows) ->
  (exists r, In r rows /\ Raw.Date r = Daily.Date bar) ->
  (Daily.Low bar <=? Daily.High bar) = true.
Proof.
  intros Hup Hlo Hwf bar Hbar (r & Hr & Hd).
  apply In_aggregate in Hbar. destruct Hbar as [_ E]. rewrite E. simpl.
  set (g := on_date (Daily.Date bar) rows).
  assert (Hg : In r g) by (apply In_on_date; auto).
  assert (Hall : forall b, In b g -> well_formed b = true).
  { intros b Hb. apply In_on_date in Hb. apply Hwf. tauto. }
  destruct (well_formed_low_high r (Hall r Hg)) as (Hlh & _).
  apply leb_trans with (y := Raw.Low r).
  - apply Hlo; [|now apply in_map].
    apply column_defined. intros b Hb. now apply (well_formed_low_high b (Hall b Hb)).
  - apply leb_trans with (y := Raw.High r); [exact Hlh|].
    apply Hup; [|now apply in_map].
    apply column_defined. intros b Hb. now apply (well_formed_low_high b (Hall b Hb)).
Qed.

Lemma grouped_dates_have_rows (rows : list Raw.bar) (d : CalendarDate) :
  In d (distinct_dates (map Raw.Date rows)) -> exists r, In r rows /\ Raw.Date r = d.
Proof.
  rewrite In_distinct_dates, in_map_iff. intros (r & E & Hr). eauto.
Qed.

End BoundFacts.

(** ** Facts about rolling means *)

Section RollingFacts.

Import F64 Spec Pandas.RollMean.
Local Open Scope float_scope.

Lemma forallb_all_defined (xs : list float) :
  forallb defined xs = true -> all_defined xs.
Proof. intro H. apply Forall_forall. now apply forallb_forall. Qed.

Lemma dropna_length_le (xs : list float) :
  (length (Pandas.dropna xs) <= length xs)%nat.
Proof. apply filter_length_le. Qed.

Lemma length_slice (xs : list float) (start stop : nat) :
  (stop <= length xs)%nat -> length (slice xs start stop) = (stop - start)%nat.
Proof.
  intro H. unfold slice. rewrite length_firstn, length_skipn. lia.
Qed.

Lemma nth_error_map_seq {A} (f : nat -> A) (n i : nat) :
  (i < n)%nat -> nth_error (map f (seq 0 n)) i = Some (f i).
Proof.
  intro H. rewrite nth_error_map, nth_error_seq.
  destruct (Nat.ltb_spec i n); [reflexivity | lia].
Qed.

Lemma slice_closes (daily : list Daily.bar) (start stop : nat) :
  slice (map Daily.Close daily) start stop =
  map Daily.Close (firstn (stop - start) (skipn start daily)).
Proof. unfold slice. now rewrite skipn_map, firstn_map. Qed.

(** The rows of a window, by position. *)
Lemma trailing_position (w i : nat) (daily : list Daily.bar) (b : Daily.bar) :
  In b (trailing w i daily) ->
  exists j, (i + 1 - w <= j < i + 1 - w + w)%nat /\ nth_error daily j = Some b.
Proof.
  unfold trailing. intro H. apply In_nth_error in H. destruct H as [k H].
  rewrite nth_error_firstn in H. destruct (Nat.ltb_spec k w) as [Hk|Hk]; [|discriminate].
  rewrite nth_error_skipn in H. exists (i + 1 - w + k)%nat. split; [lia | exact H].
Qed.

Lemma position_trailing (w i j : nat) (daily : list Daily.bar) (b : Daily.bar) :
  (i + 1 - w <= j < i + 1 - w + w)%nat -> nth_error daily j = Some b ->
  In b (trailing w i daily).
Proof.
  intros Hj H. unfold trailing.
  apply (nth_error_In _ (j - (i + 1 - w))).
  rewrite nth_error_firstn. destruct (Nat.ltb_spec (j - (i + 1 - w)) w); [|lia].
  rewrite nth_error_skipn. now replace (i + 1 - w + (j - (i + 1 - w)))%nat with j by lia.
Qed.

Lemma length_trailing (w i : nat) (daily : list Daily.bar) :
  (i < length daily)%nat -> (w <= i + 1)%nat -> length (trailing w i daily) = w.
Proof.
  intros Hi Hw. unfold trailing. rewrite length_firstn, length_skipn. lia.
Qed.

(** *** pandas' [roll_mean] *)


Lemma nobs_add (vals : list float) : forall st,
  nobs (fold_left (fun st val => add_mean val st) vals st)
  = (nobs st + length (filter present vals))%nat.
Proof.
  induction vals as [|v t IH]; intro st; simpl; [lia|].
  rewrite IH. unfold add_mean, present. destruct (v =? v); simpl; lia.
Qed.

Lemma nobs_remove (vals : list float) : forall st,
  nobs (fold_left (fun st val => remove_mean val st) vals st)
  = (nobs st - length (filter present vals))%nat.
Proof.
  induction vals as [|v t IH]; intro st; simpl; [lia|].
  rewrite IH. unfold remove_mean, present. destruct (v =? v); simpl; lia.
Qed.

Lemma values_in_app (values : list float) (a b c : nat) :
  (a <= b <= c)%nat ->
  values_in values a c = values_in values a b ++ values_in values b c.
Proof.
  intro H. unfold values_in. rewrite <- map_app. f_equal.
  replace (c - a)%nat with ((b - a) + (c - b))%nat by lia.
  rewrite seq_app. now replace (a + (b - a))%nat with b by lia.
Qed.

Lemma length_values_in (values : list float) (s e : nat) :
  length (values_in values s e) = (e - s)%nat.
Proof. unfold values_in. now rewrite length_map, length_seq. Qed.

Lemma values_in_one (values : list float) (i : nat) :
  values_in values i (i + 1) = [nth i values nan].
Proof. unfold values_in. now replace (i + 1 - i)%nat with 1%nat by lia. Qed.

Lemma count_app (values : list float) (a b c : nat) :
  (a <= b <= c)%nat -> count values a c = (count values a b + count values b c)%nat.
Proof.
  intro H. unfold count. now rewrite (values_in_app values a b c H), filter_app, length_app.
Qed.

Lemma count_le (values : list float) (s e : nat) : (count values s e <= e - s)%nat.
Proof.
  unfold count. rewrite <- (length_values_in values s e). apply filter_length_le.
Qed.

Lemma count_lt (values : list float) (s e j : nat) :
  (s <= j < e)%nat -> present (nth j values nan) = false ->
  (count values s e < e - s)%nat.
Proof.
  intros Hj Hp.
  rewrite (count_app values s j e) by lia.
  rewrite (count_app values j (j + 1) e) by lia.
  assert (H1 := count_le values s j). assert (H2 := count_le values (j + 1) e).
  assert (H3 : count values j (j + 1) = 0%nat).
  { unfold count. rewrite values_in_one. simpl. now rewrite Hp. }
  lia.
Qed.

Lemma count_full (values : list float) (s e : nat) :
  (forall j, (s <= j < e)%nat -> present (nth j values nan) = true) ->
  count values s e = (e - s)%nat.
Proof.
  intro H. unfold count. rewrite <- (length_values_in values s e). f_equal.
  apply filter_id. apply Forall_forall. intros v Hv.
  unfold values_in in Hv. apply in_map_iff in Hv. destruct Hv as [j [<- Hj]].
  apply in_seq in Hj. apply H. lia.
Qed.

Lemma nobs_setup (values : list float) (s e : nat) :
  nobs (setup values s e) = count values s e.
Proof. unfold setup. now rewrite nobs_add. Qed.

(** The number of values counted after round [i] is the number of
    values present in the window that ends at row [i]. *)
Lemma nobs_state_after (values : list float) (window : nat) :
  (0 < window)%nat ->
  forall i, nobs (state_after values window i)
            = count values (window_start window i) (window_end i).
Proof.
  intro Hw. induction i as [|k IH]; [apply nobs_setup|].
  cbn [state_after].
  destruct (Nat.leb_spec (window_end k) (window_start window (S k))) as [E|E];
    [apply nobs_setup|].
  rewrite nobs_add, nobs_remove, IH.
  unfold window_start, window_end in *.
  fold (count values (k + 1 - window) (S k + 1 - window)).
  fold (count values (k + 1) (S k + 1)).
  rewrite (count_app values (k + 1 - window) (S k + 1 - window) (k + 1)) by lia.
  rewrite (count_app values (S k + 1 - window) (k + 1) (S k + 1)) by lia.
  lia.
Qed.

Lemma calc_mean_short (minp : nat) (st : state) :
  (nobs st < minp)%nat -> calc_mean minp st = nan.
Proof.
  intro H. unfold calc_mean.
  destruct (Nat.leb_spec minp (nobs st)); [lia | reflexivity].
Qed.

Lemma nth_error_roll_mean (values : list float) (window minp i : nat) :
  (i < length values)%nat ->
  nth_error (roll_mean values window minp) i
  = Some (calc_mean minp (state_after values window i)).
Proof.
  intro H. unfold roll_mean.
  exact (nth_error_map_seq (fun i => calc_mean minp (state_after values window i)) _ i H).
Qed.

Lemma prep_values_nth (xs : list float) (j : nat) :
  nth j (Pandas.prep_values xs) nan
  = if is_infinity (nth j xs nan) then nan else nth j xs nan.
Proof.
  unfold Pandas.prep_values.
  exact (map_nth (fun v => if is_infinity v then nan else v) xs nan j).
Qed.

Lemma prep_values_absent (xs : list float) (j : nat) :
  is_finite (nth j xs nan) = false -> present (nth j (Pandas.prep_values xs) nan) = false.
Proof.
  rewrite prep_values_nth. unfold is_finite. intro H.
  destruct (is_infinity (nth j xs nan)); [reflexivity|].
  rewrite orb_false_r in H. apply negb_false_iff in H.
  unfold is_nan in H. unfold present. now apply negb_true_iff in H.
Qed.

Lemma prep_values_present (xs : list float) (j : nat) :
  is_finite (nth j xs nan) = true ->
  nth j (Pandas.prep_values xs) nan = nth j xs nan /\
  present (nth j xs nan) = true.
Proof.
  rewrite prep_values_nth. unfold is_finite. intro H.
  apply negb_true_iff, orb_false_iff in H. destruct H as [Hn Hi]. rewrite Hi.
  split; [reflexivity|]. unfold is_nan in Hn. unfold present.
  now apply negb_false_iff in Hn.
Qed.

Lemma length_rolling (w : nat) (xs : list float) :
  length (Pandas.rolling w xs) = length xs.
Proof.
  unfold Pandas.rolling, Pandas.rolling_mean, roll_mean, Pandas.prep_values.
  now rewrite length_map, length_seq, length_map.
Qed.

(** [rolling(w).mean()] is missing in a row whose window is not full
    of finite values: before row [w - 1], and wherever one of the [w]
    values that end at the row is missing or infinite. *)
Lemma rolling_incomplete (w : nat) (xs : list float) (i : nat) :
  (0 < w)%nat -> (i < length xs)%nat ->
  (i + 1 < w)%nat \/
  (exists j, (i + 1 - w <= j <= i)%nat /\ is_finite (nth j xs nan) = false) ->
  nth_error (Pandas.rolling w xs) i = Some nan.
Proof.
  intros Hw Hi H. unfold Pandas.rolling, Pandas.rolling_mean.
  rewrite nth_error_roll_mean
    by (unfold Pandas.prep_values; now rewrite length_map).
  f_equal. apply calc_mean_short. rewrite (nobs_state_after _ w Hw).
  unfold window_start, window_end.
  destruct H as [H | [j [Hj Hf]]].
  - assert (Hc := count_le (Pandas.prep_values xs) (i + 1 - w) (i + 1)). lia.
  - assert (Hc := count_lt (Pandas.prep_values xs) (i + 1 - w) (i + 1) j
                    ltac:(lia) (prep_values_absent xs j Hf)). lia.
Qed.

Lemma remove_keeps_run (vals : list float) : forall st,
  num_consecutive_same_value (fold_left (fun st val => remove_mean val st) vals st)
    = num_consecutive_same_value st /\
  prev_value (fold_left (fun st val => remove_mean val st) vals st) = prev_value st.
Proof.
  induction vals as [|v t IH]; intro st; simpl; [now split|].
  destruct (IH (remove_mean v st)) as [-> ->].
  unfold remove_mean. now destruct (v =? v).
Qed.

(** Every round ends by taking in the value of its row. *)
Lemma state_after_last (values : list float) (window i : nat) :
  (0 < window)%nat ->
  exists st,
    state_after values window i = add_mean (nth i values nan) st /\
    forall k, i = S k -> (2 <= window)%nat ->
      num_consecutive_same_value st
        = num_consecutive_same_value (state_after values window k) /\
      prev_value st = prev_value (state_after values window k).
Proof.
  intro Hw. destruct i as [|k].
  - eexists. split; [|discriminate].
    cbn [state_after]. unfold setup, window_start, window_end.
    replace (0 + 1 - window)%nat with 0%nat by lia.
    rewrite (values_in_one values 0). reflexivity.
  - cbn [state_after].
    destruct (Nat.leb_spec (window_end k) (window_start window (S k))) as [E|E];
      unfold window_start, window_end in *.
    + eexists. split; [|intros; lia].
      unfold setup. replace (S k + 1 - window)%nat with (S k) by lia.
      rewrite (values_in_one values (S k)). reflexivity.
    + eexists. split.
      * replace (S k + 1)%nat with (S k + 1)%nat by lia.
        change (k + 1)%nat with (k + 1)%nat.
        replace (k + 1)%nat with (S k) by lia.
        rewrite (values_in_one values (S k)). reflexivity.
      * intros k' Hk _. injection Hk as <-. apply remove_keeps_run.
Qed.

(** A run of equal values that ends at row [i] is counted in full, up
    to the size of the window. *)
Lemma run_counted (values : list float) (window : nat) (c : float) :
  (0 < window)%nat -> present c = true ->
  forall n i, (n + 1 <= window)%nat -> (n <= i)%nat ->
    (forall j, (i - n <= j <= i)%nat -> nth j values nan = c) ->
    (n + 1 <= num_consecutive_same_value (state_after values window i))%nat /\
    prev_value (state_after values window i) = c.
Proof.
  intros Hw Hc. unfold present in Hc. induction n as [|m IH]; intros i Hn Hi Hrun.
  - destruct (state_after_last values window i Hw) as [st [-> _]].
    rewrite (Hrun i) by lia. unfold add_mean. rewrite Hc. simpl.
    split; [|reflexivity]. destruct (c =? prev_value st); lia.
  - destruct i as [|k]; [lia|].
    destruct (IH k) as [Hnum Hprev]; [lia | lia | intros j Hj; apply Hrun; lia|].
    destruct (state_after_last values window (S k) Hw) as [st [-> Hst]].
    destruct (Hst k eq_refl ltac:(lia)) as [En Ep].
    rewrite (Hrun (S k)) by lia. unfold add_mean. rewrite Hc. simpl.
    rewrite Ep, Hprev, Hc, En. split; [lia | reflexivity].
Qed.

(** On a full window of one and the same finite value
    [rolling(w).mean()] returns that value. *)
Lemma rolling_constant (w : nat) (xs : list float) (i : nat) (c : float) :
  (0 < w)%nat -> (i < length xs)%nat -> (w <= i + 1)%nat ->
  is_finite c = true ->
  (forall j, (i + 1 - w <= j <= i)%nat -> nth j xs nan = c) ->
  nth_error (Pandas.rolling w xs) i = Some c.
Proof.
  intros Hw Hi Hfull Hc Hrun. unfold Pandas.rolling, Pandas.rolling_mean.
  rewrite nth_error_roll_mean
    by (unfold Pandas.prep_values; now rewrite length_map).
  f_equal.
  assert (Hv : forall j, (i + 1 - w <= j <= i)%nat ->
                 nth j (Pandas.prep_values xs) nan = c /\ present c = true).
  { intros j Hj. rewrite <- (Hrun j Hj) in Hc |- *. now apply prep_values_present. }
  assert (Hp : present c = true) by (apply (Hv i); lia).
  assert (Hn : nobs (state_after (Pandas.prep_values xs) w i) = w).
  { rewrite (nobs_state_after _ w Hw). unfold window_start, window_end.
    rewrite count_full; [lia|]. intros j Hj.
    destruct (Hv j) as [-> E]; [lia | exact E]. }
  destruct (run_counted (Pandas.prep_values xs) w c Hw Hp (w - 1) i) as [Hnum Hprev];
    [lia | lia | intros j Hj; apply Hv; lia|].
  unfold calc_mean. rewrite Hn.
  destruct (Nat.leb_spec w w); [|lia].
  destruct (Nat.ltb_spec 0 w); [|lia]. simpl.
  destruct (Nat.leb_spec w (num_consecutive_same_value
                              (state_after (Pandas.prep_values xs) w i))); [|lia].
  exact Hprev.
Qed.

(** *** zoo's [rollapply] of [mean] *)

Lemma length_rollapply (w : nat) (xs : list float) (f : list float -> float) (fill : float) :
  length (R.rollapply xs w f fill) = length xs.
Proof. unfold R.rollapply. now rewrite length_map, length_seq. Qed.

Lemma rollapply_row (width : nat) (FUN : list float -> float) (fill : float)
  (xs : list float) (i : nat) :
  (i < length xs)%nat ->
  nth_error (R.rollapply xs width FUN fill) i =
  Some (if (i + 1 <? width)%nat then fill
        else FUN (slice xs (i + 1 - width) (i + 1))).
Proof.
  intro Hi. unfold R.rollapply.
  exact (nth_error_map_seq
           (fun i => if (i + 1 <? width)%nat then fill
                     else FUN (slice xs (i + 1 - width) (i + 1))) _ i Hi).
Qed.

Lemma existsb_nan_member (xs : list float) (x : float) :
  In x xs -> defined x = false -> existsb is_nan xs = true.
Proof.
  intros Hin Hx. apply existsb_exists. exists x. split; [exact Hin|].
  unfold defined in Hx. now apply negb_false_iff in Hx.
Qed.

(** On a column that has a missing value [rollapply] takes its general
    path: NA before the window is full, then R's mean of each window,
    which is NA when a value of the window is. *)
Lemma rollapply_mean_row (mean_of_numbers : list float -> float)
  (rollmean : list float -> nat -> list float)
  (w : nat) (daily : list Daily.bar) (i : nat) :
  existsb is_nan (map Daily.Close daily) = true -> (i < length daily)%nat ->
  nth_error (R.rollapply_mean mean_of_numbers rollmean (map Daily.Close daily) w) i
  = Some (if (i + 1 <? w)%nat then R.NA
          else R.mean mean_of_numbers (map Daily.Close (trailing w i daily))).
Proof.
  intros Hna Hi. unfold R.rollapply_mean. rewrite Hna.
  rewrite rollapply_row by now rewrite length_map.
  destruct (Nat.ltb_spec (i + 1) w) as [E|E]; [reflexivity|].
  rewrite slice_closes. unfold trailing.
  now replace (i + 1 - (i + 1 - w))%nat with w by lia.
Qed.

Lemma close_at (daily : list Daily.bar) (j : nat) (b : Daily.bar) :
  nth_error daily j = Some b -> nth j (map Daily.Close daily) nan = Daily.Close b.
Proof. intro H. apply nth_error_nth. now rewrite nth_error_map, H. Qed.

(** pandas' moving average, row by row: missing before the window is
    full and wherever a close of the window is missing or infinite;
    the common close where the closes of the window are equal. *)
Lemma moving_average_pandas (w : nat) (daily : list Daily.bar) (i : nat) :
  (0 < w)%nat -> (i < length daily)%nat ->
  ((i + 1 < w)%nat -> nth_error (Pandas.rolling w (map Daily.Close daily)) i = Some nan)
  /\ ((w <= i + 1)%nat ->
      length (trailing w i daily) = w /\
      ((exists b, In b (trailing w i daily) /\ is_finite (Daily.Close b) = false) ->
         nth_error (Pandas.rolling w (map Daily.Close daily)) i = Some nan) /\
      (forall c, is_finite c = true ->
         (forall b, In b (trailing w i daily) -> Daily.Close b = c) ->
         nth_error (Pandas.rolling w (map Daily.Close daily)) i = Some c)).
Proof.
  intros Hw Hi.
  assert (Hlen : (i < length (map Daily.Close daily))%nat) by now rewrite length_map.
  split.
  - intro H. apply rolling_incomplete; auto.
  - intro Hfull. split; [now apply length_trailing | split].
    + intros (b & Hb & Hf). apply rolling_incomplete; auto. right.
      destruct (trailing_position w i daily b Hb) as [j [Hj Hnth]].
      exists j. split; [lia|]. now rewrite (close_at daily j b Hnth).
    + intros c Hc Hall. apply rolling_constant; auto.
      intros j Hj.
      destruct (nth_error daily j) as [b|] eqn:Hnth.
      * rewrite (close_at daily j b Hnth). apply Hall.
        apply (position_trailing w i j daily b); [lia | exact Hnth].
      * apply nth_error_None in Hnth. lia.
Qed.

End RollingFacts.

(** ** Facts about rolling means of prices on a grid *)

Section GridFacts.

Import F64 Spec Pandas.RollMean.
Local Open Scope float_scope.

Lemma units_present (x : float) (u : Z) : units x = Some u -> present x = true.
Proof.
  unfold units, present. rewrite eqb_spec.
  destruct (Prim2SF x) as [s| | |s m e]; try discriminate; intros _.
  - reflexivity.
  - unfold SFeqb, SFcompare. rewrite Z.compare_refl.
    change (Pos.compare_cont Eq m m) with (Pos.compare m m).
    rewrite Pos.compare_refl. now destruct s.
Qed.

Lemma absent_units (x : float) : present x = false -> units x = None.
Proof.
  intro H. destruct (units x) as [u|] eqn:E; [|reflexivity].
  apply units_present in E. congruence.
Qed.

Lemma grid_units (x : float) :
  on_quarter_grid x = true ->
  exists u, units x = Some u /\ (0 < u)%Z /\ (2 ^ 1072 | u)%Z /\ (u < 2 ^ 1118)%Z.
Proof.
  unfold on_quarter_grid. destruct (units x) as [u|]; [|discriminate].
  intro H. apply andb_prop in H. destruct H as [H H3].
  apply andb_prop in H. destruct H as [H1 H2].
  exists u. split; [reflexivity|].
  apply Z.ltb_lt in H1. apply Z.ltb_lt in H3. apply Z.eqb_eq in H2.
  split; [exact H1 | split; [|exact H3]].
  apply Z.mod_divide; [|exact H2]. apply Z.pow_nonzero; lia.
Qed.

Lemma positive_finite (x : float) (u : Z) :
  units x = Some u -> (0 < u)%Z -> exists m e, Prim2SF x = S754_finite false m e.
Proof.
  unfold units. destruct (Prim2SF x) as [s| | |s m e]; try discriminate; intros E Hu.
  - injection E as <-. lia.
  - apply Some_eq in E. destruct s; [|now exists m, e].
    assert (0 <= Z.pos m * 2 ^ (e + 1074))%Z by (apply Z.mul_nonneg_nonneg; [lia | apply Z.pow_nonneg; lia]).
    cbn [cond_Zopp] in E. lia.
Qed.

Lemma signbit_positive (x : float) (u : Z) :
  units x = Some u -> (0 < u)%Z -> signbit x = false.
Proof.
  intros E Hu. destruct (positive_finite x u E Hu) as (m & e & Ex).
  unfold signbit, get_sign, is_zero. rewrite eqb_spec, Ex.
  change (Prim2SF zero) with (S754_zero false). cbn.
  rewrite ltb_spec, Ex. reflexivity.
Qed.

Lemma opp_units (x : float) (u : Z) : units x = Some u -> units (- x) = Some (- u)%Z.
Proof.
  unfold units. rewrite opp_spec.
  destruct (Prim2SF x) as [s| | |s m e]; try discriminate; intro E; apply Some_eq in E; subst u.
  - reflexivity.
  - cbn [SFopp]. f_equal. destruct s; cbn [negb cond_Zopp]; lia.
Qed.

Lemma units_zero : units 0 = Some 0%Z.
Proof. reflexivity. Qed.

(** Taking a grid price into the running sum is exact, and leaves the
    compensation at zero. *)
Lemma add_mean_grid (val : float) (st : state) (T u : Z) :
  units (sum_x st) = Some T -> (2 ^ 1072 | T)%Z -> (0 <= T)%Z ->
  units (compensation_add st) = Some 0%Z ->
  units val = Some u -> (0 < u)%Z -> (2 ^ 1072 | u)%Z -> (T + u < 2 ^ 1125)%Z ->
  units (sum_x (add_mean val st)) = Some (T + u)%Z /\
  units (compensation_add (add_mean val st)) = Some 0%Z /\
  compensation_remove (add_mean val st) = compensation_remove st /\
  neg_ct (add_mean val st) = neg_ct st.
Proof.
  intros HT DT PT Hc Hu Pu Du Hb.
  assert (Hg : (0 <= 1072 <= 2045)%Z) by lia.
  assert (D0 : (2 ^ 1072 | 0)%Z) by apply Z.divide_0_r.
  change (2 ^ 1125)%Z with (2 ^ (1072 + 53))%Z in Hb.
  pose proof (units_present val u Hu) as Hp. unfold present in Hp.
  unfold add_mean. rewrite Hp. cbn [sum_x compensation_add compensation_remove neg_ct].
  rewrite (signbit_positive val u Hu Pu).
  assert (Hy : units (val - compensation_add st) = Some u).
  { rewrite (sub_exact 1072 val _ u 0 Hu Hc Hg Du D0) by (rewrite Z.abs_eq; lia).
    f_equal. lia. }
  assert (Ht : units (sum_x st + (val - compensation_add st)) = Some (T + u)%Z).
  { apply (add_exact 1072); auto. rewrite Z.abs_eq; lia. }
  assert (Hd : units (sum_x st + (val - compensation_add st) - sum_x st) = Some u).
  { rewrite (sub_exact 1072 _ _ (T + u) T Ht HT Hg) ;
      [f_equal; lia | now apply Z.divide_add_r | exact DT | rewrite Z.abs_eq; lia]. }
  split; [exact Ht|]. split; [|split; reflexivity].
  rewrite (sub_exact 1072 _ _ u u Hd Hy Hg Du Du); [f_equal; lia|].
  rewrite Z.sub_diag. simpl Z.abs. apply Z.pow_pos_nonneg; lia.
Qed.

(** Taking a grid price out of the running sum is exact as well. *)
Lemma remove_mean_grid (val : float) (st : state) (T u : Z) :
  units (sum_x st) = Some T -> (2 ^ 1072 | T)%Z -> (0 <= T < 2 ^ 1125)%Z ->
  units (compensation_remove st) = Some 0%Z ->
  units val = Some u -> (0 < u < 2 ^ 1125)%Z -> (2 ^ 1072 | u)%Z ->
  units (sum_x (remove_mean val st)) = Some (T - u)%Z /\
  units (compensation_remove (remove_mean val st)) = Some 0%Z /\
  compensation_add (remove_mean val st) = compensation_add st /\
  neg_ct (remove_mean val st) = neg_ct st.
Proof.
  intros HT DT PT Hc Hu Pu Du.
  assert (Hg : (0 <= 1072 <= 2045)%Z) by lia.
  assert (D0 : (2 ^ 1072 | 0)%Z) by apply Z.divide_0_r.
  assert (Dn : (2 ^ 1072 | - u)%Z) by now apply Z.divide_opp_r.
  change (2 ^ 1125)%Z with (2 ^ (1072 + 53))%Z in *.
  pose proof (units_present val u Hu) as Hp. unfold present in Hp.
  unfold remove_mean. rewrite Hp. cbn [sum_x compensation_add compensation_remove neg_ct].
  rewrite (signbit_positive val u Hu ltac:(lia)).
  assert (Hy : units (- val - compensation_remove st) = Some (- u)%Z).
  { rewrite (sub_exact 1072 (- val) _ (- u) 0 (opp_units val u Hu) Hc Hg Dn D0)
      by (rewrite Z.abs_neq; lia).
    f_equal. lia. }
  assert (Ht : units (sum_x st + (- val - compensation_remove st)) = Some (T - u)%Z).
  { rewrite (add_exact 1072 _ _ T (- u) HT Hy Hg DT Dn); [f_equal; lia|]. lia. }
  assert (Hd : units (sum_x st + (- val - compensation_remove st) - sum_x st) = Some (- u)%Z).
  { rewrite (sub_exact 1072 _ _ (T - u) T Ht HT Hg);
      [f_equal; lia | now apply Z.divide_sub_r | exact DT | lia]. }
  split; [exact Ht|]. split; [|split; reflexivity].
  rewrite (sub_exact 1072 _ _ (- u) (- u) Hd Hy Hg Dn Dn); [f_equal; lia|].
  rewrite Z.sub_diag. simpl Z.abs. apply Z.pow_pos_nonneg; lia.
Qed.

Lemma present_total_cons (v : float) (t : list float) :
  present_total (v :: t)
  = (match units v with Some u => u | None => 0 end + present_total t)%Z.
Proof. unfold present_total. cbn [map]. apply total_cons. Qed.

Lemma present_total_app (xs ys : list float) :
  present_total (xs ++ ys) = (present_total xs + present_total ys)%Z.
Proof.
  induction xs as [|v t IH]; [reflexivity|].
  cbn [app]. rewrite !present_total_cons, IH. lia.
Qed.

(** The total of a column of grid prices and missing values. *)
Lemma present_total_bounds (xs : list float) :
  (forall v, In v xs -> present v = false \/ on_quarter_grid v = true) ->
  (0 <= present_total xs <= Z.of_nat (length xs) * 2 ^ 1118)%Z /\
  (2 ^ 1072 | present_total xs)%Z.
Proof.
  induction xs as [|v t IH]; intro H.
  - split; [cbn; lia | apply Z.divide_0_r].
  - destruct IH as [IH1 IH2]; [intros x Hx; apply H; now right|].
    rewrite present_total_cons. cbn [length]. rewrite Nat2Z.inj_succ.
    destruct (H v (or_introl eq_refl)) as [Hv|Hv].
    + rewrite (absent_units v Hv). split; [lia | exact IH2].
    + destruct (grid_units v Hv) as (u & -> & Hu & Du & Bu).
      split; [lia | now apply Z.divide_add_r].
Qed.

Lemma total_units_grid (xs : list float) :
  (forall v, In v xs -> on_quarter_grid v = true) ->
  total_units xs = Some (present_total xs).
Proof.
  induction xs as [|v t IH]; intro H; [reflexivity|].
  rewrite present_total_cons. cbn [total_units fold_right].
  fold (total_units t). rewrite IH by (intros x Hx; apply H; now right).
  destruct (grid_units v (H v (or_introl eq_refl))) as (u & -> & _). reflexivity.
Qed.

Lemma add_fold_grid (vals : list float) : forall (st : state) (T : Z),
  (forall v, In v vals -> present v = false \/ on_quarter_grid v = true) ->
  units (sum_x st) = Some T -> (2 ^ 1072 | T)%Z -> (0 <= T)%Z ->
  units (compensation_add st) = Some 0%Z ->
  (T + present_total vals < 2 ^ 1125)%Z ->
  let st' := fold_left (fun st val => add_mean val st) vals st in
  units (sum_x st') = Some (T + present_total vals)%Z /\
  units (compensation_add st') = Some 0%Z /\
  compensation_remove st' = compensation_remove st /\
  neg_ct st' = neg_ct st.
Proof.
  induction vals as [|v t IH]; intros st T H HT DT PT Hc Hb; cbn [fold_left].
  - change (present_total []) with 0%Z. rewrite Z.add_0_r. auto.
  - rewrite present_total_cons in Hb |- *.
    destruct (present_total_bounds t) as [[Bt _] _]; [intros x Hx; apply H; now right|].
    destruct (H v (or_introl eq_refl)) as [Hv|Hv].
    + rewrite (absent_units v Hv) in Hb |- *.
      assert (Es : add_mean v st = st).
      { unfold add_mean. unfold present in Hv. now rewrite Hv. }
      rewrite Es. apply IH; auto. intros x Hx; apply H; now right.
    + destruct (grid_units v Hv) as (u & Eu & Hu & Du & Bu). rewrite Eu in Hb |- *.
      destruct (add_mean_grid v st T u HT DT PT Hc Eu Hu Du ltac:(lia)) as (A1 & A2 & A3 & A4).
      destruct (IH (add_mean v st) (T + u)%Z) as (B1 & B2 & B3 & B4); auto.
      * intros x Hx; apply H; now right.
      * now apply Z.divide_add_r.
      * lia.
      * lia.
      * rewrite B1, B2, B3, B4, A3, A4. repeat split. f_equal. lia.
Qed.

Lemma remove_fold_grid (vals : list float) : forall (st : state) (T : Z),
  (forall v, In v vals -> present v = false \/ on_quarter_grid v = true) ->
  units (sum_x st) = Some T -> (2 ^ 1072 | T)%Z -> (T < 2 ^ 1125)%Z ->
  units (compensation_remove st) = Some 0%Z ->
  (present_total vals <= T)%Z ->
  let st' := fold_left (fun st val => remove_mean val st) vals st in
  units (sum_x st') = Some (T - present_total vals)%Z /\
  units (compensation_remove st') = Some 0%Z /\
  compensation_add st' = compensation_add st /\
  neg_ct st' = neg_ct st.
Proof.
  induction vals as [|v t IH]; intros st T H HT DT PT Hc Hb; cbn [fold_left].
  - change (present_total []) with 0%Z. rewrite Z.sub_0_r. auto.
  - rewrite present_total_cons in Hb |- *.
    destruct (present_total_bounds t) as [[Bt _] _]; [intros x Hx; apply H; now right|].
    destruct (H v (or_introl eq_refl)) as [Hv|Hv].
    + rewrite (absent_units v Hv) in Hb |- *.
      assert (Es : remove_mean v st = st).
      { unfold remove_mean. unfold present in Hv. now rewrite Hv. }
      rewrite Es. apply IH; auto. intros x Hx; apply H; now right.
    + destruct (grid_units v Hv) as (u & Eu & Hu & Du & Bu). rewrite Eu in Hb |- *.
      assert (B : (2 ^ 1118 < 2 ^ 1125)%Z) by reflexivity.
      destruct (remove_mean_grid v st T u HT DT ltac:(lia) Hc Eu ltac:(lia) Du)
        as (A1 & A2 & A3 & A4).
      destruct (IH (remove_mean v st) (T - u)%Z) as (B1 & B2 & B3 & B4); auto.
      * intros x Hx; apply H; now right.
      * now apply Z.divide_sub_r.
      * lia.
      * lia.
      * rewrite B1, B2, B3, B4, A3, A4. repeat split. f_equal. lia.
Qed.

Lemma values_in_member (values : list float) (s e : nat) (v : float) :
  In v (values_in values s e) -> exists j, (s <= j < e)%nat /\ v = nth j values nan.
Proof.
  unfold values_in. intro H. apply in_map_iff in H. destruct H as [j [<- Hj]].
  apply in_seq in Hj. exists j. split; [lia | reflexivity].
Qed.

Lemma present_total_range (values : list float) (a b c : nat) :
  (a <= b <= c)%nat ->
  present_total (values_in values a c)
  = (present_total (values_in values a b) + present_total (values_in values b c))%Z.
Proof. intro H. now rewrite (values_in_app values a b c H), present_total_app. Qed.

Section Window.

Variable values : list float.
Variable i : nat.
Hypothesis on_grid : forall j, (j <= i)%nat ->
  present (nth j values nan) = false \/ on_quarter_grid (nth j values nan) = true.

Lemma range_on_grid (s e : nat) (v : float) :
  (e <= i + 1)%nat -> In v (values_in values s e) ->
  present v = false \/ on_quarter_grid v = true.
Proof.
  intros He Hv. destruct (values_in_member values s e v Hv) as [j [Hj ->]].
  apply on_grid. lia.
Qed.

Lemma range_total (s e : nat) :
  (e <= i + 1)%nat -> (e - s <= 64)%nat ->
  (0 <= present_total (values_in values s e) < 2 ^ 1125)%Z /\
  (2 ^ 1072 | present_total (values_in values s e))%Z.
Proof.
  intros He Hw.
  destruct (present_total_bounds (values_in values s e)) as [[B1 B2] D].
  { intros v Hv. now apply (range_on_grid s e). }
  rewrite length_values_in in B2.
  assert (P : (0 < 2 ^ 1118)%Z) by reflexivity.
  assert (Q : (64 * 2 ^ 1118 < 2 ^ 1125)%Z) by reflexivity.
  split; [split; [exact B1|] | exact D].
  eapply Z.le_lt_trans; [exact B2|]. eapply Z.le_lt_trans; [|exact Q].
  apply Z.mul_le_mono_nonneg_r; lia.
Qed.

Lemma grid_setup (s e : nat) :
  (e <= i + 1)%nat -> (e - s <= 64)%nat ->
  units (sum_x (setup values s e)) = Some (present_total (values_in values s e)) /\
  units (compensation_add (setup values s e)) = Some 0%Z /\
  units (compensation_remove (setup values s e)) = Some 0%Z /\
  neg_ct (setup values s e) = 0%nat.
Proof.
  intros He Hw. destruct (range_total s e He Hw) as [[B1 B2] D].
  unfold setup.
  destruct (add_fold_grid (values_in values s e) (mk 0 0 0 0 0 0 (nth s values nan)) 0%Z)
    as (A1 & A2 & A3 & A4); auto.
  - intros v Hv. now apply (range_on_grid s e).
  - apply Z.divide_0_r.
  - lia.
  - rewrite A1, A2, A3, A4. repeat split.
Qed.

End Window.

(** On a column of grid prices and missing values the running sum of
    [roll_mean] is, after every round, the exact total of the prices in
    the window, and its compensation terms are zero. *)
Lemma grid_state (values : list float) (window : nat) :
  (0 < window <= 64)%nat ->
  forall i,
    (forall j, (j <= i)%nat ->
       present (nth j values nan) = false \/ on_quarter_grid (nth j values nan) = true) ->
    units (sum_x (state_after values window i))
      = Some (present_total (values_in values (window_start window i) (window_end i))) /\
    units (compensation_add (state_after values window i)) = Some 0%Z /\
    units (compensation_remove (state_after values window i)) = Some 0%Z /\
    neg_ct (state_after values window i) = 0%nat.
Proof.
  intro Hw. induction i as [|k IH]; intro Hg.
  - cbn [state_after]. apply (grid_setup values 0 Hg); unfold window_start, window_end; lia.
  - cbn [state_after].
    destruct (Nat.leb_spec (window_end k) (window_start window (S k))) as [E|E];
      unfold window_start, window_end in *.
    + apply (grid_setup values (S k) Hg); lia.
    + destruct IH as (I1 & I2 & I3 & I4); [intros j Hj; apply Hg; lia|].
      set (s0 := (k + 1 - window)%nat) in *. set (s1 := (S k + 1 - window)%nat) in *.
      assert (Hs : (s0 <= s1 <= k + 1)%nat) by (unfold s0, s1; lia).
      destruct (range_total values (S k) Hg s0 (k + 1)) as [[P0 Q0] D0]; [lia | unfold s0; lia|].
      destruct (range_total values (S k) Hg s1 (k + 1)) as [[P1 Q1] D1]; [lia | unfold s1; lia|].
      destruct (range_total values (S k) Hg s1 (S k + 1)) as [[P2 Q2] D2]; [lia | unfold s1; lia|].
      pose proof (present_total_range values s0 s1 (k + 1) Hs) as R0.
      pose proof (present_total_range values s1 (k + 1) (S k + 1) ltac:(lia)) as R1.
      destruct (remove_fold_grid (values_in values s0 s1) (state_after values window k)
                  _ ltac:(intros v Hv; apply (range_on_grid values (S k) Hg s0 s1 v); [lia | exact Hv])
                  I1 D0 Q0 I3 ltac:(lia)) as (A1 & A2 & A3 & A4).
      destruct (add_fold_grid (values_in values (k + 1) (S k + 1)) _ _
                  ltac:(intros v Hv; apply (range_on_grid values (S k) Hg (k + 1) (S k + 1) v); [lia | exact Hv])
                  A1) as (B1 & B2 & B3 & B4).
      * replace (present_total (values_in values s0 (k + 1)) - present_total (values_in values s0 s1))%Z
          with (present_total (values_in values s1 (k + 1))) by lia. exact D1.
      * lia.
      * rewrite A3. exact I2.
      * lia.
      * rewrite B1, B2, B3, B4, A2, A4, I4. repeat split. f_equal. lia.
Qed.

Lemma grid_eqb_eq (x y : float) :
  on_quarter_grid x = true -> on_quarter_grid y = true -> (x =? y) = true -> x = y.
Proof.
  intros Hx Hy H.
  destruct (grid_units x Hx) as (ux & Ex & Px & _).
  destruct (grid_units y Hy) as (uy & Ey & Py & _).
  destruct (positive_finite x ux Ex Px) as (mx & ex & Sx).
  destruct (positive_finite y uy Ey Py) as (my & ey & Sy).
  apply Prim2SF_inj. rewrite Sx, Sy.
  rewrite eqb_spec, Sx, Sy in H. unfold SFeqb, SFcompare in H.
  destruct (Z.compare_spec ex ey) as [E|E|E]; try discriminate.
  change (Pos.compare_cont Eq mx my) with (Pos.compare mx my) in H.
  destruct (Pos.compare_spec mx my) as [E'|E'|E']; try discriminate.
  now subst.
Qed.

Lemma grid_finite (x : float) : on_quarter_grid x = true -> is_finite x = true.
Proof.
  intro H. destruct (grid_units x H) as (u & E & P & _).
  destruct (positive_finite x u E P) as (m & e & S).
  pose proof (units_present x u E) as Hp. unfold present in Hp.
  unfold is_finite, is_nan, is_infinity. rewrite Hp.
  rewrite eqb_spec, abs_spec, S. reflexivity.
Qed.

Lemma prev_value_last (values : list float) (window i : nat) :
  (0 < window)%nat -> present (nth i values nan) = true ->
  prev_value (state_after values window i) = nth i values nan.
Proof.
  intros Hw Hp. destruct (state_after_last values window i Hw) as [st [-> _]].
  unfold add_mean. unfold present in Hp. now rewrite Hp.
Qed.

(** The run counter of [roll_mean] counts no more than the equal values
    that end at the row. *)
Lemma run_bound (values : list float) (window : nat) :
  (2 <= window)%nat ->
  forall n i, (n <= i)%nat ->
    (forall j, (i - n <= j <= i)%nat -> on_quarter_grid (nth j values nan) = true) ->
    (n + 1 <= num_consecutive_same_value (state_after values window i))%nat ->
    forall j, (i - n <= j <= i)%nat -> nth j values nan = nth i values nan.
Proof.
  intro Hw. induction n as [|m IH]; intros i Hn Hg Hc j Hj.
  - now replace j with i by lia.
  - destruct i as [|k]; [lia|].
    assert (Gk : on_quarter_grid (nth k values nan) = true) by (apply Hg; lia).
    assert (GS : on_quarter_grid (nth (S k) values nan) = true) by (apply Hg; lia).
    destruct (grid_units _ Gk) as (uk & Ek & _).
    destruct (grid_units _ GS) as (uS & ES & _).
    pose proof (units_present _ _ ES) as PS. unfold present in PS.
    destruct (state_after_last values window (S k) ltac:(lia)) as [st [Est Hst]].
    destruct (Hst k eq_refl Hw) as [En Ep].
    rewrite Est in Hc. unfold add_mean in Hc. rewrite PS in Hc.
    cbn [num_consecutive_same_value] in Hc.
    rewrite Ep, (prev_value_last values window k ltac:(lia) (units_present _ _ Ek)) in Hc.
    destruct (nth (S k) values nan =? nth k values nan) eqn:Eq; [|lia].
    apply (grid_eqb_eq _ _ GS Gk) in Eq.
    destruct (Nat.eq_dec j (S k)) as [->|Hne]; [reflexivity|].
    rewrite Eq. apply (IH k); try lia.
    intros j' Hj'. apply Hg. lia.
Qed.

Lemma binary_round_aux_sign (s : bool) (m e : Z) (l : location) :
  match binary_round_aux prec emax s m e l with
  | S754_zero s' | S754_infinity s' | S754_finite s' _ _ => s' = s
  | S754_nan => True
  end.
Proof.
  unfold binary_round_aux.
  destruct (shr_fexp prec emax m e l) as [mrs' e'].
  destruct (shr_fexp prec emax _ e' loc_Exact) as [mrs'' e''].
  destruct (shr_m mrs''); [reflexivity | | exact I].
  destruct (e'' <=? emax - prec)%Z; reflexivity.
Qed.

(** A positive number divided by a positive number is not below 0. *)
Lemma div_positive (s d : float) (u : Z) :
  units s = Some u -> (0 < u)%Z -> (0 <? d) = true -> (s / d <? 0) = false.
Proof.
  intros E P Hd. destruct (positive_finite s u E P) as (m & e & S).
  rewrite ltb_spec in Hd |- *. rewrite div_spec, S.
  change (Prim2SF 0) with (S754_zero false) in *.
  destruct (Prim2SF d) as [sd|sd| |sd md ed]; try discriminate.
  - destruct sd; [discriminate | reflexivity].
  - destruct sd; [discriminate|].
    unfold SF64div, SFdiv.
    destruct (SFdiv_core_binary prec emax (Z.pos m) e (Z.pos md) ed) as [[mz ez] lz].
    pose proof (binary_round_aux_sign (xorb false false) mz ez lz) as H.
    destruct (binary_round_aux prec emax (xorb false false) mz ez lz) as [s'|s'| |s' m' e'];
      try reflexivity; cbn in H; subst s'; reflexivity.
Qed.

Lemma values_in_slice (xs : list float) (s e : nat) :
  (e <= length xs)%nat -> values_in xs s e = slice xs s e.
Proof.
  intro He. apply nth_error_ext. intro k.
  unfold values_in, slice.
  rewrite nth_error_map, nth_error_seq, nth_error_firstn, nth_error_skipn.
  destruct (Nat.ltb_spec k (e - s)) as [Hk|Hk]; [|reflexivity].
  cbn [option_map]. symmetry. apply nth_error_nth'. lia.
Qed.

(** On a full window of grid prices that are not all equal,
    [rolling(w).mean()] is the exact sum of the window divided by [w]
    in binary64. *)
Lemma rolling_grid (w : nat) (xs : list float) (i : nat) :
  (0 < w <= 64)%nat -> (0 <? of_nat w) = true ->
  (i < length xs)%nat -> (w <= i + 1)%nat ->
  (forall j, (j <= i)%nat ->
     is_finite (nth j xs nan) = false \/ on_quarter_grid (nth j xs nan) = true) ->
  (forall j, (i + 1 - w <= j <= i)%nat -> on_quarter_grid (nth j xs nan) = true) ->
  (exists j, (i + 1 - w <= j <= i)%nat /\ nth j xs nan <> nth i xs nan) ->
  exists s,
    units s = Some (present_total (slice xs (i + 1 - w) (i + 1))) /\
    nth_error (Pandas.rolling w xs) i = Some (s / of_nat w).
Proof.
  intros Hw Hd Hi Hfull Hhist Hwin (j0 & Hj0 & Hne).
  set (vs := Pandas.prep_values xs).
  assert (Hv : forall j, (i + 1 - w <= j <= i)%nat ->
                 nth j vs nan = nth j xs nan).
  { intros j Hj. apply prep_values_present. apply grid_finite. now apply Hwin. }
  assert (Hg : forall j, (j <= i)%nat ->
                 present (nth j vs nan) = false \/ on_quarter_grid (nth j vs nan) = true).
  { intros j Hj. destruct (Hhist j Hj) as [H|H].
    - left. now apply prep_values_absent.
    - right. unfold vs. destruct (prep_values_present xs j (grid_finite _ H)) as [-> _].
      exact H. }
  destruct (grid_state vs w Hw i Hg) as (I1 & _ & _ & I4).
  unfold window_start, window_end in I1.
  assert (Hvals : values_in vs (i + 1 - w) (i + 1) = slice xs (i + 1 - w) (i + 1)).
  { rewrite <- (values_in_slice xs) by lia. unfold values_in. apply map_ext_in.
    intros j Hj. apply in_seq in Hj. apply Hv. lia. }
  rewrite Hvals in I1.
  exists (sum_x (state_after vs w i)). split; [exact I1|].
  unfold Pandas.rolling, Pandas.rolling_mean. fold vs.
  rewrite nth_error_roll_mean by (unfold vs, Pandas.prep_values; now rewrite length_map).
  f_equal.
  assert (Hn : nobs (state_after vs w i) = w).
  { rewrite (nobs_state_after _ w ltac:(lia)). unfold window_start, window_end.
    rewrite count_full; [lia|]. intros j Hj. rewrite Hv by lia.
    destruct (grid_units _ (Hwin j ltac:(lia))) as (u & E & _).
    exact (units_present _ _ E). }
  assert (Hrun : (num_consecutive_same_value (state_after vs w i) < w)%nat).
  { destruct (Nat.lt_ge_cases (num_consecutive_same_value (state_after vs w i)) w) as [H|H];
      [exact H|]. exfalso. apply Hne.
    assert (Hw2 : (2 <= w)%nat).
    { destruct (Nat.eq_dec j0 i) as [->|]; [now contradiction Hne | lia]. }
    rewrite <- (Hv j0), <- (Hv i) by lia.
    apply (run_bound vs w Hw2 (w - 1) i); try lia.
    intros j Hj. rewrite Hv by lia. apply Hwin. lia. }
  assert (Hpos : (0 < present_total (slice xs (i + 1 - w) (i + 1)))%Z).
  { rewrite <- Hvals.
    rewrite (present_total_range vs (i + 1 - w) i (i + 1)) by lia.
    destruct (range_total vs i Hg (i + 1 - w) i) as [[P _] _]; [lia | lia|].
    rewrite values_in_one, present_total_cons, Hv by lia.
    destruct (grid_units _ (Hwin i ltac:(lia))) as (u & -> & Pu & _).
    change (present_total []) with 0%Z. lia. }
  unfold calc_mean. rewrite Hn, I4.
  destruct (Nat.leb_spec w w); [|lia].
  destruct (Nat.ltb_spec 0 w); [|lia]. cbn [andb].
  destruct (Nat.leb_spec w (num_consecutive_same_value (state_after vs w i))); [lia|].
  rewrite (div_positive _ _ _ I1 Hpos Hd). rewrite andb_false_r.
  destruct (Nat.eqb_spec 0 w); [lia | reflexivity].
Qed.

(** The same for the closes of a daily frame. *)
Lemma moving_average_on_grid (w : nat) (daily : list Daily.bar) (i : nat) :
  (0 < w <= 64)%nat -> (0 <? of_nat w) = true ->
  (i < length daily)%nat -> (w <= i + 1)%nat ->
  (forall b, In b (firstn (i + 1) daily) ->
     is_finite (Daily.Close b) = false \/ on_quarter_grid (Daily.Close b) = true) ->
  (forall b, In b (trailing w i daily) -> on_quarter_grid (Daily.Close b) = true) ->
  (exists b b', In b (trailing w i daily) /\ In b' (trailing w i daily) /\
                Daily.Close b <> Daily.Close b') ->
  exists s,
    units s = Some (present_total (map Daily.Close (trailing w i daily))) /\
    nth_error (Pandas.rolling w (map Daily.Close daily)) i = Some (s / of_nat w).
Proof.
  intros Hw Hd Hi Hfull Hhist Hwin (b & b' & Hb & Hb' & Hne).
  assert (Hrow : forall j, (j < length daily)%nat ->
            exists r, nth_error daily j = Some r /\
                      nth j (map Daily.Close daily) nan = Daily.Close r).
  { intros j Hj. destruct (nth_error daily j) as [r|] eqn:E.
    - exists r. split; [reflexivity | now apply close_at].
    - apply nth_error_None in E. lia. }
  destruct (rolling_grid w (map Daily.Close daily) i Hw Hd) as (s & Hs & Hv).
  - now rewrite length_map.
  - exact Hfull.
  - intros j Hj. destruct (Hrow j ltac:(lia)) as (r & Er & ->). apply Hhist.
    apply (nth_error_In _ j). rewrite nth_error_firstn.
    destruct (Nat.ltb_spec j (i + 1)); [exact Er | lia].
  - intros j Hj. destruct (Hrow j ltac:(lia)) as (r & Er & ->). apply Hwin.
    apply (position_trailing w i j daily r); [lia | exact Er].
  - destruct (Hrow i Hi) as (ri & Eri & Ci). rewrite Ci.
    destruct (trailing_position w i daily b Hb) as (j & Hj & Ej).
    destruct (trailing_position w i daily b' Hb') as (j' & Hj' & Ej').
    destruct (grid_units _ (Hwin b Hb)) as (u & Eu & _).
    destruct (grid_units _ (Hwin b' Hb')) as (u' & Eu' & _).
    assert (Hdec : forall x y : float, on_quarter_grid x = true -> on_quarter_grid y = true ->
                     x = y \/ x <> y).
    { intros x y Gx Gy. destruct (x =? y) eqn:E.
      - left. now apply grid_eqb_eq.
      - right. intros ->. destruct (grid_units _ Gy) as (uy & Ey & _).
        pose proof (units_present _ _ Ey) as P. unfold present in P. congruence. }
    assert (Gi : on_quarter_grid (Daily.Close ri) = true).
    { apply Hwin. apply (position_trailing w i i daily ri); [lia | exact Eri]. }
    destruct (Hdec (Daily.Close b) (Daily.Close ri) (Hwin b Hb) Gi) as [E|E].
    + exists j'. split; [lia|]. rewrite (close_at daily j' b' Ej'). congruence.
    + exists j. split; [lia|]. now rewrite (close_at daily j b Ej).
  - exists s. split; [|exact Hv].
    rewrite Hs, slice_closes. unfold trailing.
    now replace (i + 1 - (i + 1 - w))%nat with w by lia.
Qed.

(** Hence the moving average of such a window is the rounded mean of
    its closes. *)
Lemma moving_average_rounded (w : nat) (daily : list Daily.bar) (i : nat) :
  (0 < w <= 64)%nat -> (0 <? of_nat w) = true ->
  (i < length daily)%nat -> (w <= i + 1)%nat ->
  (forall b, In b (firstn (i + 1) daily) ->
     is_finite (Daily.Close b) = false \/ on_quarter_grid (Daily.Close b) = true) ->
  (forall b, In b (trailing w i daily) -> on_quarter_grid (Daily.Close b) = true) ->
  (exists b b', In b (trailing w i daily) /\ In b' (trailing w i daily) /\
                Daily.Close b <> Daily.Close b') ->
  exists v,
    nth_error (Pandas.rolling w (map Daily.Close daily)) i = Some v /\
    is_rounded_mean v (map Daily.Close (trailing w i daily)).
Proof.
  intros Hw Hd Hi Hfull Hhist Hwin Hvar.
  destruct (moving_average_on_grid w daily i Hw Hd Hi Hfull Hhist Hwin Hvar) as (s & Hs & Hv).
  exists (s / of_nat w). split; [exact Hv|].
  exists s, (present_total (map Daily.Close (trailing w i daily))).
  split; [|split; [exact Hs|]].
  - apply total_units_grid. intros v Hin. apply in_map_iff in Hin.
    destruct Hin as [b [<- Hb]]. now apply Hwin.
  - rewrite length_map, length_trailing by lia. reflexivity.
Qed.

End GridFacts.

(** ** Facts about daily returns *)

Section ReturnFacts.

Import F64 Spec.
Local Open Scope float_scope.

Lemma length_lag (xs : list float) : length (lag xs) = length xs.
Proof.
  destruct xs as [|x t]; [reflexivity|]. unfold lag.
  change (length (nan :: removelast (x :: t))) with (S (length (removelast (x :: t)))).
  rewrite removelast_firstn_len, length_firstn. simpl. lia.
Qed.

Lemma nth_error_removelast (xs : list float) : forall j,
  (j + 1 < length xs)%nat -> nth_error (removelast xs) j = nth_error xs j.
Proof.
  induction xs as [|x t IH]; intros j Hj; [reflexivity|].
  destruct t as [|y t']; [simpl in Hj; lia|].
  change (removelast (x :: y :: t')) with (x :: removelast (y :: t')).
  destruct j as [|j]; [reflexivity|].
  change (nth_error (removelast (y :: t')) j = nth_error (y :: t') j).
  apply IH. simpl in Hj |- *. lia.
Qed.

Lemma nth_error_lag (xs : list float) (i : nat) :
  (0 < i)%nat -> (i < length xs)%nat ->
  nth_error (lag xs) i = nth_error xs (i - 1).
Proof.
  intros H0 Hi. destruct xs as [|x t]; [simpl in Hi; lia|]. unfold lag.
  destruct i as [|j]; [lia|].
  replace (S j - 1)%nat with j by lia.
  change (nth_error (removelast (x :: t)) j = nth_error (x :: t) j).
  apply nth_error_removelast. simpl in Hi |- *. lia.
Qed.

Lemma nth_error_lag_first (x : float) (t : list float) :
  nth_error (lag (x :: t)) 0 = Some nan.
Proof. reflexivity. Qed.

Lemma length_ffill_from (xs : list float) : forall prev,
  length (Pandas.ffill_from prev xs) = length xs.
Proof. induction xs as [|x t IH]; intro prev; simpl; [reflexivity | now rewrite IH]. Qed.

Lemma nth_error_ffill_from (xs : list float) : forall prev i x,
  nth_error xs i = Some x -> defined x = true ->
  nth_error (Pandas.ffill_from prev xs) i = Some x.
Proof.
  induction xs as [|y t IH]; intros prev i x Hx Hd; [destruct i; discriminate|].
  destruct i as [|i]; simpl in *.
  - inversion Hx; subst. unfold defined in Hd. apply negb_true_iff in Hd.
    now rewrite Hd.
  - now apply IH.
Qed.

Lemma nth_error_combine {A B} (l : list A) (l' : list B) : forall i a b,
  nth_error l i = Some a -> nth_error l' i = Some b ->
  nth_error (combine l l') i = Some (a, b).
Proof.
  revert l'. induction l as [|x t IH]; intros l' i a b Ha Hb; [destruct i; discriminate|].
  destruct l' as [|y t']; [destruct i; discriminate|].
  destruct i as [|i]; simpl in *; [congruence | now apply IH].
Qed.

Lemma map_fst_combine {A B} (l : list A) (l' : list B) :
  length l = length l' -> map fst (combine l l') = l.
Proof.
  revert l'. induction l as [|x t IH]; intros [|y t'] H; simpl in *; try discriminate;
    [reflexivity|]. f_equal. apply IH. lia.
Qed.

Lemma map_of_fst_combine {A B C} (f : A -> C) (l : list A) (l' : list B) :
  length l = length l' -> map (fun p => f (fst p)) (combine l l') = map f l.
Proof.
  intro H. rewrite <- (map_fst_combine l l' H) at 2. now rewrite map_map.
Qed.

Lemma map_snd_combine {A B} (l : list A) (l' : list B) :
  length l = length l' -> map snd (combine l l') = l'.
Proof.
  revert l'. induction l as [|x t IH]; intros [|y t'] H; simpl in *; try discriminate;
    [reflexivity|]. f_equal. apply IH. lia.
Qed.

Lemma length_apply_fill (fill : Pandas.fill_method) (xs : list float) :
  length (Pandas.apply_fill fill xs) = length xs.
Proof. destruct fill; [apply length_ffill_from | reflexivity]. Qed.

Lemma nth_error_apply_fill (fill : Pandas.fill_method) (xs : list float) (i : nat) (x : float) :
  nth_error xs i = Some x -> defined x = true ->
  nth_error (Pandas.apply_fill fill xs) i = Some x.
Proof. destruct fill; [apply nth_error_ffill_from | auto]. Qed.

Lemma length_pct_change (fill : Pandas.fill_method) (xs : list float) :
  length (Pandas.pct_change fill xs) = length xs.
Proof.
  unfold Pandas.pct_change. fold (Pandas.apply_fill fill xs).
  rewrite length_map, length_combine, length_lag, length_apply_fill. lia.
Qed.

(** The first row of [pct_change] has nothing before it. *)
Lemma pct_change_first (fill : Pandas.fill_method) (x : float) (t : list float) :
  nth_error (Pandas.pct_change fill (x :: t)) 0 = Some nan.
Proof.
  unfold Pandas.pct_change. fold (Pandas.apply_fill fill (x :: t)).
  destruct (Pandas.apply_fill fill (x :: t)) as [|y t'] eqn:E.
  - apply (f_equal (@length float)) in E. rewrite length_apply_fill in E. discriminate.
  - simpl. now rewrite div_nan_r, sub_nan_l.
Qed.

(** A later row is the quotient of the two closes, minus one. *)
Lemma pct_change_row (fill : Pandas.fill_method) (xs : list float) (i : nat) (c p : float) :
  (0 < i)%nat -> nth_error xs i = Some c -> nth_error xs (i - 1) = Some p ->
  defined c = true -> defined p = true ->
  nth_error (Pandas.pct_change fill xs) i = Some (c / p - 1).
Proof.
  intros H0 Hc Hp Dc Dp. unfold Pandas.pct_change. fold (Pandas.apply_fill fill xs).
  assert (Hi : (i < length xs)%nat) by (apply nth_error_Some; congruence).
  rewrite nth_error_map.
  rewrite (nth_error_combine _ _ i c p); [reflexivity | now apply nth_error_apply_fill |].
  rewrite nth_error_lag by (rewrite ?length_apply_fill; assumption).
  now apply nth_error_apply_fill.
Qed.

(** [ORDER BY Date] leaves rows alone that are already in date order. *)
Lemma ORDER_BY_Date_sorted (rows : list (CalendarDate * float)) :
  StronglySorted Z.lt (map fst rows) -> SQL.ORDER_BY_Date rows = rows.
Proof.
  induction rows as [|r t IH]; intro Hs; [reflexivity|].
  simpl in Hs. inversion Hs as [|? ? Hs' Hall]; subst.
  unfold SQL.ORDER_BY_Date in *. simpl. rewrite (IH Hs').
  destruct t as [|x t']; [reflexivity|]. simpl.
  inversion Hall as [|? ? Hlt _]; subst. apply Z.ltb_lt in Hlt. now rewrite Hlt.
Qed.

(** The SQL returns of daily bars that are in date order. *)
Lemma returns_of_sorted (daily : list Daily.bar) :
  StronglySorted Z.lt (map Daily.Date daily) ->
  SqlScript.returns (SqlScript.date_and_close daily) =
  map (fun p => mkReturn (Daily.Date (fst p)) (Daily.Close (fst p))
                  (SQL.div (Daily.Close (fst p) - snd p) (snd p)))
      (combine daily (lag (map Daily.Close daily))).
Proof.
  intro Hs. unfold SqlScript.returns, SqlScript.Prev_Close.
  rewrite ORDER_BY_Date_sorted.
  2:{ unfold SqlScript.date_and_close. rewrite map_map. exact Hs. }
  unfold SqlScript.date_and_close. rewrite !map_map. simpl.
  change (map (fun x : Daily.bar => Daily.Close x) daily) with (map Daily.Close daily).
  generalize (lag (map Daily.Close daily)).
  induction daily as [|b t IH]; intros [|y l]; simpl; try reflexivity.
  f_equal. apply IH. now inversion Hs.
Qed.

End ReturnFacts.

(** ** Facts about the threshold filter *)

Section FilterFacts.

Import F64 Spec.
Local Open Scope float_scope.

(** A return that exceeds the threshold in absolute value is present. *)
Lemma exceeds_defined (threshold x : float) :
  (threshold <? abs x) = true -> defined x = true.
Proof.
  intro H. apply ltb_defined in H. destruct H as [_ H]. now rewrite abs_defined in H.
Qed.

End FilterFacts.

(** ** Facts about the correlation of a single observation *)

Section CorrelationFacts.

Import F64 Spec.
Local Open Scope float_scope.

(** Multiplying by one is exact: the product of the mantissas is the
    mantissa shifted by the 52 bits that rounding shifts back. *)
Lemma SF64mul_one (s : bool) (m : positive) (e : Z) :
  valid_binary (S754_finite s m e) = true ->
  SF64mul (S754_finite false 4503599627370496 (-52)) (S754_finite s m e) = S754_finite s m e.
Proof.
  unfold valid_binary, bounded, canonical_mantissa. rewrite andb_true_iff, Z.eqb_eq, Z.leb_le.
  intros [Hc Hb].
  unfold SF64mul, SFmul. simpl xorb.
  unfold binary_round_aux, shr_fexp.
  set (M := (4503599627370496 * m)%positive).
  assert (HM : M = Pos.iter xO m 52) by reflexivity.
  assert (Hd : (Zdigits2 (Z.pos M) = Z.pos (digits2_pos m) + 52)%Z).
  { rewrite HM. unfold Zdigits2. apply digits2_iter_xO. }
  rewrite Hd.
  replace (fexp prec emax (Z.pos (digits2_pos m) + 52 + (-52 + e)) - (-52 + e))%Z with 52%Z.
  2:{ replace (Z.pos (digits2_pos m) + 52 + (-52 + e))%Z with (Z.pos (digits2_pos m) + e)%Z by lia.
      rewrite Hc. lia. }
  unfold shr at 1.
  change (shr_record_of_loc (Z.pos M) loc_Exact)
    with {| shr_m := Z.pos M; shr_r := false; shr_s := false |}.
  replace (iter_pos shr_1 52 {| shr_m := Z.pos M; shr_r := false; shr_s := false |})
    with {| shr_m := Z.pos m; shr_r := false; shr_s := false |}
    by (rewrite HM; reflexivity).
  cbn [shr_m loc_of_shr_record round_nearest_even].
  replace (-52 + e + 52)%Z with e by lia.
  cbn [Zdigits2 shr_record_of_loc]. rewrite Hc, Z.sub_diag.
  cbn [shr shr_m].
  apply Z.leb_le in Hb. now rewrite Hb.
Qed.

Lemma mul_one_l (x : float) : 1 * x = x.
Proof.
  apply Prim2SF_inj. rewrite mul_spec.
  change (Prim2SF 1) with (S754_finite false 4503599627370496 (-52)).
  assert (Hv := Prim2SF_valid x).
  destruct (Prim2SF x) as [s|s| |s m e]; try reflexivity.
  now apply SF64mul_one.
Qed.

Lemma sub_zero_r (x : float) : x - 0 = x.
Proof.
  apply Prim2SF_inj. rewrite sub_spec. change (Prim2SF 0) with (S754_zero false).
  destruct (Prim2SF x) as [s|s| |s m e]; try reflexivity. now destruct s.
Qed.

Lemma is_finite_SF (x : float) :
  is_finite x = true ->
  (exists s, Prim2SF x = S754_zero s) \/ (exists s m e, Prim2SF x = S754_finite s m e).
Proof.
  unfold is_finite, is_nan, is_infinity. rewrite !eqb_spec, abs_spec.
  change (Prim2SF infinity) with (S754_infinity false).
  destruct (Prim2SF x) as [s|s| |s m e]; eauto.
  - destruct s; intro H; discriminate H.
  - intro H; discriminate H.
Qed.

Lemma SF64sub_diag (s : bool) (m : positive) (e : Z) :
  SF64sub (S754_finite s m e) (S754_finite s m e) = S754_zero false.
Proof. unfold SF64sub, SFsub. now rewrite Z.sub_diag. Qed.

(** With a single observation the sum of squared deviations from the
    running mean is +0. *)
Lemma single_deviation (x : float) :
  is_finite x = true -> 0 + (x - (0 + 1 * (x - 0))) * (x - 0) = 0.
Proof.
  intro Hf. rewrite sub_zero_r, mul_one_l.
  apply Prim2SF_inj. rewrite add_spec, mul_spec, sub_spec, add_spec.
  change (Prim2SF 0) with (S754_zero false).
  destruct (is_finite_SF x Hf) as [(s & ->) | (s & m & e & ->)].
  - now destruct s.
  - change (SF64add (S754_zero false) (S754_finite s m e)) with (S754_finite s m e).
    rewrite SF64sub_diag. now destruct s.
Qed.

Lemma nancorr_single (x y : float) : Pandas.nancorr_pair 1 [x] [y] = nan.
Proof.
  unfold Pandas.nancorr_pair. simpl fold_left. unfold Pandas.welford_step.
  destruct (is_finite x && is_finite y) eqn:F; [|reflexivity].
  apply andb_true_iff in F. destruct F as [Fx Fy].
  cbn [Pandas.nobs Pandas.ssqdm_x Pandas.ssqdm_y Pandas.covxy Pandas.meanx Pandas.meany
       Pandas.welford_init].
  change (1 / of_nat 1) with 1.
  rewrite (single_deviation x Fx), (single_deviation y Fy). reflexivity.
Qed.

Lemma nancorr_empty : Pandas.nancorr_pair 1 [] [] = nan.
Proof. reflexivity. Qed.

(** A frame of at most one row correlates to NaN everywhere. *)
Lemma short_frame_correlation (daily : list Daily.bar) :
  (length daily < 2)%nat ->
  Notebook.correlation_matrix daily = Returned (repeat (repeat nan 5) 5).
Proof.
  intro H. destruct daily as [|b [|b' rest]]; [reflexivity | | simpl in H; lia].
  unfold Notebook.correlation_matrix. f_equal.
  cbv [Pandas.corr length seq map nth Nat.max Nat.min repeat].
  now rewrite !nancorr_single.
Qed.

(** Bars that share one date give a frame of at most one row. *)
Lemma single_date_frame (es_data : list Raw.bar) :
  (forall a b, In a es_data -> In b es_data -> Raw.Date a = Raw.Date b) ->
  (length (Notebook.es_daily es_data) < 2)%nat.
Proof.
  intro Hone. rewrite <- (length_map Daily.Date), notebook_dates.
  assert (Hnd : NoDup (Pandas.resample_D es_data))
    by apply sorted_lt_NoDup, resample_D_sorted.
  assert (Hsame : forall x y, In x (Pandas.resample_D es_data) ->
                              In y (Pandas.resample_D es_data) -> x = y).
  { intros x y Hx Hy. apply In_resample_D in Hx, Hy.
    destruct Hx as (a & b & Ha & Hb & Hx). destruct Hy as (a' & b' & Ha' & Hb' & Hy).
    assert (E1 := Hone a b Ha Hb). assert (E2 := Hone a a' Ha Ha').
    assert (E3 := Hone a b' Ha Hb'). lia. }
  destruct (Pandas.resample_D es_data) as [|x [|y l]]; simpl; try lia.
  exfalso. inversion Hnd as [|? ? Hx _]; subst. apply Hx.
  rewrite (Hsame x y); simpl; auto.
Qed.

End CorrelationFacts.

(** ** Facts about the daily bar of one date *)

Section DailyBarFacts.

Import F64 Spec.
Local Open Scope float_scope.

Lemma prices_defined_columns (g : list Raw.bar) :
  (forall b, In b g -> prices_defined b = true) ->
  all_defined (map Raw.Open g) /\ all_defined (map Raw.High g) /\
  all_defined (map Raw.Low g) /\ all_defined (map Raw.Close g).
Proof.
  intro H.
  assert (Hb : forall b, In b g ->
            defined (Raw.Open b) = true /\ defined (Raw.High b) = true /\
            defined (Raw.Low b) = true /\ defined (Raw.Close b) = true).
  { intros b Hin. specialize (H b Hin). unfold prices_defined in H.
    rewrite !andb_true_iff in H. tauto. }
  repeat split; apply column_defined; intros b Hin; now apply Hb.
Qed.

Lemma hd_error_hd (xs : list float) : xs <> [] -> hd_error xs = Some (hd nan xs).
Proof. destruct xs; [contradiction | reflexivity]. Qed.

Lemma hd_error_rev_last (xs : list float) :
  xs <> [] -> hd_error (rev xs) = Some (last xs nan).
Proof.
  intro H. destruct (exists_last H) as (l & a & ->).
  now rewrite rev_app_distr, last_last.
Qed.

Lemma map_nonempty {A B} (f : A -> B) (l : list A) : l <> [] -> map f l <> [].
Proof. destruct l; [contradiction | discriminate]. Qed.

Lemma r_sum_total (xs : list Z) :
  (forall v, In v xs -> v <> Int.NA_integer_) ->
  (- Int.INT_MAX <= Int.total xs <= Int.INT_MAX)%Z ->
  R.sum R.integer xs = Int.total xs.
Proof.
  intros Hna Hfit. unfold R.sum.
  replace (existsb (Z.eqb Int.NA_integer_) xs) with false.
  - destruct (Z.ltb_spec Int.INT_MAX (Int.total xs)); [lia|].
    destruct (Z.ltb_spec (Int.total xs) (- Int.INT_MAX)); [lia | reflexivity].
  - symmetry. apply not_true_is_false. intro E. apply existsb_exists in E.
    destruct E as (v & Hv & E). apply Z.eqb_eq in E. apply (Hna v Hv). now symmetry.
Qed.

(** Whole numbers of at most 53 bits are doubles. *)
Lemma round53_small (z : Z) : (Z.abs z < 2 ^ 53)%Z -> Int.round53 z = z.
Proof.
  intro H. unfold Int.round53.
  destruct (Z.leb_spec (Z.log2 (Z.abs z) + 1 - 53) 0) as [E|E]; [reflexivity|].
  exfalso. destruct (Z.eq_dec (Z.abs z) 0) as [E0|E0].
  - rewrite E0 in E. simpl in E. lia.
  - assert (Z.log2 (Z.abs z) < 53)%Z by (apply Z.log2_lt_pow2; lia). lia.
Qed.

Lemma fits_integer_bounds (v : Z) :
  R.fits_integer v = true <-> (- Int.INT_MAX <= v <= Int.INT_MAX)%Z.
Proof. unfold R.fits_integer. rewrite andb_true_iff, !Z.leb_le. tauto. Qed.

Lemma map_round53_small (xs : list Z) :
  (forall v, In v xs -> (Z.abs v < 2 ^ 53)%Z) -> map Int.round53 xs = xs.
Proof.
  intro H. rewrite <- (map_id xs) at 2. apply map_ext_in.
  intros v Hv. now apply round53_small, H.
Qed.

(** The sum of a double column of whole numbers is exact below 2^53. *)
Lemma r_sum_double_total (xs : list Z) :
  (forall v, In v xs -> (Z.abs v < 2 ^ 53)%Z) ->
  (Z.abs (Int.total xs) < 2 ^ 53)%Z ->
  R.sum R.double xs = Int.total xs.
Proof.
  intros Hv Ht. unfold R.sum. rewrite (map_round53_small xs Hv).
  now apply round53_small.
Qed.

(** Whatever type [read.csv] gave the column: values and total within
    the 32-bit range are summed exactly. *)
Lemma r_sum_fits (type : R.vector_type) (xs : list Z) :
  (forall v, In v xs -> R.fits_integer v = true) ->
  (- Int.INT_MAX <= Int.total xs <= Int.INT_MAX)%Z ->
  R.sum type xs = Int.total xs.
Proof.
  intros Hv Ht. destruct type.
  - apply r_sum_total; [|exact Ht].
    intros v Hin E. apply Hv, fits_integer_bounds in Hin.
    unfold Int.INT_MAX, Int.NA_integer_ in *. lia.
  - apply r_sum_double_total.
    + intros v Hin. apply Hv, fits_integer_bounds in Hin.
      unfold Int.INT_MAX in *. lia.
    + unfold Int.INT_MAX in *. lia.
Qed.

(** On the bars of one date whose prices are all present, the notebook
    and the R script build the daily bar of the data model, as long as
    the total volume fits the integer type of the host. *)
Lemma notebook_daily_bar (d : CalendarDate) (g : list Raw.bar) :
  g <> [] -> (forall b, In b g -> prices_defined b = true) ->
  (- 2 ^ 63 <= Int.total (map Raw.Volume g) < 2 ^ 63)%Z ->
  daily_bar_of g (reduce_group Notebook.agg_spec d g).
Proof.
  intros Hne Hp Hfit.
  destruct (prices_defined_columns g Hp) as (Ho & Hh & Hl & Hc).
  unfold daily_bar_of. simpl. repeat split.
  - unfold Pandas.first. rewrite (dropna_defined _ Ho).
    now apply hd_error_hd, map_nonempty.
  - apply pandas_max_is_maximum; [now apply map_nonempty | exact Hh].
  - apply pandas_max_is_maximum; [now apply map_nonempty | exact Hh].
  - apply pandas_min_is_minimum; [now apply map_nonempty | exact Hl].
  - apply pandas_min_is_minimum; [now apply map_nonempty | exact Hl].
  - unfold Pandas.last. rewrite (dropna_defined _ Hc).
    now apply hd_error_rev_last, map_nonempty.
  - rewrite pandas_sum_total. now apply wrap64_small.
Qed.

Lemma r_daily_bar (type : R.vector_type) (d : CalendarDate) (g : list Raw.bar) :
  g <> [] -> (forall b, In b g -> prices_defined b = true) ->
  (forall b, In b g -> R.fits_integer (Raw.Volume b) = true) ->
  (- Int.INT_MAX <= Int.total (map Raw.Volume g) <= Int.INT_MAX)%Z ->
  daily_bar_of g (reduce_group (RScript.summarise_spec type) d g).
Proof.
  intros Hne Hp Hna Hfit.
  destruct (prices_defined_columns g Hp) as (Ho & Hh & Hl & Hc).
  unfold daily_bar_of. simpl. repeat split.
  - unfold R.first. now apply hd_error_hd, map_nonempty.
  - apply r_max_is_maximum; [now apply map_nonempty | exact Hh].
  - apply r_max_is_maximum; [now apply map_nonempty | exact Hh].
  - apply r_min_is_minimum; [now apply map_nonempty | exact Hl].
  - apply r_min_is_minimum; [now apply map_nonempty | exact Hl].
  - unfold R.last. now apply hd_error_rev_last, map_nonempty.
  - apply r_sum_fits; [|exact Hfit].
    intros v Hv. apply in_map_iff in Hv. destruct Hv as (b & <- & Hb). now apply Hna.
Qed.

(** The SQL script takes the smallest open and the largest close. *)
Lemma sql_daily_bar (d : CalendarDate) (g : list Raw.bar) :
  g <> [] -> (forall b, In b g -> prices_defined b = true) ->
  let bar := reduce_group SqlScript.select_list d g in
  is_minimum (Daily.Open bar) (map Raw.Open g) /\
  is_maximum (Daily.High bar) (map Raw.High g) /\
  is_minimum (Daily.Low bar) (map Raw.Low g) /\
  is_maximum (Daily.Close bar) (map Raw.Close g) /\
  Daily.Volume bar = Int.total (map Raw.Volume g).
Proof.
  intros Hne Hp bar.
  destruct (prices_defined_columns g Hp) as (Ho & Hh & Hl & Hc).
  unfold bar. simpl. repeat split;
    try (apply sql_MAX_is_maximum; [now apply map_nonempty | assumption]);
    try (apply sql_MIN_is_minimum; [now apply map_nonempty | assumption]).
Qed.

End DailyBarFacts.

(** ** Facts about the forecaster *)

Section ForecastFacts.

Import F64 Spec.
Local Open Scope Z_scope.

(** The notebook's forecaster has no check of its own: it fails when,
    and as, the fit of the library fails. *)
Lemma forecast_fails_with_the_fit (ARIMAResults : Type)
  (ARIMA_fit : list float -> nat * nat * nat -> outcome ARIMAResults)
  (point_forecast : ARIMAResults -> Z -> float) (daily : list Daily.bar) (e : Error) :
  Notebook.Forecast ARIMAResults ARIMA_fit point_forecast daily = Raised e <->
  ARIMA_fit (Notebook.es_close daily) (5, 1, 0)%nat = Raised e.
Proof.
  unfold Notebook.Forecast. cbv zeta.
  destruct (ARIMA_fit (Notebook.es_close daily) (5, 1, 0)%nat); split; congruence.
Qed.

End ForecastFacts.

(** ** Facts about the invariant of a daily bar *)

Section WellFormedFacts.

Import F64 Spec More.
Local Open Scope float_scope.

Lemma hd_In (xs : list float) : xs <> [] -> In (hd nan xs) xs.
Proof. destruct xs; [contradiction | now left]. Qed.

Lemma last_In_list (xs : list float) : xs <> [] -> In (last xs nan) xs.
Proof.
  intro H. destruct (exists_last H) as (l & a & ->).
  rewrite last_last. apply in_or_app. right. now left.
Qed.

Lemma pandas_first_picks : picks Pandas.first.
Proof.
  intros xs Hne Hd. unfold Pandas.first. rewrite (dropna_defined _ Hd). now apply hd_In.
Qed.

Lemma pandas_last_picks : picks Pandas.last.
Proof.
  intros xs Hne Hd. unfold Pandas.last. rewrite (dropna_defined _ Hd).
  now apply last_In_list.
Qed.

Lemma r_first_picks : picks R.first.
Proof. intros xs Hne _. now apply hd_In. Qed.

Lemma r_last_picks : picks R.last.
Proof. intros xs Hne _. now apply last_In_list. Qed.

Lemma sql_MIN_picks : picks SQL.MIN.
Proof. intros xs Hne Hd. now apply sql_MIN_is_minimum. Qed.

Lemma sql_MAX_picks : picks SQL.MAX.
Proof. intros xs Hne Hd. now apply sql_MAX_is_maximum. Qed.

Lemma well_formed_prices_defined (b : Raw.bar) :
  well_formed b = true -> prices_defined b = true.
Proof.
  intro H. destruct (well_formed_low_high b H) as (_ & Ho & Hh & Hl & Hc).
  unfold prices_defined. now rewrite Ho, Hh, Hl, Hc.
Qed.

(** Whatever the reducers pick for open and close, bounded by reducers
    for high and low, the daily bar of well-formed bars is well formed. *)
Lemma reduce_group_well_formed (f : reducers) (d : CalendarDate) (g : list Raw.bar) :
  picks (agg_Open f) -> picks (agg_Close f) ->
  bounds_above (agg_High f) -> bounds_below (agg_Low f) ->
  g <> [] -> (forall b, In b g -> well_formed b = true) ->
  well_formed_daily (reduce_group f d g) = true.
Proof.
  intros Po Pc Bh Bl Hne Hwf.
  assert (Hp : forall b, In b g -> prices_defined b = true)
    by (intros b Hb; now apply well_formed_prices_defined, Hwf).
  destruct (prices_defined_columns g Hp) as (Ho & Hh & Hl & Hc).
  assert (Hopen := Po _ (map_nonempty Raw.Open g Hne) Ho).
  assert (Hclose := Pc _ (map_nonempty Raw.Close g Hne) Hc).
  apply in_map_iff in Hopen, Hclose.
  destruct Hopen as (bo & Eo & Hbo). destruct Hclose as (bc & Ec & Hbc).
  assert (Wo := Hwf bo Hbo). assert (Wc := Hwf bc Hbc).
  unfold well_formed in Wo, Wc. rewrite !andb_true_iff in Wo, Wc.
  destruct Wo as [[[Wo1 _] Wo3] _]. destruct Wc as [[[_ Wc2] _] Wc4].
  unfold well_formed_daily. simpl. rewrite <- Eo, <- Ec.
  rewrite !andb_true_iff. repeat split.
  - eapply leb_trans; [exact Wo1|]. apply Bh; [exact Hh | now apply in_map].
  - eapply leb_trans; [exact Wc2|]. apply Bh; [exact Hh | now apply in_map].
  - eapply leb_trans; [|exact Wo3]. apply Bl; [exact Hl | now apply in_map].
  - eapply leb_trans; [|exact Wc4]. apply Bl; [exact Hl | now apply in_map].
Qed.

Lemma aggregate_well_formed (f : reducers) (keys : list CalendarDate) (rows : list Raw.bar) :
  picks (agg_Open f) -> picks (agg_Close f) ->
  bounds_above (agg_High f) -> bounds_below (agg_Low f) ->
  (forall b, In b rows -> well_formed b = true) ->
  forall bar, In bar (aggregate f keys rows) ->
  (exists r, In r rows /\ Raw.Date r = Daily.Date bar) ->
  well_formed_daily bar = true.
Proof.
  intros Po Pc Bh Bl Hwf bar Hbar (r & Hr & Hd).
  apply In_aggregate in Hbar. destruct Hbar as [_ E]. rewrite E.
  apply reduce_group_well_formed; auto.
  - intro En. assert (Hin : In r (on_date (Daily.Date bar) rows)) by (apply In_on_date; auto).
    rewrite En in Hin. destruct Hin.
  - intros b Hb. apply In_on_date in Hb. apply Hwf. tauto.
Qed.

End WellFormedFacts.

(** ** Facts about the three aggregations side by side *)

Section AgreementFacts.

Import F64 Spec More.
Local Open Scope float_scope.

Lemma pandas_max_picks : picks Pandas.max.
Proof. intros xs Hne Hd. now apply pandas_max_is_maximum. Qed.

Lemma pandas_min_picks : picks Pandas.min.
Proof. intros xs Hne Hd. now apply pandas_min_is_minimum. Qed.

Lemma r_max_picks : picks R.max.
Proof. intros xs Hne Hd. now apply r_max_is_maximum. Qed.

Lemma r_min_picks : picks R.min.
Proof. intros xs Hne Hd. now apply r_min_is_minimum. Qed.

(** A reducer that picks returns the only value of a singleton. *)
Lemma picks_singleton (f : list float -> float) (x : float) :
  picks f -> defined x = true -> f [x] = x.
Proof.
  intros Hf Hx. destruct (Hf [x]) as [E | []]; [discriminate | | now symmetry].
  constructor; [exact Hx | constructor].
Qed.

Lemma fmax_neg_infinity (v : float) : defined v = true -> fmax neg_infinity v = v.
Proof.
  intro Hv. unfold fmax. destruct (neg_infinity <? v) eqn:E; [reflexivity|].
  symmetry. apply le_neg_infinity. now apply not_ltb_leb.
Qed.

Lemma fmin_infinity (v : float) : defined v = true -> fmin infinity v = v.
Proof.
  intro Hv. unfold fmin. destruct (v <? infinity) eqn:E; [reflexivity|].
  symmetry. apply ge_infinity. now apply not_ltb_leb.
Qed.

(** On values that are all present pandas and R reduce alike. *)
Lemma pandas_max_r_max (xs : list float) :
  xs <> [] -> all_defined xs -> Pandas.max xs = R.max xs.
Proof.
  intros Hne Hd. unfold Pandas.max, R.max.
  rewrite (dropna_defined _ Hd), (existsb_nan_defined _ Hd).
  destruct xs as [|v vs]; [contradiction|]. simpl.
  rewrite fmax_neg_infinity; [reflexivity|]. now inversion Hd.
Qed.

Lemma pandas_min_r_min (xs : list float) :
  xs <> [] -> all_defined xs -> Pandas.min xs = R.min xs.
Proof.
  intros Hne Hd. unfold Pandas.min, R.min.
  rewrite (dropna_defined _ Hd), (existsb_nan_defined _ Hd).
  destruct xs as [|v vs]; [contradiction|]. simpl.
  rewrite fmin_infinity; [reflexivity|]. now inversion Hd.
Qed.

Lemma pandas_first_r_first (xs : list float) :
  all_defined xs -> Pandas.first xs = R.first xs.
Proof. intro Hd. unfold Pandas.first, R.first. now rewrite (dropna_defined _ Hd). Qed.

Lemma pandas_last_r_last (xs : list float) :
  all_defined xs -> Pandas.last xs = R.last xs.
Proof. intro Hd. unfold Pandas.last, R.last. now rewrite (dropna_defined _ Hd). Qed.

Lemma sql_MAX_r_max (xs : list float) : all_defined xs -> xs <> [] -> SQL.MAX xs = R.max xs.
Proof.
  intros Hd Hne. unfold SQL.MAX, SQL.not_null, R.max.
  rewrite (filter_id _ _ Hd), (existsb_nan_defined _ Hd).
  destruct xs; [contradiction | reflexivity].
Qed.

Lemma sql_MIN_r_min (xs : list float) : all_defined xs -> xs <> [] -> SQL.MIN xs = R.min xs.
Proof.
  intros Hd Hne. unfold SQL.MIN, SQL.not_null, R.min.
  rewrite (filter_id _ _ Hd), (existsb_nan_defined _ Hd).
  destruct xs; [contradiction | reflexivity].
Qed.

Lemma has_bars_iff (es_data : list Raw.bar) (d : CalendarDate) :
  has_bars es_data d = true <-> exists r, In r es_data /\ Raw.Date r = d.
Proof.
  unfold has_bars. rewrite existsb_exists. split; intros (r & Hr & E); exists r; split; auto.
  - now apply Z.eqb_eq.
  - now apply Z.eqb_eq.
Qed.

Lemma has_bars_on_date (es_data : list Raw.bar) (d : CalendarDate) :
  has_bars es_data d = negb (match on_date d es_data with [] => true | _ => false end).
Proof.
  unfold has_bars, on_date. induction es_data as [|r t IH]; simpl; [reflexivity|].
  destruct (Raw.Date r =? d)%Z; simpl; [reflexivity | exact IH].
Qed.

Lemma filter_map_comm {A B} (p : B -> bool) (f : A -> B) (l : list A) :
  filter p (map f l) = map f (filter (fun x => p (f x)) l).
Proof.
  induction l as [|x t IH]; simpl; [reflexivity|].
  destruct (p (f x)); simpl; now rewrite IH.
Qed.

Lemma filter_sorted (p : Z -> bool) (l : list Z) :
  StronglySorted Z.lt l -> StronglySorted Z.lt (filter p l).
Proof.
  induction 1 as [|x t Hs IH Hx]; simpl; [constructor|].
  destruct (p x); [|exact IH]. constructor; [exact IH|].
  rewrite Forall_forall in Hx |- *. intros y Hy. apply filter_In in Hy. now apply Hx.
Qed.

(** The days of the notebook's grid that have bars are the dates the
    other two scripts group by. *)
Lemma grid_with_bars (es_data : list Raw.bar) :
  filter (has_bars es_data) (Pandas.resample_D es_data)
  = distinct_dates (map Raw.Date es_data).
Proof.
  apply sorted_lt_ext.
  - apply filter_sorted, resample_D_sorted.
  - apply distinct_dates_sorted.
  - intro d. rewrite filter_In, In_distinct_dates, in_map_iff, has_bars_iff. split.
    + intros [_ (r & Hr & E)]. eauto.
    + intros (r & E & Hr). split; [|eauto]. subst d. now apply resample_D_covers.
Qed.

Lemma volume_on_le_total (d : CalendarDate) (rows : list Raw.bar) :
  (forall r, In r rows -> (0 <= Raw.Volume r)%Z) ->
  (volume_on d rows <= Int.total (map Raw.Volume rows))%Z.
Proof.
  induction rows as [|r t IH]; intro H.
  - unfold volume_on. simpl. lia.
  - rewrite volume_on_cons. simpl. rewrite total_cons.
    assert (0 <= Raw.Volume r)%Z by (apply H; now left).
    assert (volume_on d t <= Int.total (map Raw.Volume t))%Z
      by (apply IH; intros; apply H; now right).
    destruct (Raw.Date r =? d)%Z; lia.
Qed.

Lemma group_prices_defined (es_data : list Raw.bar) (d : CalendarDate) :
  (forall b, In b es_data -> prices_defined b = true) ->
  forall b, In b (on_date d es_data) -> prices_defined b = true.
Proof. intros H b Hb. apply In_on_date in Hb. apply H. tauto. Qed.

Lemma group_nonempty (es_data : list Raw.bar) (d : CalendarDate) :
  In d (distinct_dates (map Raw.Date es_data)) -> on_date d es_data <> [].
Proof.
  intros Hd E. apply grouped_dates_have_rows in Hd. destruct Hd as (r & Hr & Ed).
  assert (Hin : In r (on_date d es_data)) by (apply In_on_date; auto).
  rewrite E in Hin. destruct Hin.
Qed.

(** The notebook and the R script reduce the bars of a date to the same
    daily bar, when the prices are present and the volume fits both. *)
Lemma notebook_bar_r_bar (type : R.vector_type) (d : CalendarDate) (g : list Raw.bar) :
  g <> [] -> (forall b, In b g -> prices_defined b = true) ->
  (forall b, In b g -> (0 <= Raw.Volume b)%Z) ->
  (Int.total (map Raw.Volume g) <= Int.INT_MAX)%Z ->
  reduce_group Notebook.agg_spec d g = reduce_group (RScript.summarise_spec type) d g.
Proof.
  intros Hne Hp Hpos Hfit.
  destruct (prices_defined_columns g Hp) as (Ho & Hh & Hl & Hc).
  assert (H0 : (0 <= Int.total (map Raw.Volume g))%Z).
  { apply total_nonneg. intros x Hx. apply in_map_iff in Hx.
    destruct Hx as (b & <- & Hb). now apply Hpos. }
  unfold reduce_group. simpl.
  rewrite (pandas_first_r_first _ Ho), (pandas_last_r_last _ Hc).
  rewrite (pandas_max_r_max _ (map_nonempty Raw.High g Hne) Hh).
  rewrite (pandas_min_r_min _ (map_nonempty Raw.Low g Hne) Hl).
  rewrite pandas_sum_total, wrap64_small by (unfold Int.INT_MAX in Hfit; lia).
  rewrite r_sum_fits; [reflexivity | | unfold Int.INT_MAX in *; lia].
  intros v Hv. apply fits_integer_bounds.
  assert (Hle : (v <= Int.total (map Raw.Volume g))%Z).
  { apply total_bounds_member; [|exact Hv]. intros y Hy. apply in_map_iff in Hy.
    destruct Hy as (b & <- & Hb). now apply Hpos. }
  apply in_map_iff in Hv. destruct Hv as (b & <- & Hb).
  specialize (Hpos b Hb). unfold Int.INT_MAX in *. lia.
Qed.

End AgreementFacts.

(** ** Facts about the days of the grid that have bars *)

Section GapFreeFacts.

Import F64 Spec More.
Local Open Scope float_scope.

Lemma Forall2_map_same {A B C} (P : B -> C -> Prop) (f : A -> B) (g : A -> C) (l : list A) :
  (forall x, In x l -> P (f x) (g x)) -> Forall2 P (map f l) (map g l).
Proof.
  induction l as [|x t IH]; intro H; simpl; constructor.
  - apply H. now left.
  - apply IH. intros y Hy. apply H. now right.
Qed.

(** The notebook's close of a day is present exactly when the day has
    bars (the prices of the bars being present). *)
Lemma notebook_close_defined (es_data : list Raw.bar) (d : CalendarDate) :
  (forall b, In b es_data -> prices_defined b = true) ->
  defined (Pandas.last (map Raw.Close (on_date d es_data))) = has_bars es_data d.
Proof.
  intro Hp. rewrite has_bars_on_date.
  destruct (on_date d es_data) as [|b t] eqn:E; [reflexivity|].
  assert (Hg : forall x, In x (b :: t) -> prices_defined x = true).
  { rewrite <- E. now apply group_prices_defined. }
  destruct (prices_defined_columns _ Hg) as (_ & _ & _ & Hc).
  assert (Hin := pandas_last_picks _ (map_nonempty Raw.Close (b :: t) ltac:(discriminate)) Hc).
  unfold all_defined in Hc. rewrite Forall_forall in Hc. simpl negb. now apply Hc.
Qed.

Lemma has_bars_sort_index (es_data : list Raw.bar) (d : CalendarDate) :
  has_bars (Pandas.sort_index es_data) d = has_bars es_data d.
Proof.
  destruct (has_bars es_data d) eqn:E.
  - apply has_bars_iff in E. destruct E as [r [Hr Ed]].
    apply has_bars_iff. exists r.
    split; [exact (proj2 (In_sort_index _ _) Hr) | exact Ed].
  - apply not_true_is_false. intro H. apply has_bars_iff in H.
    destruct H as [r [Hr Ed]]. apply (proj1 (In_sort_index _ _)) in Hr.
    assert (has_bars es_data d = true)
      by (apply has_bars_iff; exists r; split; assumption).
    congruence.
Qed.

Lemma sorted_prices_defined (es_data : list Raw.bar) :
  (forall b, In b es_data -> prices_defined b = true) ->
  forall b, In b (Pandas.sort_index es_data) -> prices_defined b = true.
Proof. intros H b Hb. apply H. exact (proj1 (In_sort_index _ _) Hb). Qed.

Lemma notebook_close_present (es_data : list Raw.bar) (d : CalendarDate) :
  (forall b, In b es_data -> prices_defined b = true) ->
  defined (Pandas.last (map Raw.Close (Pandas.sort_index (on_date d es_data))))
  = has_bars es_data d.
Proof.
  intro Hp. rewrite <- on_date_sort_index, <- has_bars_sort_index.
  apply notebook_close_defined. now apply sorted_prices_defined.
Qed.

End GapFreeFacts.

(** ** Facts about the shape and the range of the correlation matrix *)

Section CorrelationShapeFacts.

Import F64 Spec More.
Local Open Scope float_scope.

Lemma nth_map_seq {A} (f : nat -> A) (n i : nat) (d : A) :
  nth i (map f (seq 0 n)) d = if (i <? n)%nat then f i else d.
Proof.
  destruct (Nat.ltb_spec i n) as [H | H].
  - rewrite (nth_indep _ d (f 0%nat)) by now rewrite length_map, length_seq.
    rewrite (map_nth f (seq 0 n) 0%nat i), seq_nth by exact H. reflexivity.
  - apply nth_overflow. now rewrite length_map, length_seq.
Qed.

Lemma corr_entry (columns : list (list float)) (i j : nat) :
  nth j (nth i (Pandas.corr columns) []) nan =
  if ((i <? length columns) && (j <? length columns))%nat
  then Pandas.nancorr_pair 1 (nth (Nat.max i j) columns []) (nth (Nat.min i j) columns [])
  else nan.
Proof.
  unfold Pandas.corr. rewrite nth_map_seq.
  destruct (i <? length columns)%nat; simpl.
  - now rewrite nth_map_seq.
  - now destruct j.
Qed.

(** A correlation is missing or lies between -1 and 1. *)
Lemma clip_range (v : float) :
  defined (Pandas.clip v) = false \/
  ((-1 <=? Pandas.clip v) = true /\ (Pandas.clip v <=? 1) = true).
Proof.
  unfold Pandas.clip.
  destruct (1 <? v) eqn:E1; [right; split; reflexivity|].
  destruct (v <? -1) eqn:E2; [right; split; reflexivity|].
  destruct (defined v) eqn:Dv; [right | now left].
  split; apply not_ltb_leb; auto.
Qed.

Lemma nancorr_pair_range (minp : nat) (xs ys : list float) :
  defined (Pandas.nancorr_pair minp xs ys) = false \/
  ((-1 <=? Pandas.nancorr_pair minp xs ys) = true /\
   (Pandas.nancorr_pair minp xs ys <=? 1) = true).
Proof.
  unfold Pandas.nancorr_pair.
  destruct (_ <? minp)%nat; [now left|].
  destruct (_ =? 0); [now left | apply clip_range].
Qed.

Lemma corr_entries_range (columns : list (list float)) (row : list float) (e : float) :
  In row (Pandas.corr columns) -> In e row ->
  defined e = false \/ ((-1 <=? e) = true /\ (e <=? 1) = true).
Proof.
  unfold Pandas.corr. intros Hrow He.
  apply in_map_iff in Hrow. destruct Hrow as (i & <- & _).
  apply in_map_iff in He. destruct He as (j & <- & _).
  apply nancorr_pair_range.
Qed.

End CorrelationShapeFacts.

(** ** Facts about missing closes in windows and first records *)

Section MissingValueFacts.

Import F64 Spec More.
Local Open Scope float_scope.

Lemma trailing_In (w i : nat) (daily : list Daily.bar) (b : Daily.bar) :
  In b (trailing w i daily) -> In b daily.
Proof.
  unfold trailing. intro H.
  rewrite <- (firstn_skipn (i + 1 - w) daily). apply in_or_app. right.
  rewrite <- (firstn_skipn w (skipn (i + 1 - w) daily)). apply in_or_app. now left.
Qed.

Lemma undefined_not_finite (x : float) : defined x = false -> is_finite x = false.
Proof.
  unfold defined, is_finite. intro H. apply negb_false_iff in H. now rewrite H.
Qed.

(** A missing close anywhere in the window leaves the average missing:
    in pandas the window is then short of values, in R the mean of a
    vector with an NA is NA. *)
Lemma moving_average_with_missing_close (mean_of_numbers : list float -> float)
  (rollmean : list float -> nat -> list float)
  (w : nat) (daily : list Daily.bar) (i : nat) (b : Daily.bar) :
  (0 < w)%nat -> (i < length daily)%nat ->
  In b (trailing w i daily) -> defined (Daily.Close b) = false ->
  nth_error (Pandas.rolling w (map Daily.Close daily)) i = Some nan /\
  nth_error (R.rollapply_mean mean_of_numbers rollmean (map Daily.Close daily) w) i
    = Some nan.
Proof.
  intros Hw Hi Hb Hd. split.
  - apply rolling_incomplete; [exact Hw | now rewrite length_map|].
    destruct (trailing_position w i daily b Hb) as [j [Hj Hnth]].
    destruct (Nat.lt_ge_cases (i + 1) w) as [E|E]; [now left|].
    right. exists j. split; [lia|].
    assert (En : nth j (map Daily.Close daily) nan = Daily.Close b)
      by (apply nth_error_nth; rewrite nth_error_map, Hnth; reflexivity).
    rewrite En. now apply undefined_not_finite.
  - rewrite rollapply_mean_row; [|
      apply (existsb_nan_member _ (Daily.Close b));
        [apply in_map, (trailing_In w i daily b Hb) | exact Hd] | exact Hi].
    destruct (i + 1 <? w)%nat; [reflexivity|].
    unfold R.mean.
    now rewrite (existsb_nan_member _ (Daily.Close b) (in_map _ _ _ Hb) Hd).
Qed.

Lemma notebook_gap_close (es_data : list Raw.bar) (bar : Daily.bar) :
  In bar (Notebook.es_daily es_data) ->
  (forall r, In r es_data -> Raw.Date r <> Daily.Date bar) ->
  defined (Daily.Close bar) = false.
Proof.
  intros Hbar Hgap. apply In_notebook_frame in Hbar. destruct Hbar as [_ E].
  rewrite E, (notebook_gap_row _ _ Hgap). reflexivity.
Qed.

(** The first record has no return and so passes no threshold. *)
Lemma notebook_returns_head (fill : Pandas.fill_method) (b : Daily.bar)
  (rest : list Daily.bar) :
  exists others,
    Notebook.with_returns fill (b :: rest)
    = mkReturn (Daily.Date b) (Daily.Close b) nan :: others.
Proof.
  unfold Notebook.with_returns.
  assert (H := pct_change_first fill (Daily.Close b) (map Daily.Close rest)).
  unfold Notebook.Daily_Return_column. change (map Daily.Close (b :: rest))
    with (Daily.Close b :: map Daily.Close rest).
  destruct (Pandas.pct_change fill (Daily.Close b :: map Daily.Close rest)) as [|x col];
    [discriminate|].
  simpl in H. inversion H; subst x. simpl. eauto.
Qed.

Lemma length_insert_by_date (r : CalendarDate * float)
  (l : list (CalendarDate * float)) :
  length (SQL.insert_by_date r l) = S (length l).
Proof.
  induction l as [|x l IH]; simpl; [reflexivity|].
  destruct (fst r <? fst x)%Z; simpl; [reflexivity | now rewrite IH].
Qed.

Lemma length_ORDER_BY_Date (rows : list (CalendarDate * float)) :
  length (SQL.ORDER_BY_Date rows) = length rows.
Proof.
  unfold SQL.ORDER_BY_Date. induction rows as [|r t IH]; [reflexivity|]. simpl.
  now rewrite length_insert_by_date, IH.
Qed.

Lemma sql_returns_head (rows : list (CalendarDate * float)) :
  match SqlScript.returns rows with
  | [] => rows = []
  | r :: _ => Daily_Return r = SQL.NULL
  end.
Proof.
  unfold SqlScript.returns, SqlScript.Prev_Close.
  assert (Hlen := length_ORDER_BY_Date rows).
  destruct (SQL.ORDER_BY_Date rows) as [|x l].
  - destruct rows; [reflexivity | discriminate].
  - simpl. unfold SQL.div. now rewrite sub_nan_r, div_nan_l.
Qed.

End MissingValueFacts.

(** ** Facts about the window order of the SQL queries *)

Section WindowOrderFacts.

Import F64 Spec More.
Local Open Scope float_scope.

Lemma insert_by_date_perm (r : CalendarDate * float) (l : list (CalendarDate * float)) :
  Permutation (SQL.insert_by_date r l) (r :: l).
Proof.
  induction l as [|x l IH]; simpl; [apply Permutation_refl|].
  destruct (fst r <? fst x)%Z; [apply Permutation_refl|].
  eapply Permutation_trans; [apply perm_skip, IH | apply perm_swap].
Qed.

Lemma ORDER_BY_Date_perm (rows : list (CalendarDate * float)) :
  Permutation (SQL.ORDER_BY_Date rows) rows.
Proof.
  unfold SQL.ORDER_BY_Date. induction rows as [|r t IH]; simpl; [constructor|].
  eapply Permutation_trans; [apply insert_by_date_perm | now apply perm_skip].
Qed.

Lemma insert_by_date_ascending (r : CalendarDate * float) (l : list (CalendarDate * float)) :
  StronglySorted (fun a b => (fst a <= fst b)%Z) l ->
  StronglySorted (fun a b => (fst a <= fst b)%Z) (SQL.insert_by_date r l).
Proof.
  induction 1 as [|x l Hs IH Hx]; simpl; [repeat constructor|].
  destruct (fst r <? fst x)%Z eqn:E.
  - apply Z.ltb_lt in E. constructor; [now constructor|].
    constructor; [lia|]. rewrite Forall_forall in *. intros y Hy.
    specialize (Hx y Hy). lia.
  - apply Z.ltb_ge in E. constructor; [exact IH|].
    rewrite Forall_forall in *. intros y Hy.
    apply (Permutation_in _ (insert_by_date_perm r l)) in Hy.
    destruct Hy as [<-|Hy]; [exact E | now apply Hx].
Qed.

Lemma ORDER_BY_Date_ascending (rows : list (CalendarDate * float)) :
  StronglySorted (fun a b => (fst a <= fst b)%Z) (SQL.ORDER_BY_Date rows).
Proof.
  unfold SQL.ORDER_BY_Date. induction rows as [|r t IH]; simpl; [constructor|].
  now apply insert_by_date_ascending.
Qed.

(** With one row per date the window order is strictly ascending. *)
Lemma ORDER_BY_Date_strict (rows : list (CalendarDate * float)) :
  NoDup (map fst rows) ->
  StronglySorted Z.lt (map fst (SQL.ORDER_BY_Date rows)).
Proof.
  intro Hnd.
  assert (Hnd' : NoDup (map fst (SQL.ORDER_BY_Date rows))).
  { eapply Permutation_NoDup; [|exact Hnd].
    apply Permutation_map, Permutation_sym, ORDER_BY_Date_perm. }
  assert (Hs := ORDER_BY_Date_ascending rows).
  induction Hs as [|x l Hs IH Hx]; simpl in *; [constructor|].
  inversion Hnd' as [|? ? Hnotin Hnd'']; subst.
  constructor; [now apply IH|].
  rewrite Forall_forall in *. intros d Hd.
  apply in_map_iff in Hd. destruct Hd as [y [<- Hy]].
  specialize (Hx y Hy).
  assert (fst x <> fst y) by (intro E; apply Hnotin; rewrite E; now apply in_map).
  lia.
Qed.

(** Two strictly ascending arrangements of the same rows are equal. *)
Lemma ascending_unique (l l' : list (CalendarDate * float)) :
  StronglySorted Z.lt (map fst l) -> StronglySorted Z.lt (map fst l') ->
  Permutation l l' -> l = l'.
Proof.
  revert l'. induction l as [|x l IH]; intros l' Hs Hs' Hp.
  - now apply Permutation_nil in Hp.
  - destruct l' as [|x' l'].
    { apply Permutation_sym, Permutation_nil in Hp. discriminate. }
    simpl in Hs, Hs'. inversion Hs as [|? ? Hsl Hx]; subst.
    inversion Hs' as [|? ? Hsl' Hx']; subst.
    rewrite Forall_forall in Hx, Hx'.
    assert (E : x = x').
    { assert (Hin : In x (x' :: l')) by (apply (Permutation_in _ Hp); now left).
      assert (Hin' : In x' (x :: l))
        by (apply (Permutation_in _ (Permutation_sym Hp)); now left).
      destruct Hin as [E|Hin]; [now symmetry|].
      destruct Hin' as [E|Hin']; [exact E|].
      assert (fst x' < fst x)%Z by (apply Hx', in_map, Hin).
      assert (fst x < fst x')%Z by (apply Hx, in_map, Hin').
      lia. }
    subst x'. f_equal. apply IH; [exact Hsl | exact Hsl'|].
    now apply Permutation_cons_inv in Hp.
Qed.

Lemma ORDER_BY_Date_canonical (rows rows' : list (CalendarDate * float)) :
  NoDup (map fst rows) -> Permutation rows rows' ->
  SQL.ORDER_BY_Date rows = SQL.ORDER_BY_Date rows'.
Proof.
  intros Hnd Hp.
  assert (Hnd' : NoDup (map fst rows')).
  { eapply Permutation_NoDup; [|exact Hnd]. now apply Permutation_map. }
  apply ascending_unique;
    [now apply ORDER_BY_Date_strict | now apply ORDER_BY_Date_strict|].
  eapply Permutation_trans; [apply ORDER_BY_Date_perm|].
  eapply Permutation_trans; [exact Hp | apply Permutation_sym, ORDER_BY_Date_perm].
Qed.

Lemma returns_dates (rows : list (CalendarDate * float)) :
  map rDate (SqlScript.returns rows) = map fst (SQL.ORDER_BY_Date rows) /\
  map rClose (SqlScript.returns rows) = map snd (SQL.ORDER_BY_Date rows).
Proof.
  unfold SqlScript.returns, SqlScript.Prev_Close.
  assert (Hlen : length (SQL.ORDER_BY_Date rows)
                 = length (lag (map snd (SQL.ORDER_BY_Date rows))))
    by now rewrite length_lag, length_map.
  rewrite !map_map. cbn [rDate rClose]. split.
  - change (fun x : CalendarDate * float * float => fst (fst x))
      with (fun x : CalendarDate * float * float => (@fst CalendarDate float) (fst x)).
    now rewrite (map_of_fst_combine (@fst CalendarDate float) _ _ Hlen).
  - change (fun x : CalendarDate * float * float => snd (fst x))
      with (fun x : CalendarDate * float * float => (@snd CalendarDate float) (fst x)).
    now rewrite (map_of_fst_combine (@snd CalendarDate float) _ _ Hlen).
Qed.

Lemma returns_rows (rows : list (CalendarDate * float)) :
  map (fun r => (rDate r, rClose r)) (SqlScript.returns rows)
  = SQL.ORDER_BY_Date rows.
Proof.
  unfold SqlScript.returns, SqlScript.Prev_Close.
  assert (Hlen : length (SQL.ORDER_BY_Date rows)
                 = length (lag (map snd (SQL.ORDER_BY_Date rows))))
    by now rewrite length_lag, length_map.
  rewrite map_map. cbn [rDate rClose].
  etransitivity; [|exact (map_fst_combine _ _ Hlen)].
  apply map_ext. intros [[d c] p]. reflexivity.
Qed.

Lemma tl_map {A B} (f : A -> B) (l : list A) : tl (map f l) = map f (tl l).
Proof. now destruct l. Qed.

Lemma sorted_tl_above (l : list Z) (x : Z) :
  StronglySorted Z.lt l -> In x (tl l) -> exists d, In d l /\ (d < x)%Z.
Proof.
  intros Hs Hx. destruct l as [|d t]; [destruct Hx|]. simpl in Hx.
  inversion Hs as [|? ? _ Hd]; subst. rewrite Forall_forall in Hd.
  exists d. split; [now left | now apply Hd].
Qed.

Lemma sql_significant_tl (rows : list (CalendarDate * float)) :
  SqlScript.significant_changes (SqlScript.returns rows)
  = SqlScript.significant_changes (tl (SqlScript.returns rows)).
Proof.
  assert (H := sql_returns_head rows).
  destruct (SqlScript.returns rows) as [|r others]; [reflexivity|].
  simpl. rewrite H. reflexivity.
Qed.

Lemma daily_close_dates (es_data : list Raw.bar) :
  map fst (SqlScript.daily_close es_data) = distinct_dates (map Raw.Date es_data).
Proof.
  unfold SqlScript.daily_close, SqlScript.date_and_close, SqlScript.daily_aggregation.
  rewrite map_map. cbn [fst]. apply aggregate_dates.
Qed.

Lemma daily_close_in_order (es_data : list Raw.bar) :
  SQL.ORDER_BY_Date (SqlScript.daily_close es_data) = SqlScript.daily_close es_data.
Proof.
  apply ORDER_BY_Date_sorted. rewrite daily_close_dates. apply distinct_dates_sorted.
Qed.

End WindowOrderFacts.

(** ** Facts about daily volumes and about appending later bars *)

Section VolumeAndAppendFacts.

Import F64 Spec More.
Local Open Scope Z_scope.

Lemma existsb_NA_nonneg (xs : list Z) :
  (forall x, In x xs -> 0 <= x) -> existsb (Z.eqb Int.NA_integer_) xs = false.
Proof.
  intro H. apply not_true_is_false. intro E. apply existsb_exists in E.
  destruct E as [x [Hx E]]. apply Z.eqb_eq in E. specialize (H x Hx).
  unfold Int.NA_integer_ in E. lia.
Qed.

(** R's integer sum over non-negative values: exact while it fits. *)
Lemma r_sum_nonneg (xs : list Z) :
  (forall x, In x xs -> 0 <= x) ->
  R.sum R.integer xs
  = if Int.total xs <=? Int.INT_MAX then Int.total xs else Int.NA_integer_.
Proof.
  intro H. unfold R.sum. rewrite (existsb_NA_nonneg xs H). cbv zeta.
  assert (H0 := total_nonneg xs H).
  assert (E : (Int.total xs <? - Int.INT_MAX) = false)
    by (apply Z.ltb_ge; unfold Int.INT_MAX; lia).
  rewrite E, orb_false_r, Z.ltb_antisym.
  now destruct (Int.total xs <=? Int.INT_MAX).
Qed.

(** [read.csv] makes an integer column of values that all fit. *)
Lemma type_convert_integer (xs : list Z) :
  (forall v, In v xs -> - Int.INT_MAX <= v <= Int.INT_MAX) ->
  R.type_convert xs = R.integer.
Proof.
  intro H. unfold R.type_convert.
  replace (forallb R.fits_integer xs) with true; [reflexivity|].
  symmetry. apply forallb_forall. intros v Hv. now apply fits_integer_bounds, H.
Qed.

(** One value beyond the 32-bit range makes the column a double one. *)
Lemma type_convert_double (xs : list Z) (v : Z) :
  In v xs -> Int.INT_MAX < v -> R.type_convert xs = R.double.
Proof.
  intros Hv Hbig. unfold R.type_convert.
  replace (forallb R.fits_integer xs) with false; [reflexivity|].
  symmetry. apply not_true_is_false. intro H. rewrite forallb_forall in H.
  apply H, fits_integer_bounds in Hv. lia.
Qed.

Lemma r_daily_volumes (es_data : list Raw.bar) (bar : Daily.bar) :
  In bar (RScript.es_daily es_data) ->
  Daily.Volume bar
  = R.sum (R.type_convert (map Raw.Volume es_data))
      (map Raw.Volume (on_date (Daily.Date bar) es_data)).
Proof.
  intro H. apply In_aggregate in H. destruct H as [_ E].
  rewrite E at 1. reflexivity.
Qed.

Lemma sql_daily_volumes (es_data : list Raw.bar) (bar : Daily.bar) :
  In bar (SqlScript.daily_aggregation es_data) ->
  Daily.Volume bar = volume_on (Daily.Date bar) es_data.
Proof.
  intro H. apply In_aggregate in H. destruct H as [_ E].
  rewrite E at 1. reflexivity.
Qed.

Lemma on_date_app (d : CalendarDate) (l1 l2 : list Raw.bar) :
  on_date d (l1 ++ l2) = on_date d l1 ++ on_date d l2.
Proof. apply filter_app. Qed.

Lemma sorted_app (l1 l2 : list Z) :
  StronglySorted Z.lt l1 -> StronglySorted Z.lt l2 ->
  (forall a b, In a l1 -> In b l2 -> a < b) ->
  StronglySorted Z.lt (l1 ++ l2).
Proof.
  intros H1 H2 H. induction H1 as [|x l Hs IH Hx]; simpl; [exact H2|].
  constructor.
  - apply IH. intros a b Ha Hb. apply H; [now right | exact Hb].
  - apply Forall_app. split; [exact Hx|].
    apply Forall_forall. intros b Hb. apply H; [now left | exact Hb].
Qed.

(** Later bars add later dates behind the dates already there. *)
Lemma distinct_dates_app (old new : list Raw.bar) :
  (forall a b, In a old -> In b new -> Raw.Date a < Raw.Date b) ->
  distinct_dates (map Raw.Date (old ++ new))
  = distinct_dates (map Raw.Date old) ++ distinct_dates (map Raw.Date new).
Proof.
  intro H. apply sorted_lt_ext.
  - apply distinct_dates_sorted.
  - apply sorted_app; try apply distinct_dates_sorted.
    intros a b Ha Hb. apply In_distinct_dates, in_map_iff in Ha, Hb.
    destruct Ha as [x [<- Hx]]. destruct Hb as [y [<- Hy]]. now apply H.
  - intro x. rewrite in_app_iff, !In_distinct_dates, map_app, in_app_iff. tauto.
Qed.

Lemma aggregate_app (f : reducers) (old new : list Raw.bar) :
  (forall a b, In a old -> In b new -> Raw.Date a < Raw.Date b) ->
  aggregate f (distinct_dates (map Raw.Date (old ++ new))) (old ++ new)
  = aggregate f (distinct_dates (map Raw.Date old)) old
    ++ aggregate f (distinct_dates (map Raw.Date new)) new.
Proof.
  intro H. rewrite (distinct_dates_app old new H). unfold aggregate.
  rewrite map_app. f_equal; apply map_ext_in; intros d Hd;
    apply In_distinct_dates, in_map_iff in Hd; destruct Hd as [x [Ex Hx]];
    rewrite on_date_app.
  - rewrite (on_date_nil d new), app_nil_r; [reflexivity|].
    intros r Hr E. specialize (H x r Hx Hr). lia.
  - rewrite (on_date_nil d old); [reflexivity|].
    intros r Hr E. specialize (H r x Hr Hx). lia.
Qed.

End VolumeAndAppendFacts.

(** ** Facts about the calendar grid of appended bars and the forecaster's series *)

Section GridAppendFacts.

Import F64 Spec More.
Local Open Scope Z_scope.

Lemma inclusive_range_split (lo mid hi : Z) :
  lo - 1 <= mid <= hi ->
  inclusive_range lo hi = inclusive_range lo mid ++ inclusive_range (mid + 1) hi.
Proof.
  intro H. apply sorted_lt_ext.
  - apply inclusive_range_sorted.
  - apply sorted_app; try apply inclusive_range_sorted.
    intros a b Ha Hb. apply In_inclusive_range in Ha, Hb. lia.
  - intro x. rewrite in_app_iff, !In_inclusive_range. lia.
Qed.

Lemma inclusive_range_one (x : Z) : inclusive_range x x = [x].
Proof.
  unfold inclusive_range. rewrite Z.sub_diag. simpl. f_equal. lia.
Qed.

Lemma inclusive_range_first (lo hi : Z) :
  lo <= hi -> inclusive_range lo hi = lo :: inclusive_range (lo + 1) hi.
Proof.
  intro H. rewrite (inclusive_range_split lo lo hi) by lia.
  now rewrite inclusive_range_one.
Qed.

Lemma inclusive_range_last (lo hi : Z) :
  lo <= hi -> inclusive_range lo hi = inclusive_range lo (hi - 1) ++ [hi].
Proof.
  intro H. rewrite (inclusive_range_split lo (hi - 1) hi) by lia.
  replace (hi - 1 + 1) with hi by lia. now rewrite inclusive_range_one.
Qed.

(** The grid of [resample('D')] runs from the earliest to the latest
    date of the rows. *)
Lemma resample_D_range (rows : list Raw.bar) (lo hi : CalendarDate) :
  In lo (map Raw.Date rows) -> In hi (map Raw.Date rows) ->
  (forall r, In r rows -> lo <= Raw.Date r <= hi) ->
  Pandas.resample_D rows = inclusive_range lo hi.
Proof.
  intros Hlo Hhi Hb. unfold Pandas.resample_D.
  destruct (map Raw.Date rows) as [|d ds] eqn:E; [destruct Hlo|].
  assert (Hall : forall x, In x (d :: ds) -> lo <= x <= hi).
  { intros x Hx. rewrite <- E in Hx. apply in_map_iff in Hx.
    destruct Hx as [r [<- Hr]]. now apply Hb. }
  destruct (fold_min_spec ds d) as [Hmin Hle].
  destruct (fold_max_spec ds d) as [Hmax Hge].
  assert (fold_left Z.min ds d = lo)
    by (specialize (Hle lo Hlo); specialize (Hall _ Hmin); lia).
  assert (fold_left Z.max ds d = hi)
    by (specialize (Hge hi Hhi); specialize (Hall _ Hmax); lia).
  congruence.
Qed.

Lemma resample_D_bounds (rows : list Raw.bar) :
  rows <> [] ->
  exists lo hi,
    In lo (map Raw.Date rows) /\ In hi (map Raw.Date rows) /\
    (forall r, In r rows -> lo <= Raw.Date r <= hi) /\
    Pandas.resample_D rows = inclusive_range lo hi.
Proof.
  intro Hne. destruct rows as [|r t]; [congruence|].
  destruct (fold_min_spec (map Raw.Date t) (Raw.Date r)) as [Hmin Hle].
  destruct (fold_max_spec (map Raw.Date t) (Raw.Date r)) as [Hmax Hge].
  exists (fold_left Z.min (map Raw.Date t) (Raw.Date r)),
         (fold_left Z.max (map Raw.Date t) (Raw.Date r)).
  split; [exact Hmin | split; [exact Hmax | split; [|reflexivity]]].
  intros x Hx. apply (in_map Raw.Date) in Hx. split; [now apply Hle | now apply Hge].
Qed.

(** The close series of the forecaster, in terms of the raw bars: for
    every date that has bars, the close of the bar that is last in
    time. *)
Lemma es_close_without_gaps (es_data : list Raw.bar) :
  (forall b, In b es_data -> prices_defined b = true) ->
  Notebook.es_close (Notebook.es_daily es_data)
  = map (fun d => List.last (map Raw.Close (Pandas.sort_index (on_date d es_data))) nan)
        (distinct_dates (map Raw.Date es_data)).
Proof.
  intro Hp. rewrite notebook_frame.
  unfold Notebook.es_close, Pandas.dropna.
  rewrite !map_map. simpl. rewrite filter_map_comm.
  rewrite (filter_ext _ (has_bars es_data))
    by (intro d; now apply notebook_close_present).
  rewrite grid_with_bars. apply map_ext_in. intros d Hd.
  rewrite pandas_last_r_last; [reflexivity|].
  apply (prices_defined_columns (Pandas.sort_index (on_date d es_data))).
  apply sorted_prices_defined. now apply group_prices_defined.
Qed.

End GridAppendFacts.

(** ** Facts about frames of rows in time order *)

Section SortedFrameFacts.

Import F64 Spec More.
Local Open Scope float_scope.

Lemma sort_index_fixed (rows : list Raw.bar) :
  StronglySorted (fun a b => (Raw.Time a <= Raw.Time b)%Z) rows ->
  Pandas.sort_index rows = rows.
Proof.
  unfold Pandas.sort_index. induction 1 as [|r t Ht IH Hr]; [reflexivity|].
  simpl. rewrite IH. apply insert_by_time_first. now apply Forall_forall.
Qed.

Lemma sort_index_idempotent (rows : list Raw.bar) :
  Pandas.sort_index (Pandas.sort_index rows) = Pandas.sort_index rows.
Proof. apply sort_index_fixed, sort_index_sorted. Qed.

Lemma resample_D_sort_index (rows : list Raw.bar) :
  Pandas.resample_D (Pandas.sort_index rows) = Pandas.resample_D rows.
Proof.
  apply sorted_lt_ext; try apply resample_D_sorted.
  intro d. rewrite !In_resample_D. split; intros (a & b & Ha & Hb & H); exists a, b.
  - split; [exact (proj1 (In_sort_index _ _) Ha)|].
    split; [exact (proj1 (In_sort_index _ _) Hb) | exact H].
  - split; [exact (proj2 (In_sort_index _ _) Ha)|].
    split; [exact (proj2 (In_sort_index _ _) Hb) | exact H].
Qed.

Lemma distinct_dates_sort_index (rows : list Raw.bar) :
  distinct_dates (map Raw.Date (Pandas.sort_index rows))
  = distinct_dates (map Raw.Date rows).
Proof.
  apply sorted_lt_ext; try apply distinct_dates_sorted.
  intro d. rewrite !In_distinct_dates, !in_map_iff.
  split; intros (r & E & Hr); exists r; (split; [exact E|]).
  - exact (proj1 (In_sort_index _ _) Hr).
  - exact (proj2 (In_sort_index _ _) Hr).
Qed.

(** The notebook's frame does not depend on the order of the rows of
    the file, except among rows of equal timestamp. *)
Lemma notebook_frame_of_sorted (es_data : list Raw.bar) :
  Notebook.es_daily (Pandas.sort_index es_data) = Notebook.es_daily es_data.
Proof.
  unfold Notebook.es_daily, Pandas.resample_D_agg.
  now rewrite resample_D_sort_index, sort_index_idempotent.
Qed.

(** For rows in time order: the notebook's frame without its empty
    rows is the R script's frame. *)
Lemma frames_of_sorted_rows (es_data : list Raw.bar) :
  Sorted Z.le (map Raw.Time es_data) ->
  (forall b, In b es_data -> prices_defined b = true) ->
  (forall b, In b es_data -> (0 <= Raw.Volume b)%Z) ->
  (Int.total (map Raw.Volume es_data) <= Int.INT_MAX)%Z ->
  filter (fun bar => has_bars es_data (Daily.Date bar)) (Notebook.es_daily es_data)
  = RScript.es_daily es_data.
Proof.
  intros Hs Hp Hpos Hfit.
  unfold Notebook.es_daily, Pandas.resample_D_agg, RScript.es_daily, aggregate.
  rewrite (sort_index_sorted_id es_data Hs).
  rewrite filter_map_comm. simpl.
  change (filter (fun x => has_bars es_data x) (Pandas.resample_D es_data))
    with (filter (has_bars es_data) (Pandas.resample_D es_data)).
  rewrite grid_with_bars. apply map_ext_in. intros d Hd.
  apply notebook_bar_r_bar.
  - now apply group_nonempty.
  - now apply group_prices_defined.
  - intros b Hb. apply In_on_date in Hb. apply Hpos. tauto.
  - assert (H := volume_on_le_total d es_data Hpos). unfold volume_on in H. lia.
Qed.

Lemma sort_index_times_sorted (rows : list Raw.bar) :
  Sorted Z.le (map Raw.Time (Pandas.sort_index rows)).
Proof.
  assert (H := sort_index_sorted rows).
  induction H as [|r t Ht IH Hr]; simpl; [constructor|].
  constructor; [exact IH|].
  destruct t as [|x t']; simpl; constructor.
  rewrite Forall_forall in Hr. apply Hr. now left.
Qed.

Lemma closes_of_sorted_rows (es_data : list Raw.bar) :
  Sorted Z.le (map Raw.Time es_data) ->
  (forall b, In b es_data -> prices_defined b = true) ->
  Notebook.es_close (Notebook.es_daily es_data)
  = map Daily.Close (RScript.es_daily es_data).
Proof.
  intros Hs Hp. rewrite (es_close_without_gaps es_data Hp).
  unfold RScript.es_daily, aggregate. rewrite map_map. simpl.
  apply map_ext. intro d.
  now rewrite <- on_date_sort_index, (sort_index_sorted_id es_data Hs).
Qed.

End SortedFrameFacts.

(** ** Facts about the histogram data *)

Section ColumnFacts.

Import F64 Spec More.
Local Open Scope float_scope.

Lemma significant_in_histogram (records : list ReturnRecord) :
  map Daily_Return (Notebook.significant_changes records)
  = filter (fun x => 0.02 <? abs x) (Plots.histogram_data records).
Proof.
  unfold Notebook.significant_changes, Plots.histogram_data, Pandas.dropna.
  induction records as [|r t IH]; [reflexivity|]. simpl.
  destruct (0.02 <? abs (Daily_Return r)) eqn:E.
  - rewrite (exceeds_defined _ _ E). simpl. rewrite E. simpl. now rewrite IH.
  - destruct (defined (Daily_Return r)); simpl; [now rewrite E|exact IH].
Qed.

End ColumnFacts.

(** ** Facts about returns in rows without a close *)

Section MissingCloseFacts.

Import F64 Spec More.
Local Open Scope float_scope.

(** A finite non-zero number divided by itself is exactly one: the
    mantissa shifted by 53 bits is a multiple of the mantissa. *)
Lemma SF64div_diag (s : bool) (m : positive) (e : Z) :
  SF64div (S754_finite s m e) (S754_finite s m e)
  = S754_finite false 4503599627370496 (-52).
Proof.
  unfold SF64div, SFdiv, SFdiv_core_binary.
  rewrite !Z.sub_diag. rewrite xorb_nilpotent.
  change (Z.min (fexp prec emax 0) 0) with (-53)%Z.
  change (0 - -53)%Z with 53%Z. cbv iota.
  destruct (Z.div_eucl (Z.shiftl (Z.pos m) 53) (Z.pos m)) as [q r] eqn:E.
  assert (Hq : (Z.shiftl (Z.pos m) 53 / Z.pos m)%Z = q) by (unfold Z.div; now rewrite E).
  assert (Hr : (Z.shiftl (Z.pos m) 53 mod Z.pos m)%Z = r)
    by (unfold Z.modulo; now rewrite E).
  rewrite Z.shiftl_mul_pow2 in Hq, Hr by lia.
  rewrite Z.mul_comm, Z.div_mul in Hq by lia.
  rewrite Z.mul_comm, Z.mod_mul in Hr by lia.
  subst q r.
  assert (L : new_location (Z.pos m) 0 = loc_Exact).
  { unfold new_location. now destruct (Z.even (Z.pos m)). }
  rewrite L. reflexivity.
Qed.

(** The return of a close on itself is 0 or missing: never significant. *)
Lemma self_quotient_not_significant (v : float) : (0.02 <? abs (v / v - 1)) = false.
Proof.
  rewrite ltb_spec, abs_spec, sub_spec, div_spec.
  destruct (Prim2SF v) as [s|s| |s m e]; try reflexivity.
  rewrite SF64div_diag. reflexivity.
Qed.

Lemma ffill_from_missing (xs : list float) : forall prev i x,
  nth_error xs i = Some x -> is_nan x = true ->
  nth_error (Pandas.ffill_from prev xs) i
  = match i with
    | O => Some prev
    | S j => nth_error (Pandas.ffill_from prev xs) j
    end.
Proof.
  induction xs as [|y t IH]; intros prev i x Hx Hn; [now destruct i|].
  destruct i as [|j]; simpl in *.
  - injection Hx as ->. now rewrite Hn.
  - rewrite (IH _ j x Hx Hn). now destruct j.
Qed.

Lemma nth_error_combine_inv {A B} (l : list A) (l' : list B) : forall i a b,
  nth_error (combine l l') i = Some (a, b) ->
  nth_error l i = Some a /\ nth_error l' i = Some b.
Proof.
  revert l'. induction l as [|x l IH]; intros [|y l'] [|i] a b H; simpl in *;
    try discriminate.
  - injection H as -> ->. now split.
  - now apply IH.
Qed.

(** The return in a row whose close is missing does not exceed the
    threshold, whether missing closes are filled forward or not. *)
Lemma pct_change_missing_close (fill : Pandas.fill_method) (xs : list float)
  (i : nat) (x ret : float) :
  nth_error xs i = Some x -> defined x = false ->
  nth_error (Pandas.pct_change fill xs) i = Some ret ->
  (0.02 <? abs ret) = false.
Proof.
  intros Hx Hd Hret. unfold defined in Hd. apply negb_false_iff in Hd.
  unfold Pandas.pct_change in Hret. cbv zeta in Hret.
  rewrite nth_error_map in Hret.
  destruct (nth_error (combine _ _) i) as [[c p]|] eqn:Hcp; [|discriminate].
  simpl in Hret. injection Hret as <-.
  apply nth_error_combine_inv in Hcp. destruct Hcp as [Hc Hp]. cbn [fst snd].
  destruct fill; simpl in Hc, Hp.
  - unfold Pandas.ffill in Hc, Hp.
    rewrite (ffill_from_missing xs nan i x Hx Hd) in Hc.
    destruct i as [|j].
    + injection Hc as <-. now rewrite div_nan_l, sub_nan_l.
    + rewrite nth_error_lag in Hp.
      * replace (S j - 1)%nat with j in Hp by lia.
        rewrite Hc in Hp. injection Hp as <-. apply self_quotient_not_significant.
      * lia.
      * rewrite length_ffill_from. apply nth_error_Some. now rewrite Hx.
  - rewrite Hx in Hc. injection Hc as <-.
    rewrite (is_nan_eq x Hd), div_nan_l, sub_nan_l. reflexivity.
Qed.

Lemma with_returns_row (fill : Pandas.fill_method) (daily : list Daily.bar)
  (r : ReturnRecord) :
  In r (Notebook.with_returns fill daily) ->
  exists i b,
    nth_error daily i = Some b /\
    nth_error (Pandas.pct_change fill (map Daily.Close daily)) i = Some (Daily_Return r) /\
    rDate r = Daily.Date b /\ rClose r = Daily.Close b.
Proof.
  unfold Notebook.with_returns, Notebook.Daily_Return_column. intro H.
  apply in_map_iff in H. destruct H as [[b ret] [<- H]].
  apply In_nth_error in H. destruct H as [i H].
  apply nth_error_combine_inv in H. destruct H as [Hb Hret].
  exists i, b. simpl. auto.
Qed.

End MissingCloseFacts.

(** ** Facts about the rows that enter a correlation *)

Section CorrelationRowFacts.

Import F64 Spec More.
Local Open Scope float_scope.

Lemma correlation_columns (daily : list Daily.bar) (k : nat) :
  (k < 5)%nat ->
  nth k [map Daily.Open daily; map Daily.High daily; map Daily.Low daily;
         map Daily.Close daily; map (fun b => of_Z (Daily.Volume b)) daily] []
  = map (column k) daily.
Proof.
  intro H. do 5 (destruct k as [|k]; [reflexivity|]). lia.
Qed.

(** Rows in which one of the two values is not finite do not enter the
    correlation of a pair of columns. *)
Lemma nancorr_pair_skips (minp : nat) (fx fy : Daily.bar -> float)
  (p : Daily.bar -> bool) (daily : list Daily.bar) :
  (forall b, In b daily -> p b = false -> is_finite (fx b) && is_finite (fy b) = false) ->
  Pandas.nancorr_pair minp (map fx daily) (map fy daily)
  = Pandas.nancorr_pair minp (map fx (filter p daily)) (map fy (filter p daily)).
Proof.
  intro H. unfold Pandas.nancorr_pair.
  assert (E : forall st,
    fold_left Pandas.welford_step (combine (map fx daily) (map fy daily)) st
    = fold_left Pandas.welford_step
        (combine (map fx (filter p daily)) (map fy (filter p daily))) st).
  { induction daily as [|b t IH]; intro st; [reflexivity|]. simpl.
    destruct (p b) eqn:Ep; simpl.
    - apply IH. intros x Hx. apply H. now right.
    - rewrite (H b (or_introl eq_refl) Ep). apply IH. intros x Hx. apply H. now right. }
  now rewrite E.
Qed.

Lemma empty_row_prices (es_data : list Raw.bar) (bar : Daily.bar) (k : nat) :
  In bar (Notebook.es_daily es_data) -> has_bars es_data (Daily.Date bar) = false ->
  (k < 4)%nat -> column k bar = nan.
Proof.
  intros Hbar Hgap Hk. apply In_notebook_frame in Hbar. destruct Hbar as [_ E].
  rewrite notebook_gap_row in E.
  - rewrite E. do 4 (destruct k as [|k]; [reflexivity|]). lia.
  - intros r Hr Hd.
    assert (has_bars es_data (Daily.Date bar) = true)
      by (apply has_bars_iff; now exists r).
    congruence.
Qed.

End CorrelationRowFacts.

(** ** Facts about forward filling *)

Section ForwardFillFacts.

Import F64 Spec More.
Local Open Scope float_scope.

(** Forward filling carries a present value over the missing ones
    that follow it. *)
Lemma ffill_carries (xs : list float) (j : nat) (p : float) :
  nth_error xs j = Some p -> defined p = true ->
  forall n,
    (forall k, (j < k <= j + n)%nat ->
               exists x, nth_error xs k = Some x /\ defined x = false) ->
    nth_error (Pandas.ffill xs) (j + n) = Some p.
Proof.
  intros Hj Hp. induction n as [|n IH]; intro Hgap.
  - rewrite Nat.add_0_r. now apply nth_error_ffill_from.
  - destruct (Hgap (j + S n)%nat ltac:(lia)) as [x [Hx Hd]].
    unfold defined in Hd. apply negb_false_iff in Hd.
    unfold Pandas.ffill. rewrite (ffill_from_missing xs nan _ x Hx Hd).
    replace (j + S n)%nat with (S (j + n)) by lia.
    apply IH. intros k Hk. apply Hgap. lia.
Qed.

End ForwardFillFacts.

(** ** Facts about the index labels and about a close of zero *)

Section IndexAndZeroCloseFacts.

Import F64 Spec More.
Local Open Scope float_scope.

Lemma DATE_bin_label (d : CalendarDate) : DATE (Index.bin_label d) = d.
Proof. unfold DATE, Index.bin_label. apply Z.div_mul. discriminate. Qed.

(** A close that is not zero, divided by a zero close, is infinite. *)
Lemma return_on_zero_close (c p : float) :
  defined c = true -> (c =? 0) = false -> (p =? 0) = true ->
  (0.02 <? abs (c / p - 1)) = true.
Proof.
  unfold defined, is_nan. rewrite negb_true_iff. 
  rewrite ltb_spec, abs_spec, sub_spec, div_spec, !eqb_spec.
  change (Prim2SF 0) with (S754_zero false).
  destruct (Prim2SF c) as [sc|sc| |sc mc ec];
    destruct (Prim2SF p) as [sp|sp| |sp mp ep]; intros Hc Hz Hp;
    try discriminate; try (destruct sc; discriminate);
    try (destruct sp; discriminate); destruct sc, sp; reflexivity.
Qed.

Lemma zero_defined (p : float) : (p =? 0) = true -> defined p = true.
Proof.
  intro H. apply defined_SF. intro E. rewrite eqb_spec, E in H. discriminate H.
Qed.

Lemma sql_return_row (daily : list Daily.bar) (i : nat) (c p : float) :
  StronglySorted Z.lt (map Daily.Date daily) ->
  (0 < i)%nat ->
  nth_error (map Daily.Close daily) i = Some c ->
  nth_error (map Daily.Close daily) (i - 1) = Some p ->
  nth_error (map Daily_Return (SqlScript.returns (SqlScript.date_and_close daily))) i
  = Some (SQL.div (c - p) p).
Proof.
  intros Hs Hi Hc Hp. rewrite (returns_of_sorted daily Hs), map_map. cbn [Daily_Return].
  assert (Hlen : (i < length (map Daily.Close daily))%nat)
    by (apply nth_error_Some; congruence).
  rewrite nth_error_map in Hc.
  destruct (nth_error daily i) as [b|] eqn:Hb; [|discriminate].
  simpl in Hc. injection Hc as Hc.
  rewrite nth_error_map, (nth_error_combine _ _ i b p Hb).
  - simpl. now rewrite Hc.
  - now rewrite nth_error_lag.
Qed.

End IndexAndZeroCloseFacts.

(** * The claims *)

Import F64 Spec.

Section Claim_C1.

Local Open Scope float_scope.

(** C1, evaluated where the SQL script breaks it: on one date with two
    bars, the first opening at 100 and the last closing at 100, the
    notebook and the R script give open 100 and close 100, while the
    SQL script gives open 99.5 (the smallest open) and close 100.5 (the
    largest close); high, low and volume agree in all three. *)
Theorem C1_sql_open_close_not_first_last :
  Notebook.es_daily Sample.one_day_two_bars = [Daily.mk 0 100 102 99 100 30] /\
  RScript.es_daily Sample.one_day_two_bars = [Daily.mk 0 100 102 99 100 30] /\
  SqlScript.daily_aggregation Sample.one_day_two_bars = [Daily.mk 0 99.5 102 99 100.5 30] /\
  daily_bar_of Sample.one_day_two_bars (Daily.mk 0 100 102 99 100 30) /\
  ~ daily_bar_of Sample.one_day_two_bars (Daily.mk 0 99.5 102 99 100.5 30).
Proof.
  split; [vm_compute; reflexivity|].
  split; [vm_compute; reflexivity|].
  split; [vm_compute; reflexivity|].
  split.
  - change (Daily.mk 0 100 102 99 100 30)
      with (reduce_group Notebook.agg_spec 0%Z Sample.one_day_two_bars).
    apply notebook_daily_bar.
    + discriminate.
    + intros b [<- | [<- | []]]; reflexivity.
    + vm_compute. split; [discriminate | reflexivity].
  - intros (Hopen & _). vm_compute in Hopen.
    apply (f_equal (fun o => match o with Some x => x =? 99.5 | None => false end)) in Hopen.
    vm_compute in Hopen. discriminate.
Qed.

End Claim_C1.

Section Claim_C2.

Local Open Scope Z_scope.

(** C2, refuted as stated: for two bars two days apart the notebook's
    daily frame also has a row for the day in between, a date that does
    not occur in the input. *)
Lemma C2_gap_day_counterexample :
  In 1 (map Daily.Date (Notebook.es_daily Sample.two_days_apart)) /\
  ~ In 1 (map Raw.Date Sample.two_days_apart).
Proof.
  split.
  - vm_compute. tauto.
  - vm_compute. intros [H | [H | []]]; discriminate.
Qed.

(** C2, amended.  For every input (sorted or not, empty or not) the
    notebook's daily frame has exactly one row for every calendar day
    from the earliest to the latest input date, hence one for every date
    of the input, in ascending date order; the int64 sum of its volumes
    is the int64 sum of the input volumes, and the two sums agree as
    integers when the volumes are non-negative and their total is below
    2^63; the empty input gives the empty frame. *)
Theorem C2_notebook_daily_grid (es_data : list Raw.bar) :
  let out := Notebook.es_daily es_data in
  (forall d, In d (map Daily.Date out) <->
             exists a b, In a es_data /\ In b es_data /\ Raw.Date a <= d <= Raw.Date b)
  /\ (forall r, In r es_data -> In (Raw.Date r) (map Daily.Date out))
  /\ StronglySorted Z.lt (map Daily.Date out)
  /\ Pandas.sum (map Daily.Volume out) = Pandas.sum (map Raw.Volume es_data)
  /\ ((forall r, In r es_data -> 0 <= Raw.Volume r) ->
      Int.total (map Raw.Volume es_data) < 2 ^ 63 ->
      Int.total (map Daily.Volume out) = Int.total (map Raw.Volume es_data))
  /\ Notebook.es_daily [] = [].
Proof.
  intro out. unfold out.
  assert (Hnd : NoDup (Pandas.resample_D es_data))
    by (apply sorted_lt_NoDup, resample_D_sorted).
  assert (Hpart := volume_partition _ es_data Hnd (resample_D_covers es_data)).
  repeat split.
  - rewrite notebook_dates. apply In_resample_D.
  - rewrite notebook_dates. apply In_resample_D.
  - intros r Hr. rewrite notebook_dates. now apply resample_D_covers.
  - rewrite notebook_dates. apply resample_D_sorted.
  - rewrite notebook_volumes, !pandas_sum_total.
    rewrite (wrap64_total_map (fun d => volume_on d es_data)). now rewrite Hpart.
  - intros Hpos Hfit. rewrite notebook_volumes, <- Hpart. f_equal.
    apply map_ext_in. intros d Hd. apply wrap64_small.
    assert (H0 := volume_on_nonneg d es_data Hpos).
    assert (H1 : volume_on d es_data <= Int.total (map (fun d => volume_on d es_data) (Pandas.resample_D es_data))).
    { apply total_bounds_member.
      - intros y Hy. apply in_map_iff in Hy. destruct Hy as (k & <- & _).
        now apply volume_on_nonneg.
      - apply in_map_iff. now exists d. }
    lia.
Qed.

(** The theorem of C2 at a concrete input. *)
Lemma C2_notebook_daily_grid_witness :
  (forall r, In r Sample.two_days_apart -> 0 <= Raw.Volume r) /\
  Int.total (map Raw.Volume Sample.two_days_apart) < 2 ^ 63 /\
  Int.total (map Daily.Volume (Notebook.es_daily Sample.two_days_apart)) =
  Int.total (map Raw.Volume Sample.two_days_apart).
Proof.
  assert (H1 : forall r, In r Sample.two_days_apart -> 0 <= Raw.Volume r).
  { intros r [<- | [<- | []]]; simpl; lia. }
  assert (H2 : Int.total (map Raw.Volume Sample.two_days_apart) < 2 ^ 63)
    by (vm_compute; reflexivity).
  split; [exact H1 | split; [exact H2 |]].
  exact (proj1 (proj2 (proj2 (proj2 (proj2 (C2_notebook_daily_grid Sample.two_days_apart))))) H1 H2).
Defined.

End Claim_C2.

Section Claim_C3.

Local Open Scope float_scope.




End Claim_C3.

Section Claim_C4.

Local Open Scope float_scope.

(** C4, refuted as stated: for the closes 100 and 103 the notebook's
    return is the binary64 value of 103/100 - 1, which is not the
    binary64 value of (103 - 100)/100. *)
Lemma C4_rounding_counterexample :
  nth_error (Notebook.Daily_Return_column Pandas.pad
               Sample.up_three_percent) 1
    = Some (103 / 100 - 1) /\
  nth_error (Notebook.Daily_Return_column Pandas.no_fill
               Sample.up_three_percent) 1
    = Some (103 / 100 - 1) /\
  103 / 100 - 1 <> (103 - 100) / 100.
Proof.
  repeat split.
  intro H. apply (f_equal (fun x => x =? (103 - 100) / 100)) in H.
  vm_compute in H. discriminate.
Qed.

(** C4, amended.  Both variants give one record per daily bar, in the
    same order, and a missing return on the first record.  At an index
    i > 0 the notebook's return is close[i] / close[i-1] - 1, whenever
    both closes are present; the SQL script's return, for bars in date
    order, is (close[i] - close[i-1]) / close[i-1] in SQL's division,
    which is binary64 division unless close[i-1] is 0. *)
Theorem C4_daily_returns (fill : Pandas.fill_method) (daily : list Daily.bar) :
  let closes := map Daily.Close daily in
  let nb := Notebook.with_returns fill daily in
  let sql := SqlScript.returns (SqlScript.date_and_close daily) in
  (map rDate nb = map Daily.Date daily /\ map rClose nb = closes)
  /\ (daily <> [] -> nth_error (map Daily_Return nb) 0 = Some nan)
  /\ (forall i c p,
        (0 < i)%nat -> nth_error closes i = Some c -> nth_error closes (i - 1) = Some p ->
        defined c = true -> defined p = true ->
        nth_error (map Daily_Return nb) i = Some (c / p - 1))
  /\ (StronglySorted Z.lt (map Daily.Date daily) ->
        (map rDate sql = map Daily.Date daily /\ map rClose sql = closes)
        /\ (daily <> [] -> nth_error (map Daily_Return sql) 0 = Some SQL.NULL)
        /\ (forall i c p,
              (0 < i)%nat -> nth_error closes i = Some c ->
              nth_error closes (i - 1) = Some p ->
              nth_error (map Daily_Return sql) i = Some (SQL.div (c - p) p)
              /\ ((p =? 0) = false -> SQL.div (c - p) p = (c - p) / p))).
Proof.
  intros closes nb sql.
  assert (Hlen : length daily = length (Notebook.Daily_Return_column fill daily)).
  { unfold Notebook.Daily_Return_column. now rewrite length_pct_change, length_map. }
  assert (Hret : map Daily_Return nb = Notebook.Daily_Return_column fill daily).
  { unfold nb, Notebook.with_returns. rewrite map_map. simpl.
    now apply map_snd_combine. }
  split; [|split; [|split]].
  - unfold nb, Notebook.with_returns. rewrite !map_map. simpl.
    split; now apply map_of_fst_combine.
  - intro Hne. rewrite Hret. unfold Notebook.Daily_Return_column.
    destruct daily as [|b rest]; [contradiction|]. apply pct_change_first.
  - intros i c p H0 Hc Hp Dc Dp. rewrite Hret. now apply pct_change_row.
  - intro Hs. unfold sql. rewrite (returns_of_sorted daily Hs).
    assert (Hl : length daily = length (lag (map Daily.Close daily)))
      by now rewrite length_lag, length_map.
    rewrite !map_map. simpl. split; [|split].
    + split; now apply map_of_fst_combine.
    + intro Hne. destruct daily as [|b rest]; [contradiction|]. simpl.
      unfold SQL.div. now rewrite sub_nan_r, div_nan_l.
    + intros i c p H0 Hc Hp. split.
      * assert (Hi : (i < length closes)%nat) by (apply nth_error_Some; congruence).
        rewrite nth_error_map.
        assert (Hb : exists b, nth_error daily i = Some b /\ Daily.Close b = c).
        { unfold closes in Hc. rewrite nth_error_map in Hc.
          destruct (nth_error daily i) as [b|]; [|discriminate].
          exists b. split; [reflexivity|]. simpl in Hc. congruence. }
        destruct Hb as (b & Hb & <-).
        rewrite (nth_error_combine _ _ i b p Hb); [reflexivity|].
        rewrite nth_error_lag; [exact Hp | exact H0 | exact Hi].
      * intro Hz. unfold SQL.div. now rewrite Hz.
Qed.

(** The theorem of C4 at a concrete input. *)
Lemma C4_daily_returns_witness :
  StronglySorted Z.lt
    (map Daily.Date Sample.up_three_percent) /\
  nth_error
    (map Daily_Return
       (Notebook.with_returns Pandas.pad
          Sample.up_three_percent)) 1
    = Some (103 / 100 - 1) /\
  nth_error
    (map Daily_Return
       (SqlScript.returns
          (SqlScript.date_and_close
             Sample.up_three_percent))) 1
    = Some (SQL.div (103 - 100) 100).
Proof.
  pose (daily := Sample.up_three_percent).
  assert (Hs : StronglySorted Z.lt (map Daily.Date daily)) by repeat constructor.
  destruct (C4_daily_returns Pandas.pad daily) as (_ & _ & Hrow & Hsql).
  destruct (Hsql Hs) as (_ & _ & Hrow').
  split; [exact Hs | split].
  - exact (Hrow 1%nat 103 100 Nat.lt_0_1 eq_refl eq_refl eq_refl eq_refl).
  - exact (proj1 (Hrow' 1%nat 103 100 Nat.lt_0_1 eq_refl eq_refl)).
Defined.

End Claim_C4.

Section Claim_C5.

Local Open Scope float_scope.

(** C5.  In the notebook and in the SQL script the significant-move
    filter keeps a record exactly when its return is present and
    exceeds 0.02 in absolute value; a record whose return is missing is
    left out, and the filter itself cannot fail.  Closes 100, 103 give
    a return of 0.03 (exactly in SQL, to within 1e-16 in the notebook),
    which is kept; closes 100, 101 give 0.01, which is not. *)
Theorem C5_significant_moves (records : list ReturnRecord) (r : ReturnRecord) :
  (In r (Notebook.significant_changes records) <->
     In r records /\ defined (Daily_Return r) = true /\
     (0.02 <? abs (Daily_Return r)) = true)
  /\ (In r (SqlScript.significant_changes records) <->
        In r records /\ defined (Daily_Return r) = true /\
        (0.02 <? abs (Daily_Return r)) = true)
  /\ (defined (Daily_Return r) = false ->
        ~ In r (Notebook.significant_changes records) /\
        ~ In r (SqlScript.significant_changes records))
  /\ (let up := Sample.up_three_percent in
      let flat := Sample.up_one_percent in
      (forall fill,
         Notebook.significant_changes (Notebook.with_returns fill up)
           = [mkReturn 1 103 (103 / 100 - 1)] /\
         Notebook.significant_changes (Notebook.with_returns fill flat) = [])
      /\ (abs (103 / 100 - 1 - 0.03) <? 1e-16) = true
      /\ (abs (101 / 100 - 1 - 0.01) <? 1e-16) = true
      /\ SqlScript.significant_changes (SqlScript.returns (SqlScript.date_and_close up))
           = [mkReturn 1 103 0.03]
      /\ map Daily_Return (SqlScript.returns (SqlScript.date_and_close flat))
           = [SQL.NULL; 0.01]
      /\ SqlScript.significant_changes (SqlScript.returns (SqlScript.date_and_close flat))
           = []).
Proof.
  assert (Hkeep : forall x, (0.02 <? abs x) = true <->
                            defined x = true /\ (0.02 <? abs x) = true).
  { intro x. split; [|tauto]. intro H. split; [now apply exceeds_defined with 0.02 | exact H]. }
  split; [|split; [|split]].
  - unfold Notebook.significant_changes. rewrite filter_In, Hkeep. tauto.
  - unfold SqlScript.significant_changes, SQL.ABS. rewrite filter_In, Hkeep. tauto.
  - intro Hu. unfold Notebook.significant_changes, SqlScript.significant_changes, SQL.ABS.
    rewrite !filter_In. split; intros [_ H]; apply exceeds_defined in H; congruence.
  - repeat split; try (destruct fill); vm_compute; reflexivity.
Qed.

(** The theorem of C5 at a concrete input. *)
Lemma C5_significant_moves_witness :
  defined (Daily_Return (mkReturn 0 100 nan)) = false /\
  ~ In (mkReturn 0 100 nan)
       (Notebook.significant_changes
          (Notebook.with_returns Pandas.pad Sample.up_three_percent)).
Proof.
  split; [reflexivity|].
  exact (proj1 (proj1 (proj2 (proj2
           (C5_significant_moves
              (Notebook.with_returns Pandas.pad Sample.up_three_percent)
              (mkReturn 0 100 nan)))) eq_refl)).
Defined.

End Claim_C5.

Section Claim_C6.

Local Open Scope float_scope.

(** C6, refuted as stated: on well-formed bars two days apart the
    notebook also produces a bar for the day in between, whose high and
    low are missing, so that high >= low does not hold of it. *)
Lemma C6_gap_day_counterexample :
  forallb well_formed Sample.two_days_apart = true /\
  exists bar, In bar (Notebook.es_daily Sample.two_days_apart) /\
              (Daily.Low bar <=? Daily.High bar) = false.
Proof.
  split; [reflexivity|].
  exists (Daily.mk 1 nan nan nan nan 0). split; [vm_compute; tauto | reflexivity].
Qed.

(** C6, amended.  When every input bar has high >= max(open, close) and
    low <= min(open, close): every daily bar of the SQL script and of
    the R script has high >= low, and so has every daily bar of the
    notebook that stands for a date on which a bar exists. *)
Theorem C6_daily_high_not_below_low (es_data : list Raw.bar) :
  (forall b, In b es_data -> well_formed b = true) ->
  (forall bar, In bar (Notebook.es_daily es_data) ->
     (exists r, In r es_data /\ Raw.Date r = Daily.Date bar) ->
     (Daily.Low bar <=? Daily.High bar) = true)
  /\ (forall bar, In bar (SqlScript.daily_aggregation es_data) ->
        (Daily.Low bar <=? Daily.High bar) = true)
  /\ (forall bar, In bar (RScript.es_daily es_data) ->
        (Daily.Low bar <=? Daily.High bar) = true).
Proof.
  intro Hwf. repeat split.
  - intros bar Hbar Hrow.
    exact (aggregate_low_high Notebook.agg_spec _ _ pandas_max_bounds pandas_min_bounds
             (sort_index_forall _ _ Hwf) bar Hbar (sort_index_has_row _ _ Hrow)).
  - intros bar Hbar.
    apply (aggregate_low_high SqlScript.select_list _ _ sql_MAX_bounds sql_MIN_bounds
             Hwf bar Hbar).
    apply grouped_dates_have_rows. apply In_aggregate in Hbar. tauto.
  - intros bar Hbar.
    apply (aggregate_low_high (RScript.summarise_spec _) _ _ r_max_bounds r_min_bounds
             Hwf bar Hbar).
    apply grouped_dates_have_rows. apply In_aggregate in Hbar. tauto.
Qed.

(** The theorem of C6 at a concrete input. *)
Lemma C6_daily_high_not_below_low_witness :
  (forall b, In b Sample.two_days_apart -> well_formed b = true) /\
  (forall bar, In bar (SqlScript.daily_aggregation Sample.two_days_apart) ->
     (Daily.Low bar <=? Daily.High bar) = true).
Proof.
  assert (Hwf : forall b, In b Sample.two_days_apart -> well_formed b = true).
  { intros b [<- | [<- | []]]; reflexivity. }
  split; [exact Hwf|].
  exact (proj1 (proj2 (C6_daily_high_not_below_low Sample.two_days_apart Hwf))).
Defined.

End Claim_C6.

Section Claim_C7.

Local Open Scope float_scope.

(** C7, refuted as stated: on the daily frame of a single date the
    notebook's correlation cell raises nothing; it returns a matrix,
    and every entry of it is NaN. *)
Lemma C7_no_error_counterexample :
  Notebook.correlation_matrix (Notebook.es_daily [Sample.bar_at 570 10])
    = Returned (repeat (repeat nan 5) 5) /\
  Notebook.correlation_matrix (Notebook.es_daily [Sample.bar_at 570 10])
    <> Raised InsufficientData.
Proof. split; [vm_compute; reflexivity | discriminate]. Qed.

(** C7, amended.  Given fewer than 2 dates with data (a daily frame of
    at most one row, as the notebook builds from bars that all fall on
    one date) the notebook's reporter does not fail: it returns the
    5 x 5 matrix whose entries are all NaN. *)
Theorem C7_correlation_of_short_frame (daily : list Daily.bar) (es_data : list Raw.bar) :
  ((length daily < 2)%nat ->
   Notebook.correlation_matrix daily = Returned (repeat (repeat nan 5) 5))
  /\ ((forall a b, In a es_data -> In b es_data -> Raw.Date a = Raw.Date b) ->
      Notebook.correlation_matrix (Notebook.es_daily es_data)
        = Returned (repeat (repeat nan 5) 5)).
Proof.
  split.
  - apply short_frame_correlation.
  - intro H. apply short_frame_correlation. now apply single_date_frame.
Qed.

(** The theorem of C7 at a concrete input. *)
Lemma C7_correlation_of_short_frame_witness :
  (length (Notebook.es_daily [Sample.bar_at 570 10]) < 2)%nat /\
  Notebook.correlation_matrix (Notebook.es_daily [Sample.bar_at 570 10])
    = Returned (repeat (repeat nan 5) 5).
Proof.
  assert (H : (length (Notebook.es_daily [Sample.bar_at 570 10]) < 2)%nat)
    by (vm_compute; lia).
  split; [exact H|].
  exact (proj1 (C7_correlation_of_short_frame _ []) H).
Defined.

End Claim_C7.

Section Claim_C9.

Local Open Scope Z_scope.

(** C9, evaluated where the notebook breaks it: whenever the fit
    succeeds, [predict(start=len(es_close), end=len(es_close) + 30)]
    returns the forecasts of the positions n, n+1, ..., n+30 after the
    n observed closes, which are 31 periods and not 30. *)
Theorem C9_forecast_spans_31_periods (ARIMAResults : Type)
  (ARIMA_fit : list float -> nat * nat * nat -> outcome ARIMAResults)
  (point_forecast : ARIMAResults -> Z -> float)
  (daily : list Daily.bar) (forecast : list (Z * float)) :
  Notebook.Forecast ARIMAResults ARIMA_fit point_forecast daily = Returned forecast ->
  let n := Z.of_nat (length (Notebook.es_close daily)) in
  map fst forecast = inclusive_range n (n + 30) /\
  length forecast = 31%nat /\
  (forall t, In t (map fst forecast) <-> n <= t <= n + 30).
Proof.
  intros H n. unfold Notebook.Forecast in H. cbv zeta in H.
  destruct (ARIMA_fit (Notebook.es_close daily) (5, 1, 0)%nat) as [res|e]; [|discriminate].
  inversion H; subst forecast; clear H. fold n.
  assert (E : map fst (Notebook.predict ARIMAResults point_forecast res n (n + 30))
              = inclusive_range n (n + 30)).
  { unfold Notebook.predict. rewrite map_map. simpl. apply map_id. }
  split; [exact E | split].
  - rewrite <- (length_map fst), E, length_inclusive_range.
    replace (n + 30 - n + 1) with 31 by lia. reflexivity.
  - intro t. rewrite E. apply In_inclusive_range.
Qed.

(** The theorem of C9 at a concrete input. *)
Lemma C9_forecast_spans_31_periods_witness :
  Notebook.Forecast unit (fun _ _ => Returned tt) (fun _ _ => 0%float)
    Sample.up_three_percent
    = Returned (map (fun t => (t, 0%float)) (inclusive_range 2 32)) /\
  length (map (fun t => (t, 0%float)) (inclusive_range 2 32)) = 31%nat.
Proof.
  assert (H : Notebook.Forecast unit (fun _ _ => Returned tt) (fun _ _ => 0%float)
                Sample.up_three_percent
              = Returned (map (fun t => (t, 0%float)) (inclusive_range 2 32)))
    by reflexivity.
  split; [exact H|].
  exact (proj1 (proj2 (C9_forecast_spans_31_periods unit _ _ _ _ H))).
Defined.

End Claim_C9.

Section Claim_C10.

Local Open Scope Z_scope.

(** C10.  In the notebook the daily frame has one row for every calendar
    day from the earliest to the latest input date, in ascending order
    (for input sorted by time: from the date of the first bar to the
    date of the last); the row of a day without any bar has volume 0
    and missing open, high, low and close. *)
Theorem C10_notebook_calendar_grid (es_data : list Raw.bar) :
  let out := Notebook.es_daily es_data in
  (forall d, In d (map Daily.Date out) <->
             exists a b, In a es_data /\ In b es_data /\ Raw.Date a <= d <= Raw.Date b)
  /\ StronglySorted Z.lt (map Daily.Date out)
  /\ (forall first rest, es_data = first :: rest ->
        Sorted Z.le (map Raw.Time es_data) ->
        map Daily.Date out = inclusive_range (Raw.Date first) (Raw.Date (last rest first)))
  /\ (forall bar, In bar out ->
        (forall r, In r es_data -> Raw.Date r <> Daily.Date bar) ->
        bar = Daily.mk (Daily.Date bar) nan nan nan nan 0).
Proof.
  intro out. unfold out. rewrite notebook_dates. repeat split.
  - apply In_resample_D.
  - apply In_resample_D.
  - apply resample_D_sorted.
  - intros first rest -> Hs.
    apply sorted_lt_ext; [apply resample_D_sorted | apply inclusive_range_sorted |].
    intro d. rewrite In_resample_D, In_inclusive_range. split.
    + intros (a & b & Ha & Hb & H).
      assert (H1 := timestamps_bound_dates _ _ Hs a Ha).
      assert (H2 := timestamps_bound_dates _ _ Hs b Hb). lia.
    + intro H. exists first, (last rest first). repeat split; try lia.
      * now left.
      * apply last_In.
  - intros bar Hbar Hgap. apply In_notebook_frame in Hbar. destruct Hbar as [_ E].
    rewrite E at 1. now apply notebook_gap_row.
Qed.

(** The theorem of C10 at a concrete input. *)
Lemma C10_notebook_calendar_grid_witness :
  map Daily.Date (Notebook.es_daily Sample.two_days_apart) = [0; 1; 2] /\
  In (Daily.mk 1 nan nan nan nan 0) (Notebook.es_daily Sample.two_days_apart).
Proof.
  destruct (C10_notebook_calendar_grid Sample.two_days_apart) as (_ & _ & Hrange & Hgap).
  split.
  - apply (Hrange (Sample.bar_at 570 10) [Sample.bar_at 3450 20] eq_refl).
    repeat constructor. simpl. lia.
  - assert (Hin : In (Daily.mk 1 nan nan nan nan 0) (Notebook.es_daily Sample.two_days_apart))
      by (vm_compute; tauto).
    exact Hin.
Defined.

End Claim_C10.

(** * Further properties of the code *)

Import More.

Section Extra_X1.

Local Open Scope float_scope.

(** X1.  The aggregation keeps the invariant of market data: when every
    input bar has high >= max(open, close) and low <= min(open, close),
    so has every daily bar of the SQL script and of the R script, and
    every daily bar of the notebook on a date that has a bar. *)
Theorem X1_daily_bars_well_formed (es_data : list Raw.bar) :
  (forall b, In b es_data -> well_formed b = true) ->
  (forall bar, In bar (Notebook.es_daily es_data) ->
     (exists r, In r es_data /\ Raw.Date r = Daily.Date bar) ->
     well_formed_daily bar = true)
  /\ (forall bar, In bar (SqlScript.daily_aggregation es_data) ->
        well_formed_daily bar = true)
  /\ (forall bar, In bar (RScript.es_daily es_data) ->
        well_formed_daily bar = true).
Proof.
  intro Hwf. repeat split.
  - intros bar Hbar Hrow.
    exact (aggregate_well_formed Notebook.agg_spec _ _ pandas_first_picks pandas_last_picks
             pandas_max_bounds pandas_min_bounds (sort_index_forall _ _ Hwf) bar Hbar
             (sort_index_has_row _ _ Hrow)).
  - intros bar Hbar.
    apply (aggregate_well_formed SqlScript.select_list _ _ sql_MIN_picks sql_MAX_picks
             sql_MAX_bounds sql_MIN_bounds Hwf bar Hbar).
    apply grouped_dates_have_rows. apply In_aggregate in Hbar. tauto.
  - intros bar Hbar.
    apply (aggregate_well_formed (RScript.summarise_spec _) _ _ r_first_picks r_last_picks
             r_max_bounds r_min_bounds Hwf bar Hbar).
    apply grouped_dates_have_rows. apply In_aggregate in Hbar. tauto.
Qed.

(** The theorem of X1 at a concrete input. *)
Lemma X1_daily_bars_well_formed_witness :
  (forall b, In b Sample.one_day_two_bars -> well_formed b = true) /\
  (forall bar, In bar (SqlScript.daily_aggregation Sample.one_day_two_bars) ->
     well_formed_daily bar = true).
Proof.
  assert (Hwf : forall b, In b Sample.one_day_two_bars -> well_formed b = true).
  { intros b [<- | [<- | []]]; reflexivity. }
  split; [exact Hwf|].
  exact (proj1 (proj2 (X1_daily_bars_well_formed Sample.one_day_two_bars Hwf))).
Defined.

End Extra_X1.

Section Extra_X2.

Local Open Scope float_scope.

(** X2.  A date with a single bar: each of the three variants gives it
    the daily bar that has the open, high, low, close and volume of
    that bar, unchanged (the prices being present and the volume within
    the 32-bit range of R). *)
Theorem X2_single_bar_day (es_data : list Raw.bar) (b : Raw.bar) :
  on_date (Raw.Date b) es_data = [b] ->
  prices_defined b = true ->
  (- Int.INT_MAX <= Raw.Volume b <= Int.INT_MAX)%Z ->
  In (as_daily b) (Notebook.es_daily es_data) /\
  In (as_daily b) (SqlScript.daily_aggregation es_data) /\
  In (as_daily b) (RScript.es_daily es_data).
Proof.
  intros Hg Hp Hv.
  assert (Hb : In b es_data).
  { assert (H : In b (on_date (Raw.Date b) es_data)) by (rewrite Hg; now left).
    apply In_on_date in H. tauto. }
  unfold prices_defined in Hp. rewrite !andb_true_iff in Hp.
  destruct Hp as [[[Do Dh] Dl] Dc].
  assert (Hkey : In (Raw.Date b) (distinct_dates (map Raw.Date es_data)))
    by (apply In_distinct_dates; now apply in_map).
  assert (Vn : Pandas.sum [Raw.Volume b] = Raw.Volume b).
  { rewrite pandas_sum_total, total_cons, total_nil, wrap64_small;
      unfold Int.INT_MAX in Hv; lia. }
  assert (Vs : SQL.SUM [Raw.Volume b] = Raw.Volume b).
  { unfold SQL.SUM. rewrite total_cons, total_nil. lia. }
  assert (Vr : forall type, R.sum type [Raw.Volume b] = Raw.Volume b).
  { intro type. rewrite r_sum_fits; rewrite ?total_cons, ?total_nil; try lia.
    intros v [<- | []]. now apply fits_integer_bounds. }
  split; [|split].
  - apply In_notebook_frame. split; [simpl; auto using resample_D_covers|].
    cbn [as_daily Daily.Date]. rewrite on_date_sort_index, Hg.
    unfold as_daily, reduce_group, Notebook.agg_spec.
    cbn [Pandas.sort_index fold_right Pandas.insert_by_time
         map agg_Open agg_High agg_Low agg_Close agg_Volume].
    rewrite (picks_singleton _ _ pandas_first_picks Do),
      (picks_singleton _ _ pandas_max_picks Dh),
      (picks_singleton _ _ pandas_min_picks Dl),
      (picks_singleton _ _ pandas_last_picks Dc), Vn. reflexivity.
  - apply In_aggregate. split; [simpl; exact Hkey|].
    cbn [as_daily Daily.Date]. rewrite Hg.
    unfold as_daily, reduce_group, SqlScript.select_list.
    cbn [map agg_Open agg_High agg_Low agg_Close agg_Volume].
    rewrite (picks_singleton _ _ sql_MIN_picks Do),
      (picks_singleton _ _ sql_MAX_picks Dh),
      (picks_singleton _ _ sql_MIN_picks Dl),
      (picks_singleton _ _ sql_MAX_picks Dc), Vs. reflexivity.
  - apply In_aggregate. split; [simpl; exact Hkey|].
    cbn [as_daily Daily.Date]. rewrite Hg.
    unfold as_daily, reduce_group, RScript.summarise_spec.
    cbn [map agg_Open agg_High agg_Low agg_Close agg_Volume].
    rewrite (picks_singleton _ _ r_first_picks Do),
      (picks_singleton _ _ r_max_picks Dh),
      (picks_singleton _ _ r_min_picks Dl),
      (picks_singleton _ _ r_last_picks Dc), Vr. reflexivity.
Qed.

(** The theorem of X2 at a concrete input. *)
Lemma X2_single_bar_day_witness :
  on_date (Raw.Date (Sample.bar_at 570 10)) Sample.two_days_apart = [Sample.bar_at 570 10] /\
  In (as_daily (Sample.bar_at 570 10)) (Notebook.es_daily Sample.two_days_apart).
Proof.
  assert (Hg : on_date (Raw.Date (Sample.bar_at 570 10)) Sample.two_days_apart
               = [Sample.bar_at 570 10]) by reflexivity.
  split; [exact Hg|].
  refine (proj1 (X2_single_bar_day Sample.two_days_apart (Sample.bar_at 570 10) Hg eq_refl _)).
  unfold Int.INT_MAX. simpl. lia.
Defined.

End Extra_X2.

Section Extra_X3_X5.

Local Open Scope float_scope.

(** X3.  Dropping from the notebook's daily frame the rows of the days
    that have no bar gives, row for row, the daily frame that the R
    script computes from the same bars put in time order (which
    [resample] does and the R script does not), and so the R script's
    own frame when the file is in time order; all prices being
    present, the volumes not negative and their total within a 32-bit
    integer. *)
Theorem X3_notebook_frame_without_gaps (es_data : list Raw.bar) :
  (forall b, In b es_data -> prices_defined b = true) ->
  (forall b, In b es_data -> (0 <= Raw.Volume b)%Z) ->
  (Int.total (map Raw.Volume es_data) <= Int.INT_MAX)%Z ->
  filter (fun bar => has_bars es_data (Daily.Date bar)) (Notebook.es_daily es_data)
    = RScript.es_daily (Pandas.sort_index es_data)
  /\ (Sorted Z.le (map Raw.Time es_data) ->
      filter (fun bar => has_bars es_data (Daily.Date bar)) (Notebook.es_daily es_data)
        = RScript.es_daily es_data).
Proof.
  intros Hp Hpos Hfit. split.
  - rewrite <- (notebook_frame_of_sorted es_data).
    rewrite (filter_ext (fun bar => has_bars es_data (Daily.Date bar))
               (fun bar => has_bars (Pandas.sort_index es_data) (Daily.Date bar)))
      by (intro bar; now rewrite has_bars_sort_index).
    apply frames_of_sorted_rows.
    + apply sort_index_times_sorted.
    + now apply sorted_prices_defined.
    + now apply sort_index_forall.
    + rewrite (total_perm _ (map Raw.Volume es_data)); [exact Hfit|].
      apply Permutation_map, sort_index_perm.
  - intro Hs. now apply frames_of_sorted_rows.
Qed.

(** The theorem of X3 on one day's two bars given latest first. *)
Lemma X3_notebook_frame_without_gaps_witness :
  Notebook.es_daily (rev Sample.one_day_two_bars)
    = RScript.es_daily Sample.one_day_two_bars /\
  RScript.es_daily (rev Sample.one_day_two_bars)
    = [Daily.mk 0 99.5 102 99 100.5 30].
Proof.
  split; [|reflexivity].
  refine (proj1 (X3_notebook_frame_without_gaps (rev Sample.one_day_two_bars) _ _ _)).
  - intros b [<- | [<- | []]]; reflexivity.
  - intros b [<- | [<- | []]]; simpl; lia.
  - vm_compute. discriminate.
Defined.

(** X4.  The series that the notebook hands to the forecaster, the
    closes of the daily frame with the missing ones dropped, holds one
    close per date that has bars, in date order: the close of the bar
    of that date that is last in time, which for a file in time order
    is the close column of the R script's daily frame (all prices
    being present). *)
Theorem X4_es_close_is_the_gap_free_series (es_data : list Raw.bar) :
  (forall b, In b es_data -> prices_defined b = true) ->
  Notebook.es_close (Notebook.es_daily es_data)
    = map Daily.Close (RScript.es_daily (Pandas.sort_index es_data))
  /\ (Sorted Z.le (map Raw.Time es_data) ->
      Notebook.es_close (Notebook.es_daily es_data)
        = map Daily.Close (RScript.es_daily es_data))
  /\ length (Notebook.es_close (Notebook.es_daily es_data))
     = length (distinct_dates (map Raw.Date es_data))
  /\ all_defined (Notebook.es_close (Notebook.es_daily es_data)).
Proof.
  intro Hp. split; [|split; [|split]].
  - rewrite <- (notebook_frame_of_sorted es_data).
    apply closes_of_sorted_rows;
      [apply sort_index_times_sorted | now apply sorted_prices_defined].
  - intro Hs. now apply closes_of_sorted_rows.
  - rewrite (es_close_without_gaps es_data Hp). now rewrite length_map.
  - unfold Notebook.es_close, Pandas.dropna, all_defined. apply Forall_forall.
    intros x Hx. apply filter_In in Hx. tauto.
Qed.

(** The theorem of X4 on one day's two bars given latest first. *)
Lemma X4_es_close_is_the_gap_free_series_witness :
  Notebook.es_close (Notebook.es_daily (rev Sample.one_day_two_bars)) = [100] /\
  map Daily.Close (RScript.es_daily (rev Sample.one_day_two_bars)) = [100.5].
Proof.
  split; [|reflexivity].
  refine (proj1 (X4_es_close_is_the_gap_free_series (rev Sample.one_day_two_bars) _)).
  intros b [<- | [<- | []]]; reflexivity.
Defined.

(** X5.  Date by date, the SQL script's daily bar has the high and the
    low of the R script's (and the same date), an open that is not
    above the first open and a close that is not below the last close
    (all prices being present). *)
Theorem X5_sql_open_close_bracket (es_data : list Raw.bar) :
  (forall b, In b es_data -> prices_defined b = true) ->
  Forall2
    (fun s r =>
       Daily.Date s = Daily.Date r /\
       Daily.High s = Daily.High r /\ Daily.Low s = Daily.Low r /\
       (Daily.Open s <=? Daily.Open r) = true /\
       (Daily.Close r <=? Daily.Close s) = true)
    (SqlScript.daily_aggregation es_data) (RScript.es_daily es_data).
Proof.
  intro Hp. unfold SqlScript.daily_aggregation, RScript.es_daily, aggregate.
  apply Forall2_map_same. intros d Hd. simpl.
  assert (Hne := group_nonempty es_data d Hd).
  destruct (prices_defined_columns _ (group_prices_defined es_data d Hp))
    as (Ho & Hh & Hl & Hc).
  set (g := on_date d es_data) in *.
  split; [reflexivity|]. split; [|split; [|split]].
  - apply sql_MAX_r_max; [exact Hh | now apply map_nonempty].
  - apply sql_MIN_r_min; [exact Hl | now apply map_nonempty].
  - apply sql_MIN_bounds; [exact Ho|]. apply r_first_picks; [now apply map_nonempty | exact Ho].
  - apply sql_MAX_bounds; [exact Hc|]. apply r_last_picks; [now apply map_nonempty | exact Hc].
Qed.

(** The theorem of X5 at a concrete input. *)
Lemma X5_sql_open_close_bracket_witness :
  map Daily.Open (SqlScript.daily_aggregation Sample.one_day_two_bars) = [99.5] /\
  map Daily.Open (RScript.es_daily Sample.one_day_two_bars) = [100] /\
  Forall2
    (fun s r =>
       Daily.Date s = Daily.Date r /\
       Daily.High s = Daily.High r /\ Daily.Low s = Daily.Low r /\
       (Daily.Open s <=? Daily.Open r) = true /\
       (Daily.Close r <=? Daily.Close s) = true)
    (SqlScript.daily_aggregation Sample.one_day_two_bars)
    (RScript.es_daily Sample.one_day_two_bars).
Proof.
  split; [reflexivity | split; [reflexivity|]].
  apply X5_sql_open_close_bracket.
  intros b [<- | [<- | []]]; reflexivity.
Defined.

End Extra_X3_X5.

Section Extra_X7.

Local Open Scope float_scope.

(** X7.  Every entry of the notebook's correlation matrix is either
    missing (NaN) or a number between -1 and 1, both included. *)
Theorem X7_correlation_entries_in_range (daily : list Daily.bar)
  (m : list (list float)) (row : list float) (e : float) :
  Notebook.correlation_matrix daily = Returned m -> In row m -> In e row ->
  defined e = false \/ ((-1 <=? e) = true /\ (e <=? 1) = true).
Proof.
  unfold Notebook.correlation_matrix. intros H Hrow He.
  injection H as <-. exact (corr_entries_range _ row e Hrow He).
Qed.

(** The theorem of X7 at a concrete input. *)
Lemma X7_correlation_entries_in_range_witness :
  exists m row e,
    Notebook.correlation_matrix (Notebook.es_daily Sample.two_days_apart) = Returned m /\
    In row m /\ In e row /\
    (defined e = false \/ ((-1 <=? e) = true /\ (e <=? 1) = true)).
Proof.
  eexists. eexists. eexists.
  assert (H : forall m row e,
             Notebook.correlation_matrix (Notebook.es_daily Sample.two_days_apart)
               = Returned m -> In row m -> In e row ->
             defined e = false \/ ((-1 <=? e) = true /\ (e <=? 1) = true))
    by exact (X7_correlation_entries_in_range _).
  split; [reflexivity|]. split; [now left|]. split; [now left|].
  eapply H; [reflexivity | now left | now left].
Defined.

End Extra_X7.

Section Extra_X8_X9.

Local Open Scope float_scope.

(** X8.  A single missing close among the 20 (50) records that end at a
    record leaves the 20-day (50-day) moving average of that record
    missing, in the notebook and in the R script; in the notebook this
    is what a day without bars does to its own row and to the rows
    that follow while it is in their window. *)
Theorem X8_missing_close_blanks_the_average (mean_of_numbers : list float -> float)
  (rollmean : list float -> nat -> list float) (es_data : list Raw.bar)
  (daily : list Daily.bar) (i : nat) (b : Daily.bar) :
  (i < length daily)%nat ->
  (In b (trailing 20 i daily) -> defined (Daily.Close b) = false ->
     nth_error (Notebook.MA_20_Day daily) i = Some nan /\
     nth_error (RScript.MA_20_Day mean_of_numbers rollmean daily) i = Some R.NA)
  /\ (In b (trailing 50 i daily) -> defined (Daily.Close b) = false ->
        nth_error (Notebook.MA_50_Day daily) i = Some nan /\
        nth_error (RScript.MA_50_Day mean_of_numbers rollmean daily) i = Some R.NA)
  /\ (daily = Notebook.es_daily es_data ->
      In b (trailing 20 i daily) ->
      (forall r, In r es_data -> Raw.Date r <> Daily.Date b) ->
      nth_error (Notebook.MA_20_Day daily) i = Some nan).
Proof.
  intro Hi. split; [|split].
  - intros Hb Hd.
    exact (moving_average_with_missing_close mean_of_numbers rollmean 20 daily i b
             (Nat.lt_0_succ _) Hi Hb Hd).
  - intros Hb Hd.
    exact (moving_average_with_missing_close mean_of_numbers rollmean 50 daily i b
             (Nat.lt_0_succ _) Hi Hb Hd).
  - intros E Hb Hgap.
    apply (moving_average_with_missing_close mean_of_numbers rollmean 20 daily i b
             (Nat.lt_0_succ _) Hi Hb).
    apply (notebook_gap_close es_data); [|exact Hgap].
    rewrite <- E. exact (trailing_In _ _ _ _ Hb).
Qed.

(** The theorem of X8 on a month of bars with day 5 missing: the
    average of day 20 is missing. *)
Lemma X8_missing_close_blanks_the_average_witness :
  nth_error
    (Notebook.MA_20_Day (Notebook.es_daily Examples.month_with_a_gap)) 20
  = Some nan.
Proof.
  pose (daily := Notebook.es_daily Examples.month_with_a_gap).
  pose (gap := nth 5 daily (Sample.day_closing 0 0)).
  assert (Hi : (20 < length daily)%nat) by (vm_compute; lia).
  refine (proj2 (proj2
    (X8_missing_close_blanks_the_average (fun _ => nan) (fun _ _ => [])
       Examples.month_with_a_gap daily 20 gap Hi))
    eq_refl _ _).
  - vm_compute. do 4 right. left. reflexivity.
  - intros r Hin. vm_compute in Hin.
    repeat (destruct Hin as [<-|Hin]; [vm_compute; discriminate|]).
    destruct Hin.
Defined.

(** X9.  The first record never passes the threshold filter: its
    return has no previous close to be computed from.  So the notebook
    and the SQL query report what they would report had the first
    record been dropped, and at most one record fewer than they were
    given. *)
Theorem X9_first_record_never_significant (fill : Pandas.fill_method)
  (daily : list Daily.bar) (rows : list (CalendarDate * float)) :
  Notebook.significant_changes (Notebook.with_returns fill daily)
    = Notebook.significant_changes (tl (Notebook.with_returns fill daily))
  /\ SqlScript.significant_changes (SqlScript.returns rows)
     = SqlScript.significant_changes (tl (SqlScript.returns rows))
  /\ (length (Notebook.significant_changes (Notebook.with_returns fill daily))
       <= length daily - 1)%nat
  /\ (length (SqlScript.significant_changes (SqlScript.returns rows))
       <= length rows - 1)%nat.
Proof.
  assert (N : Notebook.significant_changes (Notebook.with_returns fill daily)
    = Notebook.significant_changes (tl (Notebook.with_returns fill daily))).
  { destruct daily as [|b rest]; [reflexivity|].
    destruct (notebook_returns_head fill b rest) as [others E]. rewrite E. reflexivity. }
  assert (Q : SqlScript.significant_changes (SqlScript.returns rows)
     = SqlScript.significant_changes (tl (SqlScript.returns rows))).
  { assert (H := sql_returns_head rows).
    destruct (SqlScript.returns rows) as [|r others]; [reflexivity|].
    simpl. rewrite H. reflexivity. }
  split; [exact N | split; [exact Q | split]].
  - rewrite N. eapply Nat.le_trans; [apply filter_length_le|].
    destruct (Notebook.with_returns fill daily) eqn:E; simpl; [lia|].
    apply (f_equal (@length _)) in E. unfold Notebook.with_returns in E.
    rewrite length_map, length_combine in E. unfold Notebook.Daily_Return_column in E.
    rewrite length_pct_change, length_map in E. simpl in E. lia.
  - rewrite Q. eapply Nat.le_trans; [apply filter_length_le|].
    destruct (SqlScript.returns rows) eqn:E; simpl; [lia|].
    apply (f_equal (@length _)) in E. unfold SqlScript.returns in E.
    rewrite length_map, length_combine in E. unfold SqlScript.Prev_Close in E.
    rewrite length_lag, length_map in E. simpl in E.
    assert (Hlen : length (SQL.ORDER_BY_Date rows) = length rows).
    { apply length_ORDER_BY_Date. }
    lia.
Qed.

End Extra_X8_X9.

Section Extra_X10_X11.

Local Open Scope float_scope.

(** X10.  With one row per date, the daily returns of the SQL query do
    not depend on the order in which the rows of [daily_close] arrive:
    the window's ORDER BY Date fixes the predecessor of every row.
    There is one record per row, with the row's date and close. *)
Theorem X10_sql_returns_ignore_row_order (rows rows' : list (CalendarDate * float)) :
  NoDup (map fst rows) -> Permutation rows rows' ->
  SqlScript.returns rows = SqlScript.returns rows' /\
  Permutation (map (fun r => (rDate r, rClose r)) (SqlScript.returns rows)) rows.
Proof.
  intros Hnd Hp. split.
  - unfold SqlScript.returns, SqlScript.Prev_Close.
    now rewrite (ORDER_BY_Date_canonical rows rows' Hnd Hp).
  - rewrite returns_rows. apply ORDER_BY_Date_perm.
Qed.

(** The theorem of X10 on two rows given latest first. *)
Lemma X10_sql_returns_ignore_row_order_witness :
  SqlScript.returns [(1%Z, 103); (0%Z, 100)]
  = SqlScript.returns [(0%Z, 100); (1%Z, 103)].
Proof.
  assert (Hnd : NoDup (map fst [(1%Z, 103); (0%Z, 100)])).
  { simpl. constructor; [intros [H|[]]; discriminate|].
    constructor; [intros []|constructor]. }
  exact (proj1 (X10_sql_returns_ignore_row_order _ _ Hnd (perm_swap _ _ []))).
Defined.

(** X11.  A record that the last SQL query reports belongs to a date of
    the input that is not the earliest one; its close is the greatest
    close of that date and its return is not NULL. *)
Theorem X11_sql_significant_days (es_data : list Raw.bar) (r : ReturnRecord) :
  In r (SqlScript.significant_days es_data) ->
  (exists b, In b es_data /\ Raw.Date b = rDate r) /\
  (exists b, In b es_data /\ (Raw.Date b < rDate r)%Z) /\
  rClose r = SQL.MAX (map Raw.Close (on_date (rDate r) es_data)) /\
  defined (Daily_Return r) = true.
Proof.
  unfold SqlScript.significant_days. intro Hr.
  assert (Hdef : defined (Daily_Return r) = true).
  { apply filter_In in Hr. destruct Hr as [_ Hr].
    exact (exceeds_defined _ _ Hr). }
  assert (Hrow : In (rDate r, rClose r) (SqlScript.daily_close es_data)).
  { rewrite <- daily_close_in_order, <- returns_rows.
    apply filter_In in Hr. destruct Hr as [Hr _].
    exact (in_map (fun r => (rDate r, rClose r)) _ _ Hr). }
  assert (Hlate : In (rDate r) (tl (distinct_dates (map Raw.Date es_data)))).
  { rewrite <- daily_close_dates, <- daily_close_in_order.
    rewrite <- (proj1 (returns_dates _)), tl_map.
    rewrite sql_significant_tl in Hr. apply filter_In in Hr. destruct Hr as [Hr _].
    now apply in_map. }
  unfold SqlScript.daily_close, SqlScript.date_and_close in Hrow.
  apply in_map_iff in Hrow. destruct Hrow as [bar [E Hbar]].
  injection E as Ed Ec.
  unfold SqlScript.daily_aggregation in Hbar. apply In_aggregate in Hbar.
  destruct Hbar as [Hkey Ebar]. rewrite Ed in Hkey, Ebar.
  split; [|split; [|split]].
  - apply In_distinct_dates, in_map_iff in Hkey. destruct Hkey as [b [E Hb]]. eauto.
  - destruct (sorted_tl_above _ _ (distinct_dates_sorted _) Hlate) as [d [Hd Hlt]].
    apply In_distinct_dates, in_map_iff in Hd. destruct Hd as [b [E Hb]].
    exists b. split; [exact Hb | now rewrite E].
  - rewrite <- Ec, Ebar. reflexivity.
  - exact Hdef.
Qed.

(** The theorem of X11 on a close of 100 followed by a close of 103. *)
Lemma X11_sql_significant_days_witness :
  exists b, In b [Raw.mk 570 100 100 100 100 1; Raw.mk 2010 103 103 103 103 1]
            /\ (Raw.Date b < 1)%Z.
Proof.
  refine (proj1 (proj2 (X11_sql_significant_days
    [Raw.mk 570 100 100 100 100 1; Raw.mk 2010 103 103 103 103 1]
    (mkReturn 1 103 ((103 - 100) / 100)) _))).
  vm_compute. left. reflexivity.
Defined.

End Extra_X10_X11.

Section Extra_X12_X14.

Local Open Scope Z_scope.

(** X12.  The SQL aggregation has exactly one row for every date that
    occurs in the input and for no other date, whatever the order of
    the input; the volume of a row is the exact sum of the volumes of
    its date, so the volumes of all rows add up to the volumes of the
    input; the empty table gives no row. *)
Theorem X12_sql_daily_rows (es_data : list Raw.bar) :
  let out := SqlScript.daily_aggregation es_data in
  (forall d, In d (map Daily.Date out) <-> exists r, In r es_data /\ Raw.Date r = d)
  /\ NoDup (map Daily.Date out)
  /\ (forall bar, In bar out -> Daily.Volume bar = volume_on (Daily.Date bar) es_data)
  /\ Int.total (map Daily.Volume out) = Int.total (map Raw.Volume es_data)
  /\ SqlScript.daily_aggregation [] = [].
Proof.
  intro out. unfold out.
  destruct (grouped_by_input_dates SqlScript.select_list es_data) as [Hd Hs].
  split; [|split; [|split; [|split]]].
  - intro d. unfold SqlScript.daily_aggregation. rewrite Hd, in_map_iff.
    split; intros [r [A B]]; exists r; tauto.
  - apply sorted_lt_NoDup. exact Hs.
  - apply sql_daily_volumes.
  - apply sql_total_volume.
  - reflexivity.
Qed.

(** X13.  In the R script, with non-negative volumes, the volume of a
    day depends on the type that [read.csv] gives the Volume column.
    When every volume of the file fits a 32-bit integer the sum is an
    integer sum: the exact total of the day while that total does not
    exceed 2147483647 and NA beyond, never a wrapped-around number.
    When some volume of the file exceeds 2147483647 the column is a
    double one and the day's volume is its exact total (the total of
    the file being below 2^53).  The days come in ascending date
    order, one per date of the input. *)
Theorem X13_r_daily_volume_is_exact_or_NA (es_data : list Raw.bar) (bar : Daily.bar) :
  (forall b, In b es_data -> 0 <= Raw.Volume b) ->
  In bar (RScript.es_daily es_data) ->
  let day := volume_on (Daily.Date bar) es_data in
  ((forall b, In b es_data -> Raw.Volume b <= Int.INT_MAX) ->
     Daily.Volume bar = (if day <=? Int.INT_MAX then day else Int.NA_integer_))
  /\ ((exists b, In b es_data /\ Int.INT_MAX < Raw.Volume b) ->
      Int.total (map Raw.Volume es_data) < 2 ^ 53 ->
      Daily.Volume bar = day)
  /\ StronglySorted Z.lt (map Daily.Date (RScript.es_daily es_data))
  /\ (forall d, In d (map Daily.Date (RScript.es_daily es_data))
                <-> In d (map Raw.Date es_data)).
Proof.
  intros Hpos Hbar day.
  destruct (grouped_by_input_dates (RScript.summarise_spec
              (R.type_convert (map Raw.Volume es_data))) es_data) as [Hd Hs].
  assert (Hg : forall x, In x (map Raw.Volume (on_date (Daily.Date bar) es_data)) ->
                 0 <= x).
  { intros x Hx. apply in_map_iff in Hx. destruct Hx as [b [<- Hb]].
    apply In_on_date in Hb. apply Hpos. tauto. }
  split; [|split; [|split; [exact Hs | exact Hd]]].
  - intro Hfit. rewrite (r_daily_volumes es_data bar Hbar).
    rewrite type_convert_integer.
    + unfold day, volume_on. now apply r_sum_nonneg.
    + intros v Hv. apply in_map_iff in Hv. destruct Hv as [b [<- Hb]].
      specialize (Hpos b Hb). specialize (Hfit b Hb). unfold Int.INT_MAX in *. lia.
  - intros (b & Hb & Hbig) Htotal. rewrite (r_daily_volumes es_data bar Hbar).
    rewrite (type_convert_double _ (Raw.Volume b) (in_map _ _ _ Hb) Hbig).
    assert (Hday : 0 <= day <= Int.total (map Raw.Volume es_data)).
    { split; [now apply volume_on_nonneg | now apply volume_on_le_total]. }
    unfold day, volume_on in *. apply r_sum_double_total.
    + intros v Hv. assert (H0 := Hg v Hv).
      assert (H1 := total_bounds_member _ v Hg Hv). lia.
    + lia.
Qed.

(** The theorem of X13 on a day whose two bars total 2^31. *)
Lemma X13_r_daily_volume_is_exact_or_NA_witness :
  exists bar,
    In bar (RScript.es_daily [Sample.bar_at 570 2147483647; Sample.bar_at 571 1]) /\
    Daily.Volume bar = Int.NA_integer_.
Proof.
  pose (es_data := [Sample.bar_at 570 2147483647; Sample.bar_at 571 1]).
  assert (Hpos : forall b, In b es_data -> 0 <= Raw.Volume b).
  { intros b [<- | [<- | []]]; simpl; lia. }
  assert (Hfit : forall b, In b es_data -> Raw.Volume b <= Int.INT_MAX).
  { intros b [<- | [<- | []]]; unfold Int.INT_MAX; simpl; lia. }
  assert (Hbar : In (hd (Sample.day_closing 0 0) (RScript.es_daily es_data))
                    (RScript.es_daily es_data)) by (left; reflexivity).
  exists (hd (Sample.day_closing 0 0) (RScript.es_daily es_data)).
  split; [exact Hbar|].
  etransitivity;
    [exact (proj1 (X13_r_daily_volume_is_exact_or_NA es_data _ Hpos Hbar) Hfit)
    | reflexivity].
Defined.

(** X14.  Bars of later dates do not touch the days already
    aggregated: when every new bar is dated after every old one, the
    daily rows of the two together are the daily rows of the old bars
    followed by those of the new ones, in the SQL query and, when
    every volume fits a 32-bit integer (so that the Volume column
    keeps its type), in the R script. *)
Theorem X14_later_bars_append_days (old new : list Raw.bar) :
  (forall a b, In a old -> In b new -> Raw.Date a < Raw.Date b) ->
  SqlScript.daily_aggregation (old ++ new)
    = SqlScript.daily_aggregation old ++ SqlScript.daily_aggregation new
  /\ ((forall b, In b (old ++ new) -> - Int.INT_MAX <= Raw.Volume b <= Int.INT_MAX) ->
      RScript.es_daily (old ++ new) = RScript.es_daily old ++ RScript.es_daily new).
Proof.
  intro H. split; [now apply aggregate_app|].
  intro Hfit. unfold RScript.es_daily.
  assert (Hty : forall rows, (forall b, In b rows -> In b (old ++ new)) ->
                R.type_convert (map Raw.Volume rows) = R.integer).
  { intros rows Hsub. apply type_convert_integer. intros v Hv.
    apply in_map_iff in Hv. destruct Hv as [b [<- Hb]]. now apply Hfit, Hsub. }
  rewrite (Hty (old ++ new)) by auto.
  rewrite (Hty old) by (intros b Hb; apply in_or_app; now left).
  rewrite (Hty new) by (intros b Hb; apply in_or_app; now right).
  now apply aggregate_app.
Qed.

(** The theorem of X14 on one old and one new bar. *)
Lemma X14_later_bars_append_days_witness :
  RScript.es_daily ([Sample.bar_at 570 10] ++ [Sample.bar_at 3450 20])
  = RScript.es_daily [Sample.bar_at 570 10] ++ RScript.es_daily [Sample.bar_at 3450 20].
Proof.
  refine (proj2 (X14_later_bars_append_days [Sample.bar_at 570 10]
                   [Sample.bar_at 3450 20] _) _).
  - intros a b [<- | []] [<- | []]. vm_compute. reflexivity.
  - intros b [<- | [<- | []]]; unfold Int.INT_MAX; simpl; lia.
Defined.

End Extra_X12_X14.

Section Extra_X15_X16.

Local Open Scope Z_scope.

(** X15.  In the notebook, bars of later dates leave the rows already
    aggregated as they are and add, behind them, one empty row (prices
    missing, volume 0) for every calendar day between the last old date
    and the first new date, and then the rows of the new bars. *)
Theorem X15_notebook_later_bars (old new : list Raw.bar) :
  old <> [] -> new <> [] ->
  (forall a b, In a old -> In b new -> Raw.Date a < Raw.Date b) ->
  Notebook.es_daily (old ++ new)
  = Notebook.es_daily old
    ++ map (fun d => Daily.mk d nan nan nan nan 0)
         (inclusive_range (last (Pandas.resample_D old) 0 + 1)
                          (hd 0 (Pandas.resample_D new) - 1))
    ++ Notebook.es_daily new.
Proof.
  intros Ho Hn H.
  destruct (resample_D_bounds old Ho) as (a & b & Ha & Hb & Hab & Eo).
  destruct (resample_D_bounds new Hn) as (c & d & Hc & Hd & Hcd & En).
  assert (Hbc : b < c).
  { apply in_map_iff in Hb, Hc. destruct Hb as [x [<- Hx]]. destruct Hc as [y [<- Hy]].
    now apply H. }
  assert (Hab' : a <= b).
  { apply in_map_iff in Ha. destruct Ha as [x [<- Hx]]. apply (Hab x Hx). }
  assert (Hcd' : c <= d).
  { apply in_map_iff in Hc. destruct Hc as [x [<- Hx]]. apply (Hcd x Hx). }
  assert (Eall : Pandas.resample_D (old ++ new) = inclusive_range a d).
  { apply resample_D_range.
    - rewrite map_app. apply in_or_app. now left.
    - rewrite map_app. apply in_or_app. now right.
    - intros r Hr. apply in_app_or in Hr. destruct Hr as [Hr|Hr].
      + specialize (Hab r Hr). apply in_map_iff in Hd. destruct Hd as [y [<- Hy]].
        specialize (H r y Hr Hy). lia.
      + specialize (Hcd r Hr). apply in_map_iff in Ha. destruct Ha as [x [<- Hx]].
        specialize (H x r Hx Hr). lia. }
  assert (El : last (Pandas.resample_D old) 0 = b).
  { rewrite Eo, (inclusive_range_last a b Hab'). apply last_last. }
  assert (Eh : hd 0 (Pandas.resample_D new) = c).
  { rewrite En, (inclusive_range_first c d Hcd'). reflexivity. }
  rewrite El, Eh, !notebook_frame.
  rewrite Eall, Eo, En.
  rewrite (inclusive_range_split a b d) by lia.
  rewrite (inclusive_range_split (b + 1) (c - 1) d) by lia.
  replace (c - 1 + 1) with c by lia.
  rewrite !map_app. f_equal; [|f_equal]; apply map_ext_in; intros x Hx;
    apply In_inclusive_range in Hx; rewrite on_date_app.
  - rewrite (on_date_nil x new), app_nil_r; [reflexivity|].
    intros r Hr E. specialize (Hcd r Hr). lia.
  - rewrite (on_date_nil x new), (on_date_nil x old); [reflexivity| |].
    + intros r Hr E. specialize (Hab r Hr). lia.
    + intros r Hr E. specialize (Hcd r Hr). lia.
  - rewrite (on_date_nil x old); [reflexivity|].
    intros r Hr E. specialize (Hab r Hr). lia.
Qed.

(** The theorem of X15 on two bars two days apart. *)
Lemma X15_notebook_later_bars_witness :
  Notebook.es_daily ([Sample.bar_at 570 10] ++ [Sample.bar_at 3450 20])
  = Notebook.es_daily [Sample.bar_at 570 10]
    ++ [Daily.mk 1 nan nan nan nan 0]
    ++ Notebook.es_daily [Sample.bar_at 3450 20].
Proof.
  refine (X15_notebook_later_bars [Sample.bar_at 570 10] [Sample.bar_at 3450 20] _ _ _).
  - discriminate.
  - discriminate.
  - intros a b [<- | []] [<- | []]. vm_compute. reflexivity.
Defined.

(** X16.  On bars whose prices are all present, a forecast of the
    notebook is that of a model fitted on one close per date that has
    bars (the close of the bar of the date that is last in time), and
    its positions start at the number of those dates, which the empty
    rows of the daily frame do not enter. *)
Theorem X16_forecast_counts_days_with_bars (ARIMAResults : Type)
  (ARIMA_fit : list float -> nat * nat * nat -> outcome ARIMAResults)
  (point_forecast : ARIMAResults -> Z -> float)
  (es_data : list Raw.bar) (forecast : list (Z * float)) :
  (forall b, In b es_data -> prices_defined b = true) ->
  Notebook.Forecast ARIMAResults ARIMA_fit point_forecast (Notebook.es_daily es_data)
    = Returned forecast ->
  let dates := distinct_dates (map Raw.Date es_data) in
  let n := Z.of_nat (length dates) in
  (exists arima_result,
     ARIMA_fit
       (map (fun d =>
               List.last (map Raw.Close (Pandas.sort_index (on_date d es_data))) nan)
            dates)
       (5, 1, 0)%nat = Returned arima_result /\
     forecast = Notebook.predict ARIMAResults point_forecast arima_result n (n + 30))
  /\ map fst forecast = inclusive_range n (n + 30)
  /\ (length dates <= length (Notebook.es_daily es_data))%nat.
Proof.
  intros Hp H dates n. unfold Notebook.Forecast in H. cbv zeta in H.
  rewrite (es_close_without_gaps es_data Hp) in H. fold dates in H.
  rewrite length_map in H. fold n in H.
  destruct (ARIMA_fit _ (5, 1, 0)%nat) as [res|e]; [|discriminate].
  injection H as <-. split; [|split].
  - exists res. split; reflexivity.
  - unfold Notebook.predict. rewrite map_map. simpl. apply map_id.
  - unfold dates. rewrite <- grid_with_bars, notebook_frame, length_map.
    apply filter_length_le.
Qed.

(** The theorem of X16 on two bars two days apart: three rows in the
    daily frame, forecast positions from 2. *)
Lemma X16_forecast_counts_days_with_bars_witness :
  length (Notebook.es_daily Sample.two_days_apart) = 3%nat /\
  map fst (map (fun t => (t, 0%float)) (inclusive_range 2 32)) = inclusive_range 2 32.
Proof.
  split; [reflexivity|].
  assert (Hp : forall b, In b Sample.two_days_apart -> prices_defined b = true)
    by (intros b [<- | [<- | []]]; reflexivity).
  assert (H : Notebook.Forecast unit (fun _ _ => Returned tt) (fun _ _ => 0%float)
                (Notebook.es_daily Sample.two_days_apart)
              = Returned (map (fun t => (t, 0%float)) (inclusive_range 2 32)))
    by reflexivity.
  exact (proj1 (proj2
    (X16_forecast_counts_days_with_bars unit _ _ Sample.two_days_apart _ Hp H))).
Defined.

End Extra_X15_X16.

Section Extra_X17.

Local Open Scope float_scope.

(** X17.  The data of the histogram of daily returns are the returns
    that are present, in row order; the returns of the records
    reported as significant are exactly those of them that exceed 0.02
    in absolute value; and the first row of the frame never
    contributes to the histogram. *)
Theorem X17_histogram_data (fill : Pandas.fill_method) (daily : list Daily.bar)
  (records : list ReturnRecord) :
  all_defined (Plots.histogram_data records)
  /\ map Daily_Return (Notebook.significant_changes records)
     = filter (fun x => 0.02 <? abs x) (Plots.histogram_data records)
  /\ Plots.histogram_data (Notebook.with_returns fill daily)
     = Plots.histogram_data (tl (Notebook.with_returns fill daily))
  /\ (length (Plots.histogram_data (Notebook.with_returns fill daily))
      <= length daily - 1)%nat.
Proof.
  assert (T : Plots.histogram_data (Notebook.with_returns fill daily)
              = Plots.histogram_data (tl (Notebook.with_returns fill daily))).
  { destruct daily as [|b rest]; [reflexivity|].
    destruct (notebook_returns_head fill b rest) as [others E]. rewrite E. reflexivity. }
  split; [|split; [|split]].
  - unfold Plots.histogram_data, Pandas.dropna, all_defined. apply Forall_forall.
    intros x Hx. apply filter_In in Hx. tauto.
  - apply significant_in_histogram.
  - exact T.
  - rewrite T. unfold Plots.histogram_data, Pandas.dropna.
    eapply Nat.le_trans; [apply filter_length_le|].
    rewrite length_map.
    destruct (Notebook.with_returns fill daily) eqn:E; simpl; [lia|].
    apply (f_equal (@length _)) in E. unfold Notebook.with_returns in E.
    rewrite length_map, length_combine in E. unfold Notebook.Daily_Return_column in E.
    rewrite length_pct_change, length_map in E. simpl in E. lia.
Qed.

End Extra_X17.

Section Extra_X19.

Local Open Scope float_scope.

(** X19.  A row whose close is missing is never reported as a
    significant change by the notebook, whether [pct_change] fills
    missing closes forward (the return of the row is then 0 or
    missing) or not (it is missing): every reported record has a
    close, and in the notebook's daily frame it belongs to a date on
    which the input has a bar. *)
Theorem X19_empty_days_never_significant (fill : Pandas.fill_method)
  (daily : list Daily.bar) (r : ReturnRecord) :
  In r (Notebook.significant_changes (Notebook.with_returns fill daily)) ->
  defined (rClose r) = true /\
  forall es_data, daily = Notebook.es_daily es_data ->
                  has_bars es_data (rDate r) = true.
Proof.
  intro H. apply filter_In in H. destruct H as [Hin Hsig].
  destruct (with_returns_row fill daily r Hin) as (i & b & Hb & Hret & Ed & Ec).
  assert (Hdef : defined (rClose r) = true).
  { destruct (defined (rClose r)) eqn:E; [reflexivity|]. rewrite Ec in E.
    rewrite (pct_change_missing_close fill (map Daily.Close daily) i (Daily.Close b)
               (Daily_Return r)) in Hsig;
      [discriminate | now rewrite nth_error_map, Hb | exact E | exact Hret]. }
  split; [exact Hdef|].
  intros es_data ->.
  destruct (has_bars es_data (rDate r)) eqn:E; [reflexivity|].
  rewrite Ec, (notebook_gap_close es_data b) in Hdef; [discriminate| |].
  - eapply nth_error_In, Hb.
  - intros x Hx Heq.
    assert (has_bars es_data (rDate r) = true)
      by (apply has_bars_iff; exists x; split; [exact Hx | congruence]).
    congruence.
Qed.

(** The theorem of X19 on a close of 100 followed by a close of 103. *)
Lemma X19_empty_days_never_significant_witness :
  defined (rClose (mkReturn 1 103 (103 / 100 - 1))) = true.
Proof.
  refine (proj1 (X19_empty_days_never_significant Pandas.pad Sample.up_three_percent
                   (mkReturn 1 103 (103 / 100 - 1)) _)).
  vm_compute. left. reflexivity.
Defined.

End Extra_X19.

Section Extra_X20.

Local Open Scope float_scope.

(** X20.  The empty rows of the notebook's daily frame do not enter
    any correlation that involves a price column: dropping the rows of
    the days without bars leaves every entry of the correlation matrix
    outside the Volume-Volume one unchanged. *)
Theorem X20_correlation_ignores_empty_rows (es_data : list Raw.bar)
  (m m' : list (list float)) (i j : nat) :
  Notebook.correlation_matrix (Notebook.es_daily es_data) = Returned m ->
  Notebook.correlation_matrix
    (filter (fun bar => has_bars es_data (Daily.Date bar)) (Notebook.es_daily es_data))
    = Returned m' ->
  (i < 4 \/ j < 4)%nat ->
  nth j (nth i m []) nan = nth j (nth i m' []) nan.
Proof.
  unfold Notebook.correlation_matrix. intros H H' Hij.
  injection H as <-. injection H' as <-.
  rewrite !corr_entry. cbn [length].
  destruct ((i <? 5)%nat && (j <? 5)%nat) eqn:E; [|reflexivity].
  apply andb_true_iff in E. destruct E as [Hi Hj].
  apply Nat.ltb_lt in Hi, Hj.
  rewrite !correlation_columns by lia.
  apply nancorr_pair_skips. intros b Hb Hgap.
  rewrite (empty_row_prices es_data b (Nat.min i j) Hb Hgap) by lia.
  apply andb_false_r.
Qed.

(** The theorem of X20 on bars with a day in between that has none:
    the correlation of Open and Close. *)
Lemma X20_correlation_ignores_empty_rows_witness :
  match
    Notebook.correlation_matrix (Notebook.es_daily Examples.rising_with_a_gap),
    Notebook.correlation_matrix
      (filter (fun bar => has_bars Examples.rising_with_a_gap (Daily.Date bar))
              (Notebook.es_daily Examples.rising_with_a_gap))
  with
  | Returned m, Returned m' => nth 3 (nth 0 m []) nan = nth 3 (nth 0 m' []) nan
  | _, _ => False
  end.
Proof.
  assert (Hij : (0 < 4 \/ 3 < 4)%nat) by (left; lia).
  exact (X20_correlation_ignores_empty_rows Examples.rising_with_a_gap _ _ 0 3
           eq_refl eq_refl Hij).
Defined.

End Extra_X20.

Section Extra_X21.

Local Open Scope float_scope.

(** X21.  The return of the first row with a close after a run of rows
    without one depends on how [pct_change] treats missing values:
    filling forward, it is the change from the last close before the
    run; not filling, it is missing. *)
Theorem X21_return_after_empty_days (daily : list Daily.bar) (j i : nat) (p c : float) :
  let closes := map Daily.Close daily in
  (j + 1 < i)%nat ->
  nth_error closes j = Some p -> defined p = true ->
  nth_error closes i = Some c -> defined c = true ->
  (forall k, (j < k < i)%nat -> exists x, nth_error closes k = Some x /\ defined x = false) ->
  nth_error (Notebook.Daily_Return_column Pandas.pad daily) i = Some (c / p - 1) /\
  nth_error (Notebook.Daily_Return_column Pandas.no_fill daily) i = Some nan.
Proof.
  intros closes Hji Hp Dp Hc Dc Hgap.
  assert (Hlen : (i < length closes)%nat) by (apply nth_error_Some; now rewrite Hc).
  unfold Notebook.Daily_Return_column, Pandas.pct_change. fold closes. cbv zeta.
  rewrite !nth_error_map. split.
  - assert (Hprev : nth_error (Pandas.ffill closes) (i - 1) = Some p).
    { replace (i - 1)%nat with (j + (i - 1 - j))%nat by lia.
      apply (ffill_carries closes j p Hp Dp). intros k Hk. apply Hgap. lia. }
    rewrite (nth_error_combine _ _ i c p); [reflexivity | |].
    + now apply nth_error_ffill_from.
    + simpl. rewrite nth_error_lag; [exact Hprev | lia|].
      unfold Pandas.ffill. now rewrite length_ffill_from.
  - destruct (Hgap (i - 1)%nat ltac:(lia)) as [x [Hx Hd]].
    unfold defined in Hd. apply negb_false_iff, is_nan_eq in Hd. subst x.
    rewrite (nth_error_combine _ _ i c nan); simpl.
    + now rewrite div_nan_r, sub_nan_l.
    + exact Hc.
    + rewrite nth_error_lag; [exact Hx | lia | exact Hlen].
Qed.

(** The theorem of X21 on closes 100, none, 103, 101. *)
Lemma X21_return_after_empty_days_witness :
  map Daily.Close (Notebook.es_daily Examples.rising_with_a_gap) = [100; nan; 103; 101] /\
  nth_error (Notebook.Daily_Return_column Pandas.pad
               (Notebook.es_daily Examples.rising_with_a_gap)) 2 = Some (103 / 100 - 1) /\
  nth_error (Notebook.Daily_Return_column Pandas.no_fill
               (Notebook.es_daily Examples.rising_with_a_gap)) 2 = Some nan.
Proof.
  split; [reflexivity|].
  refine (X21_return_after_empty_days (Notebook.es_daily Examples.rising_with_a_gap)
            0 2 100 103 _ eq_refl eq_refl eq_refl eq_refl _).
  - lia.
  - intros k Hk. assert (k = 1%nat) by lia. subst k. exists nan. split; reflexivity.
Defined.

End Extra_X21.

Section Extra_X22_X23.

Local Open Scope float_scope.

(** X22.  The two conversions of the daily frame's index, to periods
    after the aggregation and back to timestamps before plotting,
    cancel each other: the index is again the midnights that
    [resample('D')] gave, and the periods in between are the calendar
    days of the frame, among them the day of every input bar. *)
Theorem X22_index_round_trip (es_data : list Raw.bar) :
  map Index.to_timestamp (map Index.to_period_D (Index.resampled es_data))
    = Index.resampled es_data
  /\ map Index.to_period_D (Index.resampled es_data)
     = map Daily.Date (Notebook.es_daily es_data)
  /\ (forall r, In r es_data ->
        In (Index.to_period_D (Raw.Time r))
           (map Index.to_period_D (Index.resampled es_data))).
Proof.
  assert (E : map Index.to_period_D (Index.resampled es_data)
              = Pandas.resample_D es_data).
  { unfold Index.resampled, Index.to_period_D. rewrite map_map.
    rewrite (map_ext _ (fun d => d) DATE_bin_label). apply map_id. }
  split; [|split].
  - rewrite E. reflexivity.
  - rewrite E. symmetry. apply notebook_dates.
  - intros r Hr. rewrite E. exact (resample_D_covers es_data r Hr).
Qed.

(** X23.  After a close of zero the two variants part: for a close that
    is present and not zero, the notebook computes an infinite return
    and reports the row as a significant change, while the SQL query
    computes NULL, which its filter leaves out. *)
Theorem X23_return_after_zero_close (fill : Pandas.fill_method)
  (daily : list Daily.bar) (i : nat) (c p : float) :
  (0 < i)%nat ->
  nth_error (map Daily.Close daily) i = Some c ->
  nth_error (map Daily.Close daily) (i - 1) = Some p ->
  defined c = true -> (c =? 0) = false -> (p =? 0) = true ->
  (nth_error (Notebook.Daily_Return_column fill daily) i = Some (c / p - 1) /\
   (0.02 <? abs (c / p - 1)) = true)
  /\ (StronglySorted Z.lt (map Daily.Date daily) ->
      nth_error (map Daily_Return (SqlScript.returns (SqlScript.date_and_close daily))) i
        = Some SQL.NULL).
Proof.
  intros Hi Hc Hp Dc Cz Pz. split; [split|].
  - apply pct_change_row; try assumption. now apply zero_defined.
  - now apply return_on_zero_close.
  - intro Hs.
    rewrite (sql_return_row daily i c p Hs Hi Hc Hp). unfold SQL.div. now rewrite Pz.
Qed.

(** The theorem of X23 on a close of 0 followed by a close of 5. *)
Lemma X23_return_after_zero_close_witness :
  Notebook.significant_changes
    (Notebook.with_returns Pandas.no_fill
       [Sample.day_closing 0 0; Sample.day_closing 1 5])
  = [mkReturn 1 5 infinity] /\
  (0.02 <? abs (5 / 0 - 1)) = true.
Proof.
  split; [reflexivity|].
  refine (proj2 (proj1 (X23_return_after_zero_close Pandas.no_fill
            [Sample.day_closing 0 0; Sample.day_closing 1 5] 1 5 0 _
            eq_refl eq_refl eq_refl eq_refl eq_refl))).
  lia.
Defined.

End Extra_X22_X23.

